(** * ataqv web viewer: data transforms and legend selection state

    A shallow embedding of the coordination core of [src/web/js/ataqv.js]:
    the legend selection state ([legendItemState] and the functions that
    write it), the data providers of the four line plots, and the data, the
    per-sample aggregates and the x-axis domain of the scatter plot.

    Conventions of the embedding.
    - JavaScript numbers are IEEE doubles; they are modelled as exact
      rationals ([Q]) and compared with [==].  [Math.sqrt] is the real
      square root, applied to the image of a rational in [R].
    - A property that may be missing from the JSON document is an [option].
    - A property access on [undefined] raises a [TypeError]; code that can
      do so returns a [result].
    - [configuration.metrics] and [result.series] are JavaScript objects used
      as dictionaries keyed by experiment ID: [gmap string _].
    - [legendItemState] and [samples] are ES6 [Map]s, which keep their
      entries in insertion order: association lists.
    - The DOM (containers, select boxes, SVG) is not modelled; the values the
      code reads from it ([resolution], [yAxisSource], the sample of the
      clicked legend item) are parameters. *)

From Stdlib Require Import QArith Qabs Qminmax Qpower Qreals Reals Lra Lia.
From Stdlib Require Lqa.
From Stdlib Require Import Ascii.
From stdpp Require Import gmap strings list sorting.

Close Scope R_scope.
Close Scope Q_scope.
Local Open Scope Z_scope.
Local Open Scope nat_scope.

(** ** JavaScript primitives *)

Module Js.

(** The only exception the modelled code can raise. *)
Inductive exn := TypeError.

Inductive result (A : Type) :=
| Ok (a : A)
| Throw (e : exn).
Arguments Ok {A} a.
Arguments Throw {A} e.

#[export] Instance result_ret : MRet result := fun A a => Ok a.
#[export] Instance result_bind : MBind result := fun A B k r =>
  match r with
  | Ok a => k a
  | Throw e => Throw e
  end.

(** A [for] loop whose body may throw: the state is threaded through the
    iterations in order and the first exception ends the loop. *)
Fixpoint for_each {S I} (body : S -> I -> result S) (s : S) (l : list I) : result S :=
  match l with
  | [] => Ok s
  | i :: l' => s' ← body s i; for_each body s' l'
  end.

(** [o.p] where [o] may be [undefined]: a [TypeError] if it is. *)
Definition deref {A} (o : option A) : result A :=
  match o with
  | Some a => Ok a
  | None => Throw TypeError
  end.

(** [a || b] on strings: the empty string and [undefined] are falsy. *)
Definition or_else (a : option string) (b : string) : string :=
  match a with
  | Some s => if decide (s = "") then b else s
  | None => b
  end.

(** Truthiness of an optional string, as tested by [if (... && s)]. *)
Definition truthy (a : option string) : option string :=
  match a with
  | Some s => if decide (s = "") then None else Some s
  | None => None
  end.

(** [v || 0] on a number. *)
Definition or_zero (v : Q) : Q := if Qeq_bool v 0 then 0%Q else v.

(** [a > b] and [a < b] on numbers. *)
Definition gt (a b : Q) : bool := negb (Qle_bool a b).
Definition lt (a b : Q) : bool := negb (Qle_bool b a).

(** [a / b] on numbers; [None] stands for a result that is not finite
    ([NaN], [Infinity]). *)
Definition div (a b : Q) : option Q :=
  if Qeq_bool b 0 then None else Some (a / b)%Q.

(** [fl % resolution == 0] for an index [fl] and an integer [resolution]:
    the remainder has the sign of the dividend, and [fl % 0] is [NaN], which
    equals nothing (as does [fl % NaN]: an unparsable resolution behaves
    like [0] here). *)
Definition divides (resolution : Z) (fl : nat) : bool :=
  if (resolution =? 0)%Z then false else (Z.rem (Z.of_nat fl) resolution =? 0)%Z.

(** [Array.prototype.sort()] on strings: by character code, which is the
    order of [String.leb] on the ASCII identifiers a metrics file has. *)
Definition string_le (a b : string) : Prop := String.leb a b = true.
#[export] Instance string_le_dec a b : Decision (string_le a b).
Proof. unfold string_le. apply _. Defined.
Definition sort (l : list string) : list string := merge_sort string_le l.

(** [Object.keys(o)]. *)
Definition keys {A} (o : gmap string A) : list string := (map_to_list o).*1.

End Js.

Import Js.

(** ** ES6 [Map] as an insertion-ordered association list *)

Module JsMap.
Section JsMap.
Context {K V : Type} `{EqDecision K}.

(** [new Map()]. *)
Definition empty : list (K * V) := [].

(** [m.get(k)]; [None] is [undefined]. *)
Fixpoint get (k : K) (m : list (K * V)) : option V :=
  match m with
  | [] => None
  | (k', v) :: m' => if decide (k = k') then Some v else get k m'
  end.

(** [m.set(k, v)]: an existing entry is overwritten in place, a new one is
    appended. *)
Fixpoint set (k : K) (v : V) (m : list (K * V)) : list (K * V) :=
  match m with
  | [] => [(k, v)]
  | (k', v') :: m' =>
      if decide (k = k') then (k, v) :: m' else (k', v') :: set k v m'
  end.

(** [m.keys()], in insertion order. *)
Definition keys (m : list (K * V)) : list K := m.*1.

(** Number of entries stored under key [k]. *)
Definition entries_for (k : K) (m : list (K * V)) : nat :=
  length (filter (fun kv => kv.1 = k) m).

End JsMap.
End JsMap.

(** ** d3-array *)

Module d3.

(** [d3.min(array)]: [undefined] on an empty array, otherwise the least
    value (the first one among equals). *)
Definition min {A} (ltb : A -> A -> bool) (array : list A) : option A :=
  foldl (fun acc v =>
           match acc with
           | None => Some v
           | Some m => if ltb v m then Some v else Some m
           end) None array.

(** [d3.max(array)]. *)
Definition max {A} (ltb : A -> A -> bool) (array : list A) : option A :=
  min (fun a b => ltb b a) array.

End d3.

(** ** The configuration document *)

Module Library.
Record t := {
  sample : option string;
  library : option string;
  description : option string
}.
End Library.

Module PeakPercentiles.
Record t := {
  cumulative_fraction_of_hqaa : list Q;
  cumulative_fraction_of_territory : list Q
}.
End PeakPercentiles.

Module Experiment.
Record t := {
  name : string;
  library : Library.t;
  total_reads : Q;
  total_autosomal_reads : Q;
  duplicate_autosomal_reads : Q;
  short_mononucleosomal_ratio : Q;
  fragment_length_distance : Q;
  (* pairs [length, fraction], indexed by position *)
  fragment_length_counts : list (Z * Q);
  (* pairs [quality, count] *)
  mapq_counts : list (Z * Q);
  peak_percentiles : option PeakPercentiles.t
}.

(** [experiment[field]] for a numeric field chosen by name. *)
Definition field (experiment : t) (f : string) : option Q :=
  if decide (f = "total_reads") then Some (total_reads experiment)
  else if decide (f = "total_autosomal_reads") then Some (total_autosomal_reads experiment)
  else if decide (f = "duplicate_autosomal_reads") then Some (duplicate_autosomal_reads experiment)
  else if decide (f = "short_mononucleosomal_ratio") then Some (short_mononucleosomal_ratio experiment)
  else if decide (f = "fragment_length_distance") then Some (fragment_length_distance experiment)
  else None.

(** [experiment.library.sample || experiment.name], the sample an experiment
    belongs to. *)
Definition sample (experiment : t) : string :=
  or_else (Library.sample (library experiment)) (name experiment).
End Experiment.

Module FragmentLengthReference.
Record t := {
  source : option string;
  distribution : list (Z * Q)
}.
End FragmentLengthReference.

Module Configuration.
Record t := {
  description : option string;
  metrics : gmap string Experiment.t;
  fragment_length_reference : option FragmentLengthReference.t
}.
End Configuration.

(** [Object.keys(configuration.metrics).sort()] *)
Definition experimentIDs (configuration : Configuration.t) : list string :=
  Js.sort (Js.keys (Configuration.metrics configuration)).

(** ** Legend selection state *)

(** The initial value of [legendItemState]: [new Map()]. *)
Definition legendItemState : list (string * bool) := JsMap.empty.

(** [selectLegendItem(evt)].  [dataset_sample] is [li.dataset.sample] of the
    legend item the event resolves to, [None] when there is no such item or
    it carries no sample. *)
Definition selectLegendItem (dataset_sample : option string)
    (legendItemState : list (string * bool)) : list (string * bool) :=
  match truthy dataset_sample with
  | Some sample =>
      match JsMap.get sample legendItemState with
      | Some true => JsMap.set sample false legendItemState
      | _ => JsMap.set sample true legendItemState
      end
  | None => legendItemState
  end.

(** [deselectAllLegendItems()].  The loop runs over the live key iterator;
    [set] on a key that is present adds no entry, so the keys at entry are
    the keys visited. *)
Definition deselectAllLegendItems (legendItemState : list (string * bool))
    : list (string * bool) :=
  foldl (fun st sample => JsMap.set sample false st)
        legendItemState (JsMap.keys legendItemState).

(** [selectAllLegendItems()]. *)
Definition selectAllLegendItems (legendItemState : list (string * bool))
    : list (string * bool) :=
  foldl (fun st sample => JsMap.set sample true st)
        legendItemState (JsMap.keys legendItemState).

(** The loop of [initialize()] over the experiments, visited in the order
    [entries]: one [set] per experiment. *)
Definition initialize_over (entries : list (string * Experiment.t))
    (legendItemState : list (string * bool)) : list (string * bool) :=
  foldl (fun st entry => JsMap.set (Experiment.sample entry.2) true st)
        legendItemState entries.

(** The part of [initialize()] that writes [legendItemState].  A [for ... in]
    loop visits the keys of [configuration.metrics] in the order the object
    enumerates them, which a [gmap] does not record; [map_to_list] is one
    enumeration, and [initialize_any_order] below covers all the others. *)
Definition initialize (configuration : Configuration.t)
    (legendItemState : list (string * bool)) : list (string * bool) :=
  initialize_over (map_to_list (Configuration.metrics configuration)) legendItemState.

(** ** The scatter plot: [makeFragmentLengthDistancePlot] *)

Module Scatter.

(** The object [makeLibrary] returns, one per experiment. *)
Record Library := {
  experimentID : string;
  library : string;
  sample : string;
  description : option string;
  x : Q;
  (* [None]: not a finite number *)
  y : option Q
}.

(** [getYValue(experiment)]; [yAxisSource] is the value of the y-axis select
    box. *)
Definition getYValue (yAxisSource : string) (experiment : Experiment.t) : option Q :=
  if decide (yAxisSource = "short_mononucleosomal_ratio") then
    Experiment.field experiment yAxisSource
  else if decide (yAxisSource = "duplicate_autosomal_reads") then
    v ← Experiment.field experiment yAxisSource;
    q ← Js.div v (Experiment.total_autosomal_reads experiment);
    Some (100 * q)%Q
  else
    v ← Experiment.field experiment yAxisSource;
    q ← Js.div v (Experiment.total_reads experiment);
    Some (100 * q)%Q.

(** [makeLibrary(experimentID)]; [None] is the [undefined] returned for an
    unknown experiment. *)
Definition makeLibrary (configuration : Configuration.t) (yAxisSource : string)
    (experimentID : string) : option Library :=
  match Configuration.metrics configuration !! experimentID with
  | Some experiment =>
      Some {| experimentID := experimentID;
              library := or_else (Library.library (Experiment.library experiment))
                                 (Experiment.name experiment);
              sample := Experiment.sample experiment;
              description := Library.description (Experiment.library experiment);
              x := Experiment.fragment_length_distance experiment;
              y := getYValue yAxisSource experiment |}
  | None => None
  end.

(** The body of the loop over [experimentIDs]: the library is pushed on
    [data] and on the [libraries] of its sample, whose entry in [samples]
    is created on first use. *)
Definition addLibrary (configuration : Configuration.t) (yAxisSource : string)
    (st : list Library * list (string * list Library)) (experimentID : string)
    : result (list Library * list (string * list Library)) :=
  let '(data, samples) := st in
  library ← deref (makeLibrary configuration yAxisSource experimentID);
  let sample := sample library in
  match JsMap.get sample samples with
  | Some libraries => Ok (data ++ [library], JsMap.set sample (libraries ++ [library]) samples)
  | None => Ok (data ++ [library], JsMap.set sample [library] samples)
  end.

(** [data] and [samples] (before the aggregates are attached) after the
    loop. *)
Definition collect (configuration : Configuration.t) (yAxisSource : string)
    : result (list Library * list (string * list Library)) :=
  for_each (addLibrary configuration yAxisSource) ([], JsMap.empty)
           (experimentIDs configuration).

(** [s.meanDistance]; [s.libraries] is never empty. *)
Definition meanDistance (libraries : list Library) : Q :=
  (foldl (fun a b => a + x b) 0 libraries / inject_Z (Z.of_nat (length libraries)))%Q.

Definition squaresOfDifferences (libraries : list Library) : list Q :=
  (fun a => (x a - meanDistance libraries) ^ 2)%Q <$> libraries.

Definition meanSquareOfDifferences (libraries : list Library) : Q :=
  (foldl Qplus 0 (squaresOfDifferences libraries)
   / inject_Z (Z.of_nat (length (squaresOfDifferences libraries))))%Q.

(** [s.distanceStandardDeviation = Math.sqrt(meanSquareOfDifferences)] *)
Definition distanceStandardDeviation (libraries : list Library) : R :=
  sqrt (Q2R (meanSquareOfDifferences libraries)).

(** A value of [samples] once the aggregates are attached. *)
Record Sample := {
  libraries : list Library;
  minDistance : option Q;
  maxDistance : option Q;
  s_meanDistance : Q;
  s_distanceStandardDeviation : R
}.

(** The body of the loop over [samples.values()]. *)
Definition aggregate (libraries : list Library) : Sample :=
  {| libraries := libraries;
     minDistance := d3.min Js.lt (x <$> libraries);
     maxDistance := d3.max Js.lt (x <$> libraries);
     s_meanDistance := meanDistance libraries;
     s_distanceStandardDeviation := distanceStandardDeviation libraries |}.

(** [samples] as the legend and the [sampleInspect] handler see it. *)
Definition samples (configuration : Configuration.t) (yAxisSource : string)
    : result (list (string * Sample)) :=
  match collect configuration yAxisSource with
  | Ok (_, samples) =>
      Ok ((fun entry : string * list Library => (entry.1, aggregate entry.2)) <$> samples)
  | Throw e => Throw e
  end.

(** [limit]: [Math.abs(undefined)] is [NaN], here [None], and so is any
    arithmetic on it. *)
Definition limit (data : list Library) : option Q :=
  mn ← d3.min Js.lt (x <$> data);
  mx ← d3.max Js.lt (x <$> data);
  Some (Qmax (Qabs mn) (Qabs mx) * (105 # 100))%Q.

(** The argument of [xScale.domain]; [undefined < 0] is false. *)
Definition xDomain (data : list Library) : option Q * option Q :=
  let negative :=
    match d3.min Js.lt (x <$> data) with
    | Some mn => Js.lt mn 0
    | None => false
    end in
  if negative then (Qmult (-1) <$> limit data, limit data)
  else (Some 0%Q, limit data).

End Scatter.

(** ** The line plots: the [provideData] functions given to [makeLinePlot] *)

Module Line.

Record Point := { x : Z; y : Q }.

Record Series := {
  experimentID : string;
  library : option string;
  description : option string;
  sample : string;
  line : list Point
}.

End Line.

Module ReferenceSeries.
Record t := {
  source : option string;
  line : list Line.Point
}.
End ReferenceSeries.

Module PlotDataset.
Record t := {
  series : gmap string Line.Series;
  reference_series : option ReferenceSeries.t;
  (* [None]: [undefined] *)
  xMax : option Z;
  yMax : Q;
  xLabel : string;
  yLabel : string
}.
End PlotDataset.

(** *** [plots.plotFragmentLength] *)

Module plotFragmentLength.

(** The variables the resampling loop reads and writes: [sum],
    [result.yMax] and the [line] being filled. *)
Record Loop := { sum : Q; yMax : Q; line : list Line.Point }.

(** The body of the [for (let fl = 0; ...)] loop; the same text fills the
    line of an experiment from [experiment.fragment_length_counts] and the
    reference line from [configuration.fragment_length_reference.distribution]. *)
Definition step (counts : list (Z * Q)) (resolution : Z) (st : Loop) (fl : nat)
    : result Loop :=
  entry ← deref (counts !! fl);
  let fractionOfReadCount := or_zero entry.2 in
  let sum := (sum st + fractionOfReadCount)%Q in
  if divides resolution fl then
    let mean := (sum / inject_Z resolution)%Q in
    Ok {| sum := 0;
          yMax := if Js.gt mean (yMax st) then mean else yMax st;
          line := line st ++ [ {| Line.x := Z.of_nat fl; Line.y := mean |} ] |}
  else
    Ok {| sum := sum; yMax := yMax st; line := line st |}.

(** The whole loop, from [sum = 0] and an empty line; [fl < undefined] is
    false, so an [undefined] bound means no iteration. *)
Definition resample (counts : list (Z * Q)) (resolution : Z)
    (maximumInterestingFragmentLength : option nat) (yMax : Q) : result Loop :=
  for_each (step counts resolution)
           {| sum := 0; yMax := yMax; line := [] |}
           (seq 0 (default 0 maximumInterestingFragmentLength)).

(** [maximumInterestingFragmentLength] *)
Definition maximumInterestingFragmentLength (configuration : Configuration.t)
    : option nat :=
  d3.min Nat.ltb
    ((fun experimentID =>
        match Configuration.metrics configuration !! experimentID with
        | Some m => length (Experiment.fragment_length_counts m)
        | None => 0
        end) <$> experimentIDs configuration).

(** The body of the loop over [experimentIDs]. *)
Definition addSeries (configuration : Configuration.t) (resolution : Z)
    (maximum : option nat) (result : PlotDataset.t) (experimentID : string)
    : Js.result PlotDataset.t :=
  experiment ← deref (Configuration.metrics configuration !! experimentID);
  st ← resample (Experiment.fragment_length_counts experiment) resolution
                maximum (PlotDataset.yMax result);
  Ok {| PlotDataset.series :=
          <[experimentID :=
              {| Line.experimentID := experimentID;
                 Line.library :=
                   Some (or_else (Library.library (Experiment.library experiment))
                                 (Experiment.name experiment));
                 Line.description := Library.description (Experiment.library experiment);
                 Line.sample := Experiment.sample experiment;
                 Line.line := line st |}]> (PlotDataset.series result);
        PlotDataset.reference_series := PlotDataset.reference_series result;
        PlotDataset.xMax := PlotDataset.xMax result;
        PlotDataset.yMax := yMax st;
        PlotDataset.xLabel := PlotDataset.xLabel result;
        PlotDataset.yLabel := PlotDataset.yLabel result |}.


Definition provideData (configuration : Configuration.t) (resolution : Z)
    : result PlotDataset.t :=
  let maximum := maximumInterestingFragmentLength configuration in
  reference ← deref (Configuration.fragment_length_reference configuration);
  let result :=
    {| PlotDataset.series := ∅;
       PlotDataset.reference_series :=
         Some {| ReferenceSeries.source := FragmentLengthReference.source reference;
                 ReferenceSeries.line := [] |};
       PlotDataset.xMax := Z.of_nat <$> maximum;
       PlotDataset.yMax := 0;
       PlotDataset.xLabel := "Fragment length (bp)";
       PlotDataset.yLabel := "Fraction of all reads" |} in
  result ← for_each (addSeries configuration resolution maximum) result
                    (experimentIDs configuration);
  st ← resample (FragmentLengthReference.distribution reference) resolution
                maximum (PlotDataset.yMax result);
  Ok {| PlotDataset.series := PlotDataset.series result;
        PlotDataset.reference_series :=
          Some {| ReferenceSeries.source := FragmentLengthReference.source reference;
                  ReferenceSeries.line := line st |};
        PlotDataset.xMax := PlotDataset.xMax result;
        PlotDataset.yMax := yMax st;
        PlotDataset.xLabel := PlotDataset.xLabel result;
        PlotDataset.yLabel := PlotDataset.yLabel result |}.

End plotFragmentLength.

(** *** [plots.plotMapq] *)

Module plotMapq.

(** The body of the loop over [experiment.mapq_counts], on [result.xMax],
    [result.yMax] and the line being filled.  ([total_reads] is positive in
    a metrics file; a quotient by zero, not finite in JavaScript, is [0]
    in [Q].) *)
Definition step (totalReads : Q) (st : Z * Q * list Line.Point) (mqc : Z * Q)
    : Z * Q * list Line.Point :=
  let '(xMax, yMax, line) := st in
  let xMax := if (xMax <? mqc.1)%Z then mqc.1 else xMax in
  let normed := (mqc.2 / totalReads)%Q in
  let yMax := if Js.gt normed yMax then normed else yMax in
  (xMax, yMax, line ++ [ {| Line.x := mqc.1; Line.y := normed |} ]).

(** The body of the loop over [experimentIDs]. *)
Definition addSeries (configuration : Configuration.t)
    (result : PlotDataset.t) (experimentID : string) : Js.result PlotDataset.t :=
  experiment ← deref (Configuration.metrics configuration !! experimentID);
  let '(xMax, yMax, line) :=
    foldl (step (Experiment.total_reads experiment))
          (default 0%Z (PlotDataset.xMax result), PlotDataset.yMax result, [])
          (Experiment.mapq_counts experiment) in
  Ok {| PlotDataset.series :=
          <[experimentID :=
              {| Line.experimentID := experimentID;
                 Line.library := Library.library (Experiment.library experiment);
                 Line.description := Library.description (Experiment.library experiment);
                 Line.sample := Experiment.sample experiment;
                 Line.line := line |}]> (PlotDataset.series result);
        PlotDataset.reference_series := PlotDataset.reference_series result;
        PlotDataset.xMax := Some xMax;
        PlotDataset.yMax := yMax;
        PlotDataset.xLabel := PlotDataset.xLabel result;
        PlotDataset.yLabel := PlotDataset.yLabel result |}.

Definition provideData (configuration : Configuration.t) : Js.result PlotDataset.t :=
  for_each (addSeries configuration)
    {| PlotDataset.series := ∅;
       PlotDataset.reference_series := None;
       PlotDataset.xMax := Some 0%Z;
       PlotDataset.yMax := 0;
       PlotDataset.xLabel := "Mapping quality";
       PlotDataset.yLabel := "Fraction of all reads" |}
    (experimentIDs configuration).

End plotMapq.

(** *** [plots.plotPeakReadCounts] and [plots.plotPeakTerritory]

    The two functions have the same text up to the array they read from
    [experiment.peak_percentiles], the name of the running value and the
    y-axis label; [PeakCurve] is that text, with the array and the label as
    parameters. *)

Module PeakCurve.

(** The variables the loop over the percentiles reads and writes: the
    running value ([cumulativeFractionOfHQAA], [cumulativeFractionOfTerritory]),
    [result.yMax] and the line being filled. *)
Record Loop := { cumulativeFraction : Q; yMax : Q; line : list Line.Point }.

(** The body of [for (let percentile = 0; percentile < 100; percentile++)]. *)
Definition step (percentiles : list Q) (st : Loop) (percentile : nat) : Loop :=
  let cumulativeFraction :=
    if decide (percentile < length percentiles)
    then nth percentile percentiles 0%Q
    else cumulativeFraction st in
  {| cumulativeFraction := cumulativeFraction;
     yMax := if Js.gt cumulativeFraction (yMax st) then cumulativeFraction else yMax st;
     line := line st ++ [ {| Line.x := Z.of_nat percentile + 1;
                             Line.y := cumulativeFraction |} ] |}.

Definition curve (percentiles : list Q) (yMax : Q) : Loop :=
  foldl (step percentiles)
        {| cumulativeFraction := 0; yMax := yMax; line := [] |}
        (seq 0 100).

(** [percentiles]: the array of the experiment, or [new Array(100).fill(0)]. *)
Definition percentiles (array : PeakPercentiles.t -> list Q) (experiment : Experiment.t)
    : list Q :=
  match Experiment.peak_percentiles experiment with
  | Some peak_percentiles => array peak_percentiles
  | None => replicate 100 0%Q
  end.

(** The body of the loop over [experimentIDs]. *)
Definition addSeries (array : PeakPercentiles.t -> list Q)
    (configuration : Configuration.t)
    (result : PlotDataset.t) (experimentID : string) : Js.result PlotDataset.t :=
  experiment ← deref (Configuration.metrics configuration !! experimentID);
  let st := curve (percentiles array experiment) (PlotDataset.yMax result) in
  Ok {| PlotDataset.series :=
          <[experimentID :=
              {| Line.experimentID := experimentID;
                 Line.library := Library.library (Experiment.library experiment);
                 Line.description := Library.description (Experiment.library experiment);
                 Line.sample := Experiment.sample experiment;
                 Line.line := line st |}]> (PlotDataset.series result);
        PlotDataset.reference_series := PlotDataset.reference_series result;
        PlotDataset.xMax := PlotDataset.xMax result;
        PlotDataset.yMax := yMax st;
        PlotDataset.xLabel := PlotDataset.xLabel result;
        PlotDataset.yLabel := PlotDataset.yLabel result |}.

Definition provideData (array : PeakPercentiles.t -> list Q) (yLabel : string)
    (configuration : Configuration.t) : Js.result PlotDataset.t :=
  for_each (addSeries array configuration)
    {| PlotDataset.series := ∅;
       PlotDataset.reference_series := None;
       PlotDataset.xMax := Some 100%Z;
       PlotDataset.yMax := 0;
       PlotDataset.xLabel := "Peak percentile";
       PlotDataset.yLabel := yLabel |}
    (experimentIDs configuration).

End PeakCurve.

Module plotPeakReadCounts.
Definition provideData : Configuration.t -> Js.result PlotDataset.t :=
  PeakCurve.provideData PeakPercentiles.cumulative_fraction_of_hqaa
    "Cumulative fraction of high-quality autosomal reads".
End plotPeakReadCounts.

Module plotPeakTerritory.
Definition provideData : Configuration.t -> Js.result PlotDataset.t :=
  PeakCurve.provideData PeakPercentiles.cumulative_fraction_of_territory
    "Cumulative fraction of peak territory".
End plotPeakTerritory.

(** ** Inputs used to exercise the statements below *)

Module Inputs.

(** An experiment with [fractions] as the fractions of its
    [fragment_length_counts]. *)
Definition experiment (name : string) (sample : option string) (distance : Q)
    (fractions : list Q) (peak_percentiles : option PeakPercentiles.t) : Experiment.t :=
  {| Experiment.name := name;
     Experiment.library :=
       {| Library.sample := sample;
          Library.library := None;
          Library.description := None |};
     Experiment.total_reads := 1000;
     Experiment.total_autosomal_reads := 900;
     Experiment.duplicate_autosomal_reads := 90;
     Experiment.short_mononucleosomal_ratio := 2;
     Experiment.fragment_length_distance := distance;
     Experiment.fragment_length_counts := imap (fun i f => (Z.of_nat i, f)) fractions;
     Experiment.mapq_counts := [(0%Z, 10%Q); (30%Z, 990%Q)];
     Experiment.peak_percentiles := peak_percentiles |}.

Definition reference (n : nat) : FragmentLengthReference.t :=
  {| FragmentLengthReference.source := Some "reference";
     FragmentLengthReference.distribution :=
       imap (fun i f => (Z.of_nat i, f)) (replicate n 1%Q) |}.

(** One experiment with fractions [2, 4, 6, 8] and a reference. *)
Definition block : Configuration.t :=
  {| Configuration.description := None;
     Configuration.metrics :=
       {[ "A" := experiment "A" (Some "s1") 10 [2; 4; 6; 8]%Q None ]};
     Configuration.fragment_length_reference := Some (reference 4) |}.

(** The same document without [fragment_length_reference]. *)
Definition no_reference : Configuration.t :=
  {| Configuration.description := None;
     Configuration.metrics := Configuration.metrics block;
     Configuration.fragment_length_reference := None |}.

(** Experiments with 150 and 120 histogram entries, and a reference of 200. *)
Definition truncation : Configuration.t :=
  {| Configuration.description := None;
     Configuration.metrics :=
       {[ "A" := experiment "A" (Some "s1") 10 (replicate 150 1%Q) None;
          "B" := experiment "B" None 20 (replicate 120 2%Q) None ]};
     Configuration.fragment_length_reference := Some (reference 200) |}.

(** 40 percentiles [1/40, 2/40, ..., 40/40] in both arrays. *)
Definition forty : PeakPercentiles.t :=
  {| PeakPercentiles.cumulative_fraction_of_hqaa :=
       (fun i => (Z.of_nat (S i) # 40)%Q) <$> seq 0 40;
     PeakPercentiles.cumulative_fraction_of_territory :=
       (fun i => (Z.of_nat (S i) # 40)%Q) <$> seq 0 40 |}.

(** One experiment with partial percentiles, one without any. *)
Definition peaks : Configuration.t :=
  {| Configuration.description := None;
     Configuration.metrics :=
       {[ "A" := experiment "A" (Some "s1") 10 [1]%Q (Some forty);
          "B" := experiment "B" (Some "s1") 20 [1]%Q None ]};
     Configuration.fragment_length_reference := Some (reference 1) |}.

(** Three experiments of one sample at distances 10, 20 and 30, and one
    of another sample. *)
Definition replicates : Configuration.t :=
  {| Configuration.description := None;
     Configuration.metrics :=
       {[ "A" := experiment "A" (Some "s1") 10 [1]%Q None;
          "B" := experiment "B" (Some "s1") 20 [1]%Q None;
          "C" := experiment "C" (Some "s1") 30 [1]%Q None;
          "D" := experiment "D" None (-40) [1]%Q None ]};
     Configuration.fragment_length_reference := Some (reference 1) |}.

(** Libraries at distances -30, 10 and 20. *)
Definition signed : list Scatter.Library :=
  (fun d => {| Scatter.experimentID := "E"; Scatter.library := "L";
               Scatter.sample := "s1"; Scatter.description := None;
               Scatter.x := d; Scatter.y := None |}) <$> [-30; 10; 20]%Q.

Definition selection : list (string * bool) :=
  [("s1", true); ("s2", false); ("s3", true)].

End Inputs.

(** ** Vocabulary of the statements *)

(** The samples derivable from a document. *)
Definition derivable (configuration : Configuration.t) (S : string) : Prop :=
  exists experimentID experiment,
    Configuration.metrics configuration !! experimentID = Some experiment /\
    Experiment.sample experiment = S.

(** The value of a cumulative curve at percentile index [p] (from 0): the
    entry of the array at [p], and past the end of the array its last entry
    (0 for an empty array). *)
Definition carried (percentiles : list Q) (p : nat) : Q :=
  nth (Nat.min p (length percentiles - 1)) percentiles 0%Q.

(** The 100 points of a cumulative curve. *)
Definition curve_points (percentiles : list Q) : list Line.Point :=
  (fun p => {| Line.x := Z.of_nat p + 1; Line.y := carried percentiles p |})
    <$> seq 0 100.

(** The series a peak plot stores for an experiment. *)
Definition peak_series (array : PeakPercentiles.t -> list Q)
    (experimentID : string) (experiment : Experiment.t) : Line.Series :=
  {| Line.experimentID := experimentID;
     Line.library := Library.library (Experiment.library experiment);
     Line.description := Library.description (Experiment.library experiment);
     Line.sample := Experiment.sample experiment;
     Line.line := curve_points (PeakCurve.percentiles array experiment) |}.

(** What the loops over the experiments leave alone in a result. *)
Definition same_frame (r r' : PlotDataset.t) : Prop :=
  PlotDataset.reference_series r' = PlotDataset.reference_series r
  /\ PlotDataset.xMax r' = PlotDataset.xMax r
  /\ PlotDataset.xLabel r' = PlotDataset.xLabel r
  /\ PlotDataset.yLabel r' = PlotDataset.yLabel r.

(** The indices below [n] at which the resampling loop pushes a point. *)
Definition grid (resolution : Z) (n : nat) : list nat :=
  filter (fun fl => Is_true (divides resolution fl)) (seq 0 n).

(** The line the resampling loop leaves after [n] iterations (it does not
    depend on the [yMax] the loop starts from). *)
Definition resampled (counts : list (Z * Q)) (resolution : Z) (n : nat)
    : list Line.Point :=
  match plotFragmentLength.resample counts resolution (Some n) 0 with
  | Ok st => plotFragmentLength.line st
  | Throw _ => []
  end.

(** The series the fragment length plot stores for an experiment. *)
Definition fragment_length_series (resolution : Z) (maximum : option nat)
    (experimentID : string) (experiment : Experiment.t) : Line.Series :=
  {| Line.experimentID := experimentID;
     Line.library :=
       Some (or_else (Library.library (Experiment.library experiment))
                     (Experiment.name experiment));
     Line.description := Library.description (Experiment.library experiment);
     Line.sample := Experiment.sample experiment;
     Line.line := resampled (Experiment.fragment_length_counts experiment)
                            resolution (default 0 maximum) |}.

(** [m] is the least length of a [fragment_length_counts] of the document. *)
Definition least_histogram_length (configuration : Configuration.t) (m : nat) : Prop :=
  (exists experimentID experiment,
     Configuration.metrics configuration !! experimentID = Some experiment
     /\ length (Experiment.fragment_length_counts experiment) = m)
  /\ map_Forall (fun _ experiment =>
                   m <= length (Experiment.fragment_length_counts experiment))
                (Configuration.metrics configuration).

(** The series the mapping quality plot stores for an experiment. *)
Definition mapq_series (experimentID : string) (experiment : Experiment.t) : Line.Series :=
  {| Line.experimentID := experimentID;
     Line.library := Library.library (Experiment.library experiment);
     Line.description := Library.description (Experiment.library experiment);
     Line.sample := Experiment.sample experiment;
     Line.line :=
       (fun mqc : Z * Q =>
          {| Line.x := mqc.1;
             Line.y := (mqc.2 / Experiment.total_reads experiment)%Q |})
         <$> Experiment.mapq_counts experiment |}.

(** The object the scatter plot makes of an experiment. *)
Definition scatter_library (yAxisSource : string)
    (experimentID : string) (experiment : Experiment.t) : Scatter.Library :=
  {| Scatter.experimentID := experimentID;
     Scatter.library := or_else (Library.library (Experiment.library experiment))
                                (Experiment.name experiment);
     Scatter.sample := Experiment.sample experiment;
     Scatter.description := Library.description (Experiment.library experiment);
     Scatter.x := Experiment.fragment_length_distance experiment;
     Scatter.y := Scatter.getYValue yAxisSource experiment |}.

(** The libraries of [data] that belong to sample [S], in the order of
    [data]. *)
Definition libraries_of (S : string) (data : list Scatter.Library) : list Scatter.Library :=
  filter (fun library => Scatter.sample library = S) data.

(** A line by its points, the y values in lowest terms. *)
Definition points (line : list Line.Point) : list (Z * Q) :=
  (fun p => (Line.x p, Qred (Line.y p))) <$> line.

(** The sum of a list of numbers. *)
Definition Qsum (l : list Q) : Q := foldr Qplus 0%Q l.

(** The arithmetic mean of a non-empty list of numbers. *)
Definition arithmetic_mean (l : list Q) : Q :=
  (Qsum l / inject_Z (Z.of_nat (length l)))%Q.

(** The population variance of a non-empty list of numbers: the sum of the
    squared deviations from the mean, divided by the number of values. *)
Definition population_variance (l : list Q) : Q :=
  (Qsum ((fun v => (v - arithmetic_mean l) * (v - arithmetic_mean l)) <$> l)
   / inject_Z (Z.of_nat (length l)))%Q.

(** What the loop keeps true of [data] and [samples]: the entry of a sample
    holds the libraries of [data] that belong to it, and a sample without
    library in [data] has no entry. *)
Definition grouped (data : list Scatter.Library)
    (samples : list (string * list Scatter.Library)) : Prop :=
  NoDup (JsMap.keys samples)
  /\ forall S,
       JsMap.get S samples
       = match libraries_of S data with
         | [] => None
         | libraries => Some libraries
         end.

(** [lo] is a least and [hi] a greatest value of a list of numbers. *)
Definition extremes (values : list Q) (lo hi : Q) : Prop :=
  (lo ∈ values /\ Forall (fun v => (lo <= v)%Q) values)
  /\ (hi ∈ values /\ Forall (fun v => (v <= hi)%Q) values).

(** The fractions ([|| 0] applied) at the positions [a], ..., [b - 1]. *)
Definition fractions (counts : list (Z * Q)) (a b : nat) : list Q :=
  (fun entry : Z * Q => or_zero entry.2) <$> take (b - a) (drop a counts).

(** The first position not yet covered by a point, given the positions of
    the points pushed so far. *)
Definition pending (start : nat) (pushed : list nat) : nat :=
  match last pushed with
  | Some fl => S fl
  | None => start
  end.

(** The points at the positions [positions] when each point holds the sum
    of the fractions after the previous point, up to and including its own
    position, divided by the resolution; [start] is the first position
    that counts for the first point. *)
Fixpoint trailing (counts : list (Z * Q)) (resolution : Z) (start : nat)
    (positions : list nat) : list Line.Point :=
  match positions with
  | [] => []
  | fl :: positions' =>
      {| Line.x := Z.of_nat fl;
         Line.y := (foldl Qplus 0 (fractions counts start (S fl))
                    / inject_Z resolution)%Q |}
        :: trailing counts resolution (S fl) positions'
  end.

(** [result.yMax] is not negative and no point of a series lies above it. *)
Definition covered (result : PlotDataset.t) : Prop :=
  (0 <= PlotDataset.yMax result)%Q
  /\ forall experimentID series,
       PlotDataset.series result !! experimentID = Some series ->
       Forall (fun p => (Line.y p <= PlotDataset.yMax result)%Q) (Line.line series).


(** ** The remaining helpers of the page *)

(** *** [closest] and the click on a legend item *)

Module Dom.

(** What the code reads of a DOM node: its [classList] and
    [dataset.sample] ([None]: no [dataset], or no [data-sample]). *)
Record Node := {
  classList : list string;
  dataset_sample : option string
}.

(** [node.classList.contains(className)] *)
Definition contains (node : Node) (className : string) : bool :=
  bool_decide (className ∈ classList node).

(** The [while (parentNode.parentNode)] loop of [closest].  [chain] is
    [parentNode] followed by its ancestors, up to the node that has no
    parent; the loop ends on that node, without looking at it. *)
Fixpoint closest_loop (chain : list Node) (className : string) (result : option Node)
    : option Node :=
  match chain with
  | parentNode :: ((_ :: _) as rest) =>
      closest_loop rest className
        (if contains parentNode className then Some parentNode else result)
  | _ => result
  end.

(** [closest(startNode, className)]; [ancestors] are the ancestors of
    [startNode], its parent first.  A node without parent has
    [parentNode === null], and [null.parentNode] throws. *)
Definition closest (ancestors : list Node) (className : string) : result (option Node) :=
  match ancestors with
  | [] => Throw TypeError
  | _ => Ok (closest_loop ancestors className None)
  end.

End Dom.


(** *** [debounce] *)

Module Debounce.
Section Debounce.
Context {A : Type}.

(** The variables of the closure: [timeout], the pending timer if any,
    here the arguments its callback will pass on; and [last], the time of
    the last call that set a timer. *)
Record State := {
  timeout : option A;
  last : option Z
}.

(** [debounce(func, wait)] before any call. *)
Definition initial : State := {| timeout := None; last := None |}.

(** A call of the debounced function at time [now] ([Date.now()]) with
    arguments [args].  [now - null] is [now]. *)
Definition call (wait : Z) (now : Z) (args : A) (st : State) : State :=
  let elapsed := (now - default 0 (last st))%Z in
  if negb (bool_decide (is_Some (timeout st))) || (wait <? elapsed)%Z
  then {| timeout := Some args; last := Some now |}
  else st.

(** The pending timer fires: [deferred] asks for one animation frame that
    applies [func] to the captured arguments, and forgets the timer.  The
    second component lists the applications of [func] asked for. *)
Definition fire (st : State) : State * list A :=
  match timeout st with
  | Some args => ({| timeout := None; last := last st |}, [args])
  | None => (st, [])
  end.

(** What happens to the closure: a call, or the pending timer firing. *)
Inductive event :=
| Call (now : Z) (args : A)
| Fire.

Definition step (wait : Z) (st : State * list A) (e : event) : State * list A :=
  match e with
  | Call now args => (call wait now args st.1, st.2)
  | Fire => let '(st', applied) := fire st.1 in (st', st.2 ++ applied)
  end.

(** The closure after a sequence of events, with the applications of
    [func] asked for so far, oldest first. *)
Definition run (wait : Z) (events : list event) (st : State) : State * list A :=
  foldl (step wait) (st, []) events.

End Debounce.
Arguments State : clear implicits.
Arguments event : clear implicits.
End Debounce.

(** *** [wrapY] *)

Module wrapY.
Section wrapY.

(** [tooWide line]: the text [line.join(' ')] set on a [tspan] has a
    computed length above [width]. *)
Context (tooWide : list string -> bool).

(** The [tspan]s filled so far and the words of the current one: the
    variable [line]. *)
Definition State : Type := list (list string) * list string.

(** The body of the [while ((word = words.pop()))] loop. *)
Definition step (st : State) (word : string) : State :=
  let '(tspans, line) := st in
  if tooWide (line ++ [word])
  then (tspans ++ [line], [word])
  else (tspans, line ++ [word]).

(** The words the loop sees: [words] is [text.text().split(/\s+/)], read in
    order (it is reversed, then popped), and the loop ends at the first
    empty word, which is falsy. *)
Fixpoint seen (words : list string) : list string :=
  match words with
  | [] => []
  | word :: words' => if decide (word = "") then [] else word :: seen words'
  end.

(** The texts of the [tspan]s of one label, each as its list of words;
    [tspan] number [k] is placed at [dy = k * 1.1 + dy]. *)
Definition wrap (words : list string) : list (list string) :=
  let '(tspans, line) := foldl step ([], []) (seen words) in
  tspans ++ [line].

End wrapY.
End wrapY.

(** *** [hrefToID] *)

(** [s.lastIndexOf(c) != -1] *)
Fixpoint occurs (c : ascii) (s : string) : bool :=
  match s with
  | EmptyString => false
  | String c' s' => bool_decide (c' = c) || occurs c s'
  end.

(** [s.split(c)] for a separator of one character. *)
Fixpoint split (c : ascii) (s : string) : list string :=
  match s with
  | EmptyString => [""]
  | String c' s' =>
      if decide (c' = c) then "" :: split c s'
      else match split c s' with
           | [] => [String c' ""]
           | part :: parts => String c' part :: parts
           end
  end.

(** [hrefToID(href)]; [None] as argument is a [href] that is not a string,
    [None] as result is [null]. *)
Definition hrefToID (href : option string) : option string :=
  match href with
  | Some href => if occurs "#"%char href then split "#"%char href !! 1 else None
  | None => None
  end.

(** The arguments of the calls among [events], oldest first. *)
Definition called {A : Type} (events : list (Debounce.event A)) : list A :=
  omap (fun e => match e with Debounce.Call _ args => Some args | Debounce.Fire => None end)
    events.

(** Two [tspan]s that follow each other: the second starts with a word
    that did not fit at the end of the first. *)
Definition break_needed (tooWide : list string -> bool) (line next : list string) : Prop :=
  exists word rest, next = word :: rest /\ tooWide (line ++ [word]) = true.

(** A [tspan] of two words or more is within the width. *)
Definition fits (tooWide : list string -> bool) (line : list string) : Prop :=
  2 <= length line -> tooWide line = false.

(** Every line break of [tspans] was needed. *)
Definition breaks_needed (tooWide : list string -> bool) (tspans : list (list string)) : Prop :=
  forall k line next,
    tspans !! k = Some line -> tspans !! Datatypes.S k = Some next ->
    break_needed tooWide line next.

(** ** What the plots draw *)

(** [!legendItemState.get(sample)]: a sample without entry counts as one
    whose entry is [false]. *)
Definition notSelected (legendItemState : list (string * bool)) (sample : string) : bool :=
  match JsMap.get sample legendItemState with
  | Some true => false
  | _ => true
  end.

(** *** The legend, built by the same loop in the scatter plot and in the
    line plots *)

Module Legend.

(** A [li.legendItem]: its [dataset.sample], whether it got
    [flexBasis = '100%'], and whether it got the class [targetHidden]. *)
Record Item := {
  sample : string;
  fullWidth : bool;
  targetHidden : bool
}.

(** The loop over [[...samples.keys()].sort()]. *)
Definition items {V} (samples : list (string * V)) (legendItemState : list (string * bool))
    : list Item :=
  (fun sampleID =>
     {| sample := sampleID;
        fullWidth := length samples <? 7;
        targetHidden := notSelected legendItemState sampleID |})
    <$> Js.sort (JsMap.keys samples).

End Legend.

(** *** The function [makeLinePlot] returns *)

Module LinePlot.

(** A [path.line.plotItem]: whether it got the class [hidden], its
    [data-sample] and [data-experiment], and the line bound to it. *)
Record Path := {
  hidden : bool;
  data_sample : string;
  data_experiment : string;
  d : list Line.Point
}.

(** What a line plot puts in its container: the domains of the axes
    ([0] to [data.xMax], [0] to [data.yMax]) and their labels, the paths of
    the experiments, the reference path if any (with whether it is hidden)
    and the legend. *)
Record Drawing := {
  xMax : option Z;
  yMax : Q;
  xLabel : string;
  yLabel : string;
  paths : list Path;
  reference : option (bool * list Line.Point);
  legend : list Legend.Item
}.

(** The body of the first loop over [experimentIDs]: [datum] is pushed on
    the [libraries] of its sample, whose entry in [samples] is created on
    first use. *)
Definition addDatum (data : PlotDataset.t) (samples : list (string * list Line.Series))
    (experimentID : string) : result (list (string * list Line.Series)) :=
  datum ← deref (PlotDataset.series data !! experimentID);
  match JsMap.get (Line.sample datum) samples with
  | Some libraries => Ok (JsMap.set (Line.sample datum) (libraries ++ [datum]) samples)
  | None => Ok (JsMap.set (Line.sample datum) [datum] samples)
  end.

(** The path appended for [datum]. *)
Definition path (legendItemState : list (string * bool)) (datum : Line.Series) : Path :=
  {| hidden := notSelected legendItemState (Line.sample datum);
     data_sample := Line.sample datum;
     data_experiment := Line.experimentID datum;
     d := Line.line datum |}.

(** The body of the second loop over [experimentIDs]. *)
Definition addPath (data : PlotDataset.t) (legendItemState : list (string * bool))
    (paths : list Path) (experimentID : string) : result (list Path) :=
  datum ← deref (PlotDataset.series data !! experimentID);
  Ok (paths ++ [path legendItemState datum]).

(** The closure [makeLinePlot(containerID, provideData, extraHelp)]
    returns.  [provideData] is the outcome of [provideData(containerID)];
    [referenceToggle] is the state of the [.referenceToggle] checkbox of the
    container, [None] without one.  The elements the closure looks up in
    its container are taken to be there. *)
Definition draw (provideData : result PlotDataset.t) (configuration : Configuration.t)
    (legendItemState : list (string * bool)) (referenceToggle : option bool)
    : result Drawing :=
  data ← provideData;
  samples ← for_each (addDatum data) JsMap.empty (experimentIDs configuration);
  paths ← for_each (addPath data legendItemState) [] (experimentIDs configuration);
  let showReference := default true referenceToggle in
  Ok {| xMax := PlotDataset.xMax data;
        yMax := PlotDataset.yMax data;
        xLabel := PlotDataset.xLabel data;
        yLabel := PlotDataset.yLabel data;
        paths := paths;
        reference :=
          (fun reference_series =>
             (negb showReference, ReferenceSeries.line reference_series))
            <$> PlotDataset.reference_series data;
        legend := Legend.items samples legendItemState |}.

End LinePlot.

(** *** The function [makeFragmentLengthDistancePlot] returns *)

Module ScatterPlot.

(** A [circle.dot.plotItem]: whether it got the class [hidden], its
    [data-sample] and [data-experiment], and the library bound to it. *)
Record Dot := {
  hidden : bool;
  data_sample : string;
  data_experiment : string;
  datum : Scatter.Library
}.

Record Drawing := {
  xDomain : option Q * option Q;
  dots : list Dot;
  legend : list Legend.Item
}.

Definition dot (legendItemState : list (string * bool)) (d : Scatter.Library) : Dot :=
  {| hidden := notSelected legendItemState (Scatter.sample d);
     data_sample := Scatter.sample d;
     data_experiment := Scatter.experimentID d;
     datum := d |}.

(** [yAxisSource] is the value of the y-axis select box, taken to be
    there. *)
Definition draw (configuration : Configuration.t) (yAxisSource : string)
    (legendItemState : list (string * bool)) : result Drawing :=
  collected ← Scatter.collect configuration yAxisSource;
  Ok {| xDomain := Scatter.xDomain collected.1;
        dots := dot legendItemState <$> collected.1;
        legend := Legend.items collected.2 legendItemState |}.

End ScatterPlot.

(** *** [populatePlots] *)

(** The content of a [.plotContainer]. *)
Inductive Content :=
| Dots (drawing : ScatterPlot.Drawing)
| Lines (drawing : LinePlot.Drawing).

(** The plot containers of the page by ID, with what is drawn in them; a
    container that is empty has no entry. *)
Abbreviation Page := (gmap string Content).

(** The controls of the page the plots read. *)
Record Controls := {
  yAxisSource : string;
  resolution : Z;
  referenceToggle : string -> option bool
}.

(** A call of one of the [plots]: the closure empties its container
    before anything else, and fills it once the data is there; when it
    throws, it has drawn nothing yet. *)
Definition plot (containerID : string) (drawing : result Content) (page : Page)
    : Page * result unit :=
  match drawing with
  | Ok content => (<[containerID := content]> page, Ok tt)
  | Throw e => (delete containerID page, Throw e)
  end.

(** Statements in sequence: the first exception ends the function, and
    leaves the page as it is then. *)
Fixpoint statements (calls : list (Page -> Page * result unit)) (page : Page)
    : Page * result unit :=
  match calls with
  | [] => (page, Ok tt)
  | call :: calls' =>
      match call page with
      | (page', Ok _) => statements calls' page'
      | (page', Throw e) => (page', Throw e)
      end
  end.

(** The closure of [makeLinePlot(containerID, provideData, extraHelp)] as a
    call on the page. *)
Definition linePlot (containerID : string) (provideData : result PlotDataset.t)
    (configuration : Configuration.t) (controls : Controls)
    (legendItemState : list (string * bool)) : Page -> Page * result unit :=
  plot containerID
    (drawing ← LinePlot.draw provideData configuration legendItemState
                 (referenceToggle controls containerID);
     Ok (Lines drawing)).

Module plots.
Section plots.
Context (configuration : Configuration.t) (controls : Controls)
  (legendItemState : list (string * bool)).

Definition plotFragmentLengthDistance : Page -> Page * result unit :=
  plot "fragmentLengthDistancePlot"
    (drawing ← ScatterPlot.draw configuration (yAxisSource controls) legendItemState;
     Ok (Dots drawing)).

Definition plotFragmentLength : Page -> Page * result unit :=
  linePlot "fragmentLengthPlot"
    (plotFragmentLength.provideData configuration (resolution controls))
    configuration controls legendItemState.

Definition plotMapq : Page -> Page * result unit :=
  linePlot "mapqPlot" (plotMapq.provideData configuration)
    configuration controls legendItemState.

Definition plotPeakReadCounts : Page -> Page * result unit :=
  linePlot "peakReadCountsPlot" (plotPeakReadCounts.provideData configuration)
    configuration controls legendItemState.

Definition plotPeakTerritory : Page -> Page * result unit :=
  linePlot "peakTerritoryPlot" (plotPeakTerritory.provideData configuration)
    configuration controls legendItemState.

End plots.
End plots.

Definition populatePlots (configuration : Configuration.t) (controls : Controls)
    (legendItemState : list (string * bool)) : Page -> Page * result unit :=
  statements
    [ plots.plotFragmentLengthDistance configuration controls legendItemState;
      plots.plotFragmentLength configuration controls legendItemState;
      plots.plotMapq configuration controls legendItemState;
      plots.plotPeakReadCounts configuration controls legendItemState;
      plots.plotPeakTerritory configuration controls legendItemState ].

(** The four data providers given to [makeLinePlot]. *)
Definition providers (configuration : Configuration.t) (resolution : Z)
    : list (result PlotDataset.t) :=
  [ plotFragmentLength.provideData configuration resolution;
    plotMapq.provideData configuration;
    plotPeakReadCounts.provideData configuration;
    plotPeakTerritory.provideData configuration ].

(** The samples of the experiments [ids], in the order of [ids]. *)
Definition samples_along (configuration : Configuration.t) (ids : list string) : list string :=
  omap (fun i => Experiment.sample <$> Configuration.metrics configuration !! i) ids.

(** The elements of a list in the order of their first occurrence, after
    those of [seen]. *)
Definition first_seen (seen : list string) (l : list string) : list string :=
  foldl (fun seen s => if decide (s ∈ seen) then seen else seen ++ [s]) seen l.

(** * Facts *)

(** ** [Map] *)

Section JsMapFacts.
Context {K V : Type} `{EqDecision K}.
Implicit Types (k : K) (v : V) (m : list (K * V)).

Lemma get_set_eq k v m : JsMap.get k (JsMap.set k v m) = Some v.
Proof.
  induction m as [|[k' v'] m IH]; simpl.
  - by rewrite decide_True.
  - destruct (decide (k = k')) as [->|Hne]; simpl.
    + by rewrite decide_True.
    + by rewrite decide_False.
Qed.

Lemma get_set_ne k k' v m : k <> k' -> JsMap.get k' (JsMap.set k v m) = JsMap.get k' m.
Proof.
  intros Hne. induction m as [|[k0 v0] m IH]; simpl.
  - rewrite decide_False; [done | congruence].
  - destruct (decide (k = k0)) as [->|Hk]; simpl.
    + rewrite !decide_False; [done | congruence | congruence].
    + by rewrite IH.
Qed.

Lemma get_Some_keys k v m : JsMap.get k m = Some v -> k ∈ JsMap.keys m.
Proof.
  induction m as [|[k' v'] m IH]; simpl; [done|].
  destruct (decide (k = k')) as [->|Hne]; intros Hg.
  - apply list_elem_of_here.
  - apply list_elem_of_further. by apply IH.
Qed.

Lemma keys_get k m : k ∈ JsMap.keys m -> is_Some (JsMap.get k m).
Proof.
  induction m as [|[k' v'] m IH]; simpl.
  - intros Hin. by apply not_elem_of_nil in Hin.
  - intros Hin. destruct (decide (k = k')) as [->|Hne]; [by eexists|].
    apply IH. apply elem_of_cons in Hin as [?|?]; [done|done].
Qed.

Lemma keys_set_in k v m : k ∈ JsMap.keys m -> JsMap.keys (JsMap.set k v m) = JsMap.keys m.
Proof.
  induction m as [|[k' v'] m IH]; simpl.
  - intros Hin. by apply not_elem_of_nil in Hin.
  - intros Hin. destruct (decide (k = k')) as [->|Hne]; simpl; [done|].
    f_equal. apply IH. apply elem_of_cons in Hin as [?|?]; [done|done].
Qed.

Lemma keys_set_notin k v m :
  k ∉ JsMap.keys m -> JsMap.keys (JsMap.set k v m) = JsMap.keys m ++ [k].
Proof.
  induction m as [|[k' v'] m IH]; simpl; [done|].
  intros Hnin. apply not_elem_of_cons in Hnin as [Hne Hnin].
  rewrite decide_False; [|done]. simpl. f_equal. by apply IH.
Qed.

Lemma elem_of_keys_set k k' v m :
  k' ∈ JsMap.keys (JsMap.set k v m) <-> k' = k \/ k' ∈ JsMap.keys m.
Proof.
  destruct (decide (k ∈ JsMap.keys m)) as [Hin|Hnin].
  - rewrite keys_set_in; [|done]. split; [by right|].
    intros [->|?]; done.
  - rewrite keys_set_notin; [|done].
    rewrite elem_of_app, list_elem_of_singleton. tauto.
Qed.

Lemma NoDup_keys_set k v m : NoDup (JsMap.keys m) -> NoDup (JsMap.keys (JsMap.set k v m)).
Proof.
  intros Hnd. destruct (decide (k ∈ JsMap.keys m)) as [Hin|Hnin].
  - by rewrite keys_set_in.
  - rewrite keys_set_notin; [|done]. apply NoDup_app. split; [done|].
    split; [|apply NoDup_singleton].
    intros x Hx Hx'. apply list_elem_of_singleton in Hx'. by subst.
Qed.

Lemma entries_for_keys k m :
  JsMap.entries_for k m = length (filter (fun k' => k' = k) (JsMap.keys m)).
Proof.
  unfold JsMap.entries_for, JsMap.keys. induction m as [|[k' v'] m IH]; [done|].
  rewrite fmap_cons, !filter_cons. simpl.
  destruct (decide (k' = k)); simpl; by rewrite IH.
Qed.

Lemma entries_for_NoDup k m :
  NoDup (JsMap.keys m) -> k ∈ JsMap.keys m -> JsMap.entries_for k m = 1.
Proof.
  rewrite entries_for_keys. generalize (JsMap.keys m). clear m.
  intros l Hnd. induction Hnd as [|x l Hx Hnd IH]; intros Hin.
  - by apply not_elem_of_nil in Hin.
  - rewrite filter_cons. destruct (decide (x = k)) as [->|Hne].
    + simpl. f_equal.
      assert (filter (fun k' => k' = k) l = []) as ->; [|done].
      clear -Hx. induction l as [|y l IHl]; [done|].
      apply not_elem_of_cons in Hx as [Hne Hx].
      rewrite filter_cons_False; [by apply IHl | congruence].
    + apply IH. apply elem_of_cons in Hin as [?|?]; [congruence|done].
Qed.

(** Overwriting an entry with the value it holds changes nothing. *)
Lemma set_get_id k v m : JsMap.get k m = Some v -> JsMap.set k v m = m.
Proof.
  induction m as [|[k' v'] m IH]; simpl; [done|].
  destruct (decide (k = k')) as [->|Hne]; intros Hg.
  - congruence.
  - f_equal. by apply IH.
Qed.

Lemma set_set k v v' m : JsMap.set k v (JsMap.set k v' m) = JsMap.set k v m.
Proof.
  induction m as [|[k' w] m IH]; simpl.
  - by rewrite decide_True.
  - destruct (decide (k = k')) as [->|Hne]; simpl.
    + by rewrite decide_True.
    + rewrite decide_False; [|done]. by rewrite IH.
Qed.

(** A loop that sets every key of [l] to [v]. *)
Lemma set_each_get_other v (l : list K) m k :
  k ∉ l -> JsMap.get k (foldl (fun st s => JsMap.set s v st) m l) = JsMap.get k m.
Proof.
  revert m. induction l as [|s l IH]; intros m Hnin; [done|].
  apply not_elem_of_cons in Hnin as [Hne Hnin]. simpl.
  rewrite IH; [|done]. apply get_set_ne. congruence.
Qed.

Lemma set_each_get v (l : list K) m k :
  k ∈ l -> JsMap.get k (foldl (fun st s => JsMap.set s v st) m l) = Some v.
Proof.
  revert m. induction l as [|s l IH]; intros m Hin.
  - by apply not_elem_of_nil in Hin.
  - simpl. destruct (decide (k ∈ l)) as [Hl|Hl]; [by apply IH|].
    apply elem_of_cons in Hin as [->|?]; [|done].
    rewrite set_each_get_other; [|done]. apply get_set_eq.
Qed.

Lemma set_each_keys v (l : list K) m :
  (forall k, k ∈ l -> k ∈ JsMap.keys m) ->
  JsMap.keys (foldl (fun st s => JsMap.set s v st) m l) = JsMap.keys m.
Proof.
  revert m. induction l as [|s l IH]; intros m Hsub; [done|].
  simpl. rewrite IH.
  - apply keys_set_in, Hsub, list_elem_of_here.
  - intros k Hk. apply elem_of_keys_set. right. apply Hsub.
    by apply list_elem_of_further.
Qed.

End JsMapFacts.

(** ** Legend selection state *)

Section Selection.
Implicit Types (st : list (string * bool)) (S : string).

Lemma initialize_over_set_each (entries : list (string * Experiment.t)) st :
  initialize_over entries st =
  foldl (fun st sample => JsMap.set sample true st) st
        ((fun entry : string * Experiment.t => Experiment.sample entry.2) <$> entries).
Proof.
  unfold initialize_over. revert st.
  induction entries as [|entry entries IH]; intros st; [done|].
  simpl. apply IH.
Qed.

Lemma initialize_set_each configuration st :
  initialize configuration st =
  foldl (fun st sample => JsMap.set sample true st) st
        ((fun entry : string * Experiment.t => Experiment.sample entry.2)
           <$> map_to_list (Configuration.metrics configuration)).
Proof. apply initialize_over_set_each. Qed.

Lemma set_each_NoDup (v : bool) (l : list string) st :
  NoDup (JsMap.keys st) ->
  NoDup (JsMap.keys (foldl (fun st s => JsMap.set s v st) st l)).
Proof.
  revert st. induction l as [|s l IH]; intros st Hnd; [done|].
  simpl. by apply IH, NoDup_keys_set.
Qed.

Lemma set_each_elem_of_keys (v : bool) (l : list string) st S :
  S ∈ JsMap.keys (foldl (fun st s => JsMap.set s v st) st l) <->
  S ∈ JsMap.keys st \/ S ∈ l.
Proof.
  revert st. induction l as [|s l IH]; intros st; simpl.
  - split; [by left|]. intros [?|Hin]; [done|]. by apply not_elem_of_nil in Hin.
  - rewrite IH, elem_of_keys_set, elem_of_cons. tauto.
Qed.

Lemma derivable_elem_of configuration S :
  derivable configuration S <->
  S ∈ (fun entry : string * Experiment.t => Experiment.sample entry.2)
        <$> map_to_list (Configuration.metrics configuration).
Proof.
  rewrite list_elem_of_fmap. split.
  - intros (i & e & Hl & <-). exists (i, e). split; [done|].
    by apply elem_of_map_to_list.
  - intros ([i e] & -> & Hin). exists i, e. split; [|done].
    by apply elem_of_map_to_list.
Qed.

(** After [initialize], the keys of [legendItemState] are the derivable
    samples and nothing else. *)
Lemma initialize_keys configuration S :
  S ∈ JsMap.keys (initialize configuration legendItemState) <->
  derivable configuration S.
Proof.
  rewrite initialize_set_each, set_each_elem_of_keys, derivable_elem_of.
  split; [|by right]. intros [Hin|?]; [|done]. by apply not_elem_of_nil in Hin.
Qed.

(** Whatever the order in which the experiments are visited, the loop of
    [initialize] leaves one entry, [true], for every derivable sample, and
    no other entry. *)
Lemma initialize_any_order configuration (entries : list (string * Experiment.t)) S :
  entries ≡ₚ map_to_list (Configuration.metrics configuration) ->
  (S ∈ JsMap.keys (initialize_over entries legendItemState)
   <-> derivable configuration S)
  /\ (derivable configuration S ->
      JsMap.entries_for S (initialize_over entries legendItemState) = 1
      /\ JsMap.get S (initialize_over entries legendItemState) = Some true).
Proof.
  intros Hperm. rewrite initialize_over_set_each, derivable_elem_of, <- Hperm.
  assert (S ∈ JsMap.keys
            (foldl (fun st sample => JsMap.set sample true st) legendItemState
               ((fun entry : string * Experiment.t => Experiment.sample entry.2)
                  <$> entries))
          <-> S ∈ (fun entry : string * Experiment.t => Experiment.sample entry.2)
                    <$> entries) as Hkeys.
  { rewrite set_each_elem_of_keys. split; [|by right].
    intros [Hin|?]; [|done]. by apply not_elem_of_nil in Hin. }
  split; [exact Hkeys|]. intros HS. split.
  - apply entries_for_NoDup; [|by apply Hkeys].
    apply set_each_NoDup. constructor.
  - by apply set_each_get.
Qed.

Lemma selectLegendItem_Some S st :
  S <> "" ->
  selectLegendItem (Some S) st =
  match JsMap.get S st with
  | Some true => JsMap.set S false st
  | _ => JsMap.set S true st
  end.
Proof. intros Hne. unfold selectLegendItem. simpl. by rewrite decide_False. Qed.

(** A click that resolves to no sample leaves the state alone. *)
Lemma selectLegendItem_no_sample st :
  selectLegendItem None st = st /\ selectLegendItem (Some "") st = st.
Proof. done. Qed.

(** A click on a sample that has no entry yet creates one, shown. *)
Lemma selectLegendItem_unknown S st :
  S <> "" -> S ∉ JsMap.keys st ->
  JsMap.get S (selectLegendItem (Some S) st) = Some true.
Proof.
  intros Hne Hnin. rewrite selectLegendItem_Some; [|done].
  destruct (JsMap.get S st) as [[]|] eqn:Hg; try apply get_set_eq.
  by apply get_Some_keys in Hg.
Qed.

Lemma deselectAllLegendItems_keys st :
  JsMap.keys (deselectAllLegendItems st) = JsMap.keys st.
Proof. unfold deselectAllLegendItems. by apply set_each_keys. Qed.

Lemma selectAllLegendItems_keys st :
  JsMap.keys (selectAllLegendItems st) = JsMap.keys st.
Proof. unfold selectAllLegendItems. by apply set_each_keys. Qed.

Lemma deselectAllLegendItems_get st S :
  S ∈ JsMap.keys st -> JsMap.get S (deselectAllLegendItems st) = Some false.
Proof. intros Hin. unfold deselectAllLegendItems. by apply set_each_get. Qed.

Lemma selectAllLegendItems_get st S :
  S ∈ JsMap.keys st -> JsMap.get S (selectAllLegendItems st) = Some true.
Proof. intros Hin. unfold selectAllLegendItems. by apply set_each_get. Qed.

End Selection.

(** C8: after [initialize] has run on the empty [legendItemState], the sample
    of every experiment of the document ([library.sample], or the name of
    the experiment when that is missing or empty) has exactly one entry, and
    the entry is [true]. *)
Theorem initialize_one_entry_true
    (configuration : Configuration.t) (experimentID : string) (experiment : Experiment.t) :
  Configuration.metrics configuration !! experimentID = Some experiment ->
  JsMap.entries_for (Experiment.sample experiment)
                    (initialize configuration legendItemState) = 1
  /\ JsMap.get (Experiment.sample experiment)
               (initialize configuration legendItemState) = Some true.
Proof.
  intros Hexp.
  assert (derivable configuration (Experiment.sample experiment)) as Hd
    by (by exists experimentID, experiment).
  split.
  - apply entries_for_NoDup.
    + rewrite initialize_set_each. apply set_each_NoDup. constructor.
    + by apply initialize_keys.
  - rewrite initialize_set_each. apply set_each_get.
    by apply derivable_elem_of.
Qed.

Lemma initialize_one_entry_true_witness :
  Configuration.metrics Inputs.truncation !! "B"
    = Some (Inputs.experiment "B" None 20 (replicate 120 2%Q) None)
  /\ JsMap.entries_for "B" (initialize Inputs.truncation legendItemState) = 1
  /\ JsMap.get "B" (initialize Inputs.truncation legendItemState) = Some true.
Proof.
  assert (Configuration.metrics Inputs.truncation !! "B"
          = Some (Inputs.experiment "B" None 20 (replicate 120 2%Q) None)) as H
    by (vm_compute; reflexivity).
  split; [exact H|].
  exact (initialize_one_entry_true Inputs.truncation "B" _ H).
Defined.

(** C9: a click on the legend item of a sample [S] that has an entry flips
    that entry and no other (the keys and every other value are unchanged),
    and a second click on it gives back the state before the first. *)
Theorem selectLegendItem_flips_one (S : string) (st : list (string * bool)) :
  S <> "" ->
  S ∈ JsMap.keys st ->
  JsMap.get S (selectLegendItem (Some S) st) = negb <$> JsMap.get S st
  /\ (forall S', S' <> S ->
        JsMap.get S' (selectLegendItem (Some S) st) = JsMap.get S' st)
  /\ JsMap.keys (selectLegendItem (Some S) st) = JsMap.keys st
  /\ JsMap.get S (selectLegendItem (Some S) (selectLegendItem (Some S) st))
     = JsMap.get S st
  /\ selectLegendItem (Some S) (selectLegendItem (Some S) st) = st.
Proof.
  intros Hne Hin.
  destruct (keys_get _ _ Hin) as [b Hb].
  assert (selectLegendItem (Some S) st = JsMap.set S (negb b) st) as Hone.
  { rewrite selectLegendItem_Some; [|done]. rewrite Hb. by destruct b. }
  assert (selectLegendItem (Some S) (JsMap.set S (negb b) st) = st) as Htwo.
  { rewrite selectLegendItem_Some; [|done]. rewrite get_set_eq.
    destruct b; simpl; rewrite set_set; by apply set_get_id. }
  rewrite Hone, Htwo. repeat split.
  - by rewrite get_set_eq, Hb.
  - intros S' HS'. apply get_set_ne. congruence.
  - by apply keys_set_in.
Qed.

Lemma selectLegendItem_flips_one_witness :
  "s2" <> ""
  /\ "s2" ∈ JsMap.keys Inputs.selection
  /\ JsMap.get "s2" (selectLegendItem (Some "s2") Inputs.selection)
     = negb <$> JsMap.get "s2" Inputs.selection
  /\ (forall S', S' <> "s2" ->
        JsMap.get S' (selectLegendItem (Some "s2") Inputs.selection)
        = JsMap.get S' Inputs.selection)
  /\ JsMap.keys (selectLegendItem (Some "s2") Inputs.selection)
     = JsMap.keys Inputs.selection
  /\ JsMap.get "s2" (selectLegendItem (Some "s2")
                       (selectLegendItem (Some "s2") Inputs.selection))
     = JsMap.get "s2" Inputs.selection
  /\ selectLegendItem (Some "s2") (selectLegendItem (Some "s2") Inputs.selection)
     = Inputs.selection.
Proof.
  assert ("s2" <> "") as Hne by discriminate.
  assert ("s2" ∈ JsMap.keys Inputs.selection) as Hin
    by (vm_compute; apply list_elem_of_further, list_elem_of_here).
  split; [exact Hne|]. split; [exact Hin|].
  exact (selectLegendItem_flips_one "s2" Inputs.selection Hne Hin).
Defined.

(** C10: whatever the state, [selectAllLegendItems] followed by
    [deselectAllLegendItems] leaves the entry of every known sample [false],
    and [deselectAllLegendItems] followed by [selectAllLegendItems] leaves
    it [true]; neither adds or removes a sample. *)
Theorem select_all_deselect_all (st : list (string * bool)) (S : string) :
  S ∈ JsMap.keys st ->
  JsMap.get S (deselectAllLegendItems (selectAllLegendItems st)) = Some false
  /\ JsMap.get S (selectAllLegendItems (deselectAllLegendItems st)) = Some true
  /\ JsMap.keys (deselectAllLegendItems (selectAllLegendItems st)) = JsMap.keys st
  /\ JsMap.keys (selectAllLegendItems (deselectAllLegendItems st)) = JsMap.keys st.
Proof.
  intros Hin. repeat split.
  - apply deselectAllLegendItems_get. by rewrite selectAllLegendItems_keys.
  - apply selectAllLegendItems_get. by rewrite deselectAllLegendItems_keys.
  - by rewrite deselectAllLegendItems_keys, selectAllLegendItems_keys.
  - by rewrite selectAllLegendItems_keys, deselectAllLegendItems_keys.
Qed.

Lemma select_all_deselect_all_witness :
  "s2" ∈ JsMap.keys Inputs.selection
  /\ JsMap.get "s2" (deselectAllLegendItems (selectAllLegendItems Inputs.selection))
     = Some false
  /\ JsMap.get "s2" (selectAllLegendItems (deselectAllLegendItems Inputs.selection))
     = Some true
  /\ JsMap.keys (deselectAllLegendItems (selectAllLegendItems Inputs.selection))
     = JsMap.keys Inputs.selection
  /\ JsMap.keys (selectAllLegendItems (deselectAllLegendItems Inputs.selection))
     = JsMap.keys Inputs.selection.
Proof.
  assert ("s2" ∈ JsMap.keys Inputs.selection) as Hin
    by (vm_compute; apply list_elem_of_further, list_elem_of_here).
  split; [exact Hin|].
  exact (select_all_deselect_all Inputs.selection "s2" Hin).
Defined.

(** ** Experiment IDs and the loop over them *)

Lemma elem_of_experimentIDs configuration experimentID :
  experimentID ∈ experimentIDs configuration <->
  is_Some (Configuration.metrics configuration !! experimentID).
Proof.
  unfold experimentIDs, Js.sort, Js.keys. rewrite merge_sort_Permutation.
  rewrite list_elem_of_fmap. split.
  - intros ([i e] & -> & Hin). apply elem_of_map_to_list in Hin. by eexists.
  - intros [e He]. exists (experimentID, e). split; [done|].
    by apply elem_of_map_to_list.
Qed.

(** A loop over experiment IDs whose body looks the experiment up, cannot
    fail otherwise, and stores one series under the ID: every ID of the
    list ends up with the series of its experiment, whatever the other
    fields of the result went through. *)
Section SeriesLoop.
Context (configuration : Configuration.t).
Context (body : PlotDataset.t -> string -> Js.result PlotDataset.t).
Context (mk : string -> Experiment.t -> Line.Series).
Context (kept : PlotDataset.t -> PlotDataset.t -> Prop).
Hypothesis kept_refl : forall r, kept r r.
Hypothesis kept_trans : forall r1 r2 r3, kept r1 r2 -> kept r2 r3 -> kept r1 r3.
Hypothesis body_ok : forall result experimentID experiment,
  Configuration.metrics configuration !! experimentID = Some experiment ->
  exists result',
    body result experimentID = Ok result'
    /\ PlotDataset.series result'
       = <[experimentID := mk experimentID experiment]> (PlotDataset.series result)
    /\ kept result result'.

Lemma series_loop (ids : list string) (result : PlotDataset.t) :
  (forall i, i ∈ ids -> is_Some (Configuration.metrics configuration !! i)) ->
  exists result',
    for_each body result ids = Ok result'
    /\ kept result result'
    /\ forall i,
         PlotDataset.series result' !! i =
         if decide (i ∈ ids)
         then mk i <$> Configuration.metrics configuration !! i
         else PlotDataset.series result !! i.
Proof.
  revert result. induction ids as [|experimentID ids IH]; intros result Hids.
  - exists result. split; [done|]. split; [apply kept_refl|].
    intros i. rewrite decide_False; [done|]. apply not_elem_of_nil.
  - destruct (Hids experimentID) as [experiment Hexp]; [apply list_elem_of_here|].
    destruct (body_ok result _ _ Hexp) as (r1 & Hbody & Hseries & Hkept1).
    destruct (IH r1) as (r2 & Hloop & Hkept2 & Hlookup).
    { intros i Hi. apply Hids. by apply list_elem_of_further. }
    exists r2. split; [simpl; by rewrite Hbody|].
    split; [by eapply kept_trans|].
    intros i. rewrite Hlookup. destruct (decide (i ∈ ids)) as [Hi|Hi].
    + rewrite decide_True; [done|]. by apply list_elem_of_further.
    + rewrite Hseries. destruct (decide (i = experimentID)) as [->|Hne].
      * rewrite decide_True; [|apply list_elem_of_here].
        by rewrite lookup_insert_eq, Hexp.
      * rewrite decide_False; [by rewrite lookup_insert_ne|].
        intros Hin. apply elem_of_cons in Hin as [?|?]; done.
Qed.

(** Over all the experiment IDs of the document, from a result without
    series. *)
Lemma series_loop_all (result : PlotDataset.t) :
  PlotDataset.series result = ∅ ->
  exists result',
    for_each body result (experimentIDs configuration) = Ok result'
    /\ kept result result'
    /\ forall i,
         PlotDataset.series result' !! i
         = mk i <$> Configuration.metrics configuration !! i.
Proof.
  intros Hempty.
  destruct (series_loop (experimentIDs configuration) result) as (r & Hloop & Hkept & Hlookup).
  { intros i. apply elem_of_experimentIDs. }
  exists r. split; [done|]. split; [done|].
  intros i. rewrite Hlookup. destruct (decide (i ∈ experimentIDs configuration)) as [Hi|Hi]; [done|].
  rewrite Hempty, lookup_empty.
  destruct (Configuration.metrics configuration !! i) as [e|] eqn:He; [|done].
  exfalso. apply Hi, elem_of_experimentIDs. by eexists.
Qed.

End SeriesLoop.

(** ** The cumulative peak curves *)

Lemma same_frame_refl r : same_frame r r.
Proof. by repeat split. Qed.

Lemma same_frame_trans r1 r2 r3 : same_frame r1 r2 -> same_frame r2 r3 -> same_frame r1 r3.
Proof.
  intros (?&?&?&?) (?&?&?&?). repeat split; congruence.
Qed.

Lemma carried_in_range percentiles p :
  p < length percentiles -> carried percentiles p = nth p percentiles 0%Q.
Proof. intros Hp. unfold carried. f_equal. lia. Qed.

Lemma carried_past_end percentiles p :
  length percentiles <= p ->
  carried percentiles p = carried percentiles (p - 1) \/ p = 0.
Proof. intros Hp. destruct p; [by right|]. left. unfold carried. f_equal. lia. Qed.

Lemma carried_empty p : carried [] p = 0%Q.
Proof. unfold carried. simpl. by destruct (Nat.min p 0). Qed.

Lemma carried_last percentiles v p :
  last percentiles = Some v -> length percentiles <= p -> carried percentiles p = v.
Proof.
  intros Hlast Hp. unfold carried.
  rewrite last_lookup in Hlast.
  assert (length percentiles <> 0) as Hlen.
  { intros H0. rewrite H0 in Hlast. simpl in Hlast.
    apply lookup_lt_Some in Hlast. lia. }
  replace (Nat.min p (length percentiles - 1)) with (Nat.pred (length percentiles)) by lia.
  by apply nth_lookup_Some.
Qed.

(** The loop, cut after [n] iterations. *)
Lemma curve_prefix percentiles yMax n :
  let st := foldl (PeakCurve.step percentiles)
                  {| PeakCurve.cumulativeFraction := 0;
                     PeakCurve.yMax := yMax;
                     PeakCurve.line := [] |} (seq 0 n) in
  PeakCurve.line st
  = (fun p => {| Line.x := Z.of_nat p + 1; Line.y := carried percentiles p |}) <$> seq 0 n
  /\ PeakCurve.cumulativeFraction st
     = match n with 0 => 0%Q | S m => carried percentiles m end.
Proof.
  induction n as [|n [IHline IHcum]]; [done|].
  rewrite seq_S, foldl_app. simpl.
  set (st := foldl _ _ _) in *.
  assert ((if decide (n < length percentiles)
           then nth n percentiles 0%Q
           else PeakCurve.cumulativeFraction st) = carried percentiles n) as Hval.
  { destruct (decide (n < length percentiles)) as [Hlt|Hge].
    - by rewrite carried_in_range.
    - rewrite IHcum. destruct n as [|m].
      + destruct percentiles; [by rewrite carried_empty | simpl in Hge; lia].
      + destruct (carried_past_end percentiles (S m)) as [->|?]; [lia| |lia].
        by replace (S m - 1) with m by lia. }
  split.
  - rewrite Hval, IHline, fmap_app. done.
  - by rewrite Hval.
Qed.

Lemma curve_line percentiles yMax :
  PeakCurve.line (PeakCurve.curve percentiles yMax) = curve_points percentiles.
Proof. exact (proj1 (curve_prefix percentiles yMax 100)). Qed.

Lemma curve_points_lookup percentiles k :
  0 < k <= 100 ->
  curve_points percentiles !! (k - 1)
  = Some {| Line.x := Z.of_nat k; Line.y := carried percentiles (k - 1) |}.
Proof.
  intros Hk. unfold curve_points. rewrite list_lookup_fmap.
  rewrite lookup_seq_lt; [|lia]. simpl. do 2 f_equal. lia.
Qed.

Lemma peak_addSeries array configuration result i e :
  Configuration.metrics configuration !! i = Some e ->
  exists result',
    PeakCurve.addSeries array configuration result i = Ok result'
    /\ PlotDataset.series result'
       = <[i := peak_series array i e]> (PlotDataset.series result)
    /\ same_frame result result'.
Proof.
  intros He. unfold PeakCurve.addSeries. rewrite He.
  eexists. split; [reflexivity|]. split; [|by repeat split].
  cbn [PlotDataset.series]. unfold peak_series. by rewrite curve_line.
Qed.

(** A peak plot never throws and stores, for every experiment, the curve of
    its array. *)
Lemma peak_provideData array yLabel configuration :
  exists result,
    PeakCurve.provideData array yLabel configuration = Ok result
    /\ PlotDataset.xMax result = Some 100%Z
    /\ PlotDataset.reference_series result = None
    /\ forall i,
         PlotDataset.series result !! i
         = peak_series array i <$> Configuration.metrics configuration !! i.
Proof.
  unfold PeakCurve.provideData.
  destruct (series_loop_all configuration (PeakCurve.addSeries array configuration)
               (peak_series array) same_frame same_frame_refl same_frame_trans
               (peak_addSeries array configuration)
               {| PlotDataset.series := ∅;
                  PlotDataset.reference_series := None;
                  PlotDataset.xMax := Some 100%Z;
                  PlotDataset.yMax := 0;
                  PlotDataset.xLabel := "Peak percentile";
                  PlotDataset.yLabel := yLabel |} eq_refl)
    as (r & Hloop & (Href & Hx & _) & Hlookup).
  exists r. split; [exact Hloop|]. rewrite Hx, Href. done.
Qed.

(** The curve an experiment gets from a peak plot, by its points. *)
Lemma peak_point array yLabel configuration experimentID experiment k :
  Configuration.metrics configuration !! experimentID = Some experiment ->
  0 < k <= 100 ->
  exists result series,
    PeakCurve.provideData array yLabel configuration = Ok result
    /\ PlotDataset.series result !! experimentID = Some series
    /\ length (Line.line series) = 100
    /\ Line.line series !! (k - 1)
       = Some {| Line.x := Z.of_nat k;
                 Line.y := carried (PeakCurve.percentiles array experiment) (k - 1) |}.
Proof.
  intros Hexp Hk.
  destruct (peak_provideData array yLabel configuration) as (r & Hr & _ & _ & Hlookup).
  exists r, (peak_series array experimentID experiment).
  split; [done|]. split; [by rewrite Hlookup, Hexp|].
  split; [|by apply curve_points_lookup].
  unfold peak_series, curve_points. cbn [Line.line].
  by rewrite length_fmap, length_seq.
Qed.

(** C3: in both cumulative peak plots, when the array of an experiment has
    L < 100 entries, every point k (counted from 1) with L < k <= 100 of its
    100-point curve has the last entry of the array as y. *)
Theorem peak_curves_carry_last_forward
    (configuration : Configuration.t) (experimentID : string)
    (experiment : Experiment.t) (peak_percentiles : PeakPercentiles.t) :
  Configuration.metrics configuration !! experimentID = Some experiment ->
  Experiment.peak_percentiles experiment = Some peak_percentiles ->
  (forall (v : Q) (k : nat),
     last (PeakPercentiles.cumulative_fraction_of_hqaa peak_percentiles) = Some v ->
     length (PeakPercentiles.cumulative_fraction_of_hqaa peak_percentiles) < k <= 100 ->
     exists result series,
       plotPeakReadCounts.provideData configuration = Ok result
       /\ PlotDataset.series result !! experimentID = Some series
       /\ length (Line.line series) = 100
       /\ Line.line series !! (k - 1) = Some {| Line.x := Z.of_nat k; Line.y := v |})
  /\
  (forall (v : Q) (k : nat),
     last (PeakPercentiles.cumulative_fraction_of_territory peak_percentiles) = Some v ->
     length (PeakPercentiles.cumulative_fraction_of_territory peak_percentiles) < k <= 100 ->
     exists result series,
       plotPeakTerritory.provideData configuration = Ok result
       /\ PlotDataset.series result !! experimentID = Some series
       /\ length (Line.line series) = 100
       /\ Line.line series !! (k - 1) = Some {| Line.x := Z.of_nat k; Line.y := v |}).
Proof.
  intros Hexp Hpp.
  split; intros v k Hlast Hk.
  - destruct (peak_point PeakPercentiles.cumulative_fraction_of_hqaa
                "Cumulative fraction of high-quality autosomal reads"
                configuration experimentID experiment k Hexp) as (r & s & Hr & Hs & Hlen & Hpt);
      [lia|].
    exists r, s. repeat split; try done.
    rewrite Hpt. unfold PeakCurve.percentiles. rewrite Hpp.
    do 2 f_equal. apply carried_last; [done | lia].
  - destruct (peak_point PeakPercentiles.cumulative_fraction_of_territory
                "Cumulative fraction of peak territory"
                configuration experimentID experiment k Hexp) as (r & s & Hr & Hs & Hlen & Hpt);
      [lia|].
    exists r, s. repeat split; try done.
    rewrite Hpt. unfold PeakCurve.percentiles. rewrite Hpp.
    do 2 f_equal. apply carried_last; [done | lia].
Qed.

Lemma peak_curves_carry_last_forward_witness :
  Configuration.metrics Inputs.peaks !! "A"
    = Some (Inputs.experiment "A" (Some "s1") 10 [1]%Q (Some Inputs.forty))
  /\ last (PeakPercentiles.cumulative_fraction_of_hqaa Inputs.forty) = Some (40 # 40)%Q
  /\ last (PeakPercentiles.cumulative_fraction_of_territory Inputs.forty) = Some (40 # 40)%Q
  /\ (exists result series,
        plotPeakReadCounts.provideData Inputs.peaks = Ok result
        /\ PlotDataset.series result !! "A" = Some series
        /\ length (Line.line series) = 100
        /\ Line.line series !! (41 - 1) = Some {| Line.x := Z.of_nat 41; Line.y := (40 # 40)%Q |})
  /\ (exists result series,
        plotPeakTerritory.provideData Inputs.peaks = Ok result
        /\ PlotDataset.series result !! "A" = Some series
        /\ length (Line.line series) = 100
        /\ Line.line series !! (100 - 1) = Some {| Line.x := Z.of_nat 100; Line.y := (40 # 40)%Q |}).
Proof.
  assert (Configuration.metrics Inputs.peaks !! "A"
          = Some (Inputs.experiment "A" (Some "s1") 10 [1]%Q (Some Inputs.forty))) as Hexp
    by (vm_compute; reflexivity).
  assert (last (PeakPercentiles.cumulative_fraction_of_hqaa Inputs.forty) = Some (40 # 40)%Q)
    as Hh by (vm_compute; reflexivity).
  assert (last (PeakPercentiles.cumulative_fraction_of_territory Inputs.forty) = Some (40 # 40)%Q)
    as Ht by (vm_compute; reflexivity).
  destruct (peak_curves_carry_last_forward Inputs.peaks "A" _ Inputs.forty Hexp eq_refl)
    as [Hhqaa Hterritory].
  split; [exact Hexp|]. split; [exact Hh|]. split; [exact Ht|]. split.
  - apply (Hhqaa (40 # 40)%Q 41 Hh). vm_compute. split; lia.
  - apply (Hterritory (40 # 40)%Q 100 Ht). vm_compute. split; lia.
Defined.

Lemma nth_replicate_zero n i : nth i (replicate n 0%Q) 0%Q = 0%Q.
Proof. revert i. induction n as [|n IH]; intros [|i]; simpl; auto. Qed.

Lemma curve_points_zero n :
  curve_points (replicate n 0%Q)
  = (fun p => {| Line.x := Z.of_nat p + 1; Line.y := 0%Q |}) <$> seq 0 100.
Proof.
  unfold curve_points. apply list_fmap_ext. intros _ p _.
  unfold carried. by rewrite nth_replicate_zero.
Qed.

(** C7: in both cumulative peak plots, an experiment without
    [peak_percentiles] gets an array of 100 zeros in place of its
    percentiles, and its curve is 0 at each of its 100 points. *)
Theorem peak_curves_zero_without_percentiles
    (configuration : Configuration.t) (experimentID : string) (experiment : Experiment.t) :
  Configuration.metrics configuration !! experimentID = Some experiment ->
  Experiment.peak_percentiles experiment = None ->
  (PeakCurve.percentiles PeakPercentiles.cumulative_fraction_of_hqaa experiment
     = replicate 100 0%Q
   /\ exists result series,
        plotPeakReadCounts.provideData configuration = Ok result
        /\ PlotDataset.series result !! experimentID = Some series
        /\ Line.line series
           = (fun p => {| Line.x := Z.of_nat p + 1; Line.y := 0%Q |}) <$> seq 0 100)
  /\
  (PeakCurve.percentiles PeakPercentiles.cumulative_fraction_of_territory experiment
     = replicate 100 0%Q
   /\ exists result series,
        plotPeakTerritory.provideData configuration = Ok result
        /\ PlotDataset.series result !! experimentID = Some series
        /\ Line.line series
           = (fun p => {| Line.x := Z.of_nat p + 1; Line.y := 0%Q |}) <$> seq 0 100).
Proof.
  intros Hexp Hnone.
  assert (forall array, PeakCurve.percentiles array experiment = replicate 100 0%Q) as Hzeros.
  { intros array. unfold PeakCurve.percentiles. by rewrite Hnone. }
  split; (split; [apply Hzeros|]).
  - destruct (peak_provideData PeakPercentiles.cumulative_fraction_of_hqaa
                "Cumulative fraction of high-quality autosomal reads" configuration)
      as (r & Hr & _ & _ & Hlookup).
    exists r, (peak_series PeakPercentiles.cumulative_fraction_of_hqaa experimentID experiment).
    split; [exact Hr|]. split; [by rewrite Hlookup, Hexp|].
    unfold peak_series. cbn [Line.line]. rewrite Hzeros. apply curve_points_zero.
  - destruct (peak_provideData PeakPercentiles.cumulative_fraction_of_territory
                "Cumulative fraction of peak territory" configuration)
      as (r & Hr & _ & _ & Hlookup).
    exists r, (peak_series PeakPercentiles.cumulative_fraction_of_territory experimentID experiment).
    split; [exact Hr|]. split; [by rewrite Hlookup, Hexp|].
    unfold peak_series. cbn [Line.line]. rewrite Hzeros. apply curve_points_zero.
Qed.

Lemma peak_curves_zero_without_percentiles_witness :
  Configuration.metrics Inputs.peaks !! "B"
    = Some (Inputs.experiment "B" (Some "s1") 20 [1]%Q None)
  /\ (exists result series,
        plotPeakReadCounts.provideData Inputs.peaks = Ok result
        /\ PlotDataset.series result !! "B" = Some series
        /\ Line.line series
           = (fun p => {| Line.x := Z.of_nat p + 1; Line.y := 0%Q |}) <$> seq 0 100)
  /\ (exists result series,
        plotPeakTerritory.provideData Inputs.peaks = Ok result
        /\ PlotDataset.series result !! "B" = Some series
        /\ Line.line series
           = (fun p => {| Line.x := Z.of_nat p + 1; Line.y := 0%Q |}) <$> seq 0 100).
Proof.
  assert (Configuration.metrics Inputs.peaks !! "B"
          = Some (Inputs.experiment "B" (Some "s1") 20 [1]%Q None)) as Hexp
    by (vm_compute; reflexivity).
  destruct (peak_curves_zero_without_percentiles Inputs.peaks "B" _ Hexp eq_refl)
    as [[_ Hhqaa] [_ Hterritory]].
  split; [exact Hexp|]. split; [exact Hhqaa | exact Hterritory].
Defined.

(** ** [d3.min] and [d3.max] *)

Section D3.
Context {A : Type} (ltb : A -> A -> bool) (le : A -> A -> Prop).
Hypothesis le_refl : forall a, le a a.
Hypothesis le_trans : forall a b c, le a b -> le b c -> le a c.
Hypothesis ltb_true : forall a b, ltb a b = true -> le a b.
Hypothesis ltb_false : forall a b, ltb a b = false -> le b a.

Lemma d3_min_snoc (array : list A) (v : A) :
  d3.min ltb (array ++ [v]) =
  match d3.min ltb array with
  | None => Some v
  | Some m => if ltb v m then Some v else Some m
  end.
Proof. unfold d3.min. by rewrite foldl_app. Qed.

(** [d3.min] is [undefined] on the empty array only, and otherwise an
    element of the array below all the others. *)
Lemma d3_min_spec (array : list A) :
  match d3.min ltb array with
  | None => array = []
  | Some m => m ∈ array /\ Forall (le m) array
  end.
Proof.
  induction array as [|v array IH] using rev_ind; [done|].
  rewrite d3_min_snoc. destruct (d3.min ltb array) as [m|].
  - destruct IH as [Hin Hall]. destruct (ltb v m) eqn:Hlt.
    + split; [apply elem_of_app; right; apply list_elem_of_here|].
      apply Forall_app. split; [|repeat constructor; apply le_refl].
      eapply Forall_impl; [exact Hall|]. intros x Hx. simpl in Hx.
      eapply le_trans; [|exact Hx]. by apply ltb_true.
    + split; [apply elem_of_app; by left|].
      apply Forall_app. split; [done|]. repeat constructor. by apply ltb_false.
  - subst array. split; [apply list_elem_of_here|].
    repeat constructor. apply le_refl.
Qed.

End D3.

Lemma d3_min_nat (array : list nat) (m : nat) :
  m ∈ array -> Forall (fun n => m <= n) array -> d3.min Nat.ltb array = Some m.
Proof.
  intros Hin Hall.
  pose proof (d3_min_spec Nat.ltb Nat.le) as Hspec.
  specialize (Hspec ltac:(lia) ltac:(lia)).
  specialize (Hspec ltac:(intros a b H; apply Nat.ltb_lt in H; lia)).
  specialize (Hspec ltac:(intros a b H; apply Nat.ltb_ge in H; lia)).
  specialize (Hspec array). destruct (d3.min Nat.ltb array) as [m'|].
  - destruct Hspec as [Hin' Hall']. f_equal.
    rewrite Forall_forall in Hall, Hall'.
    specialize (Hall _ Hin'). specialize (Hall' _ Hin). lia.
  - subst array. by apply not_elem_of_nil in Hin.
Qed.

Lemma Js_lt_true (a b : Q) : Js.lt a b = true -> (a < b)%Q.
Proof.
  unfold Js.lt. intros H. apply negb_true_iff in H.
  apply Qnot_le_lt. intros Hle. apply Qle_bool_iff in Hle. congruence.
Qed.

Lemma Js_lt_false (a b : Q) : Js.lt a b = false -> (b <= a)%Q.
Proof.
  unfold Js.lt. intros H. apply negb_false_iff in H. by apply Qle_bool_iff.
Qed.

(** On numbers, [d3.min] is a least element of the array. *)
Lemma d3_min_Q (array : list Q) :
  match d3.min Js.lt array with
  | None => array = []
  | Some m => m ∈ array /\ Forall (fun v => (m <= v)%Q) array
  end.
Proof.
  apply (d3_min_spec Js.lt Qle).
  - apply Qle_refl.
  - intros a b c. apply Qle_trans.
  - intros a b H. apply Qlt_le_weak. by apply Js_lt_true.
  - apply Js_lt_false.
Qed.

(** On numbers, [d3.max] is a greatest element of the array. *)
Lemma d3_max_Q (array : list Q) :
  match d3.max Js.lt array with
  | None => array = []
  | Some m => m ∈ array /\ Forall (fun v => (v <= m)%Q) array
  end.
Proof.
  apply (d3_min_spec (fun a b => Js.lt b a) (fun a b => (b <= a)%Q)).
  - apply Qle_refl.
  - intros a b c Hab Hbc. by eapply Qle_trans.
  - intros a b H. apply Qlt_le_weak. by apply Js_lt_true.
  - intros a b. apply Js_lt_false.
Qed.

(** ** The fragment length plot *)

Lemma for_each_app {S I} (body : S -> I -> Js.result S) (s : S) (l1 l2 : list I) :
  for_each body s (l1 ++ l2) = s' ← for_each body s l1; for_each body s' l2.
Proof.
  revert s. induction l1 as [|i l1 IH]; intros s; [done|].
  simpl. destruct (body s i) as [s'|e]; simpl; [apply IH | done].
Qed.

Lemma for_each_cons {S I} (body : S -> I -> Js.result S) (s : S) (i : I) (l : list I) :
  for_each body s (i :: l) = s' ← body s i; for_each body s' l.
Proof. done. Qed.

Lemma grid_S resolution n :
  grid resolution (S n)
  = grid resolution n ++ (if divides resolution n then [n] else []).
Proof.
  unfold grid. rewrite seq_S, filter_app. f_equal. simpl.
  destruct (divides resolution n) eqn:Hdiv.
  - rewrite filter_cons_True; [done|]. by apply Is_true_true.
  - rewrite filter_cons_False; [done|]. by apply Is_true_false.
Qed.

Lemma elem_of_grid resolution n fl :
  fl ∈ grid resolution n <-> fl < n /\ divides resolution fl = true.
Proof.
  unfold grid. rewrite list_elem_of_filter, elem_of_seq.
  rewrite Is_true_true. split; intros [? ?]; split; (done || lia).
Qed.

(** The loop cut after [n] iterations, all of them within [counts]: it
    does not throw, its [sum] and [line] do not depend on the [yMax] it
    starts from, and it has pushed one point for each index of the grid. *)
Lemma resample_prefix counts resolution n :
  n <= length counts ->
  exists sum line,
    (forall yMax, exists yMax',
        for_each (plotFragmentLength.step counts resolution)
                 {| plotFragmentLength.sum := 0;
                    plotFragmentLength.yMax := yMax;
                    plotFragmentLength.line := [] |} (seq 0 n)
        = Ok {| plotFragmentLength.sum := sum;
                plotFragmentLength.yMax := yMax';
                plotFragmentLength.line := line |})
    /\ Line.x <$> line = Z.of_nat <$> grid resolution n.
Proof.
  induction n as [|n IH]; intros Hn.
  - exists 0%Q, []. split; [|done]. intros yMax. by exists yMax.
  - destruct IH as (sum & line & Hrun & Hxs); [lia|].
    destruct (lookup_lt_is_Some_2 counts n) as [entry Hentry]; [lia|].
    destruct (divides resolution n) eqn:Hdiv.
    + eexists 0%Q, _. split.
      * intros yMax. destruct (Hrun yMax) as [yMax' Hrun'].
        rewrite seq_S, for_each_app, Hrun'. simpl.
        unfold plotFragmentLength.step. rewrite Hentry. simpl. rewrite Hdiv.
        eexists. reflexivity.
      * rewrite grid_S, Hdiv, !fmap_app, Hxs. done.
    + eexists _, line. split.
      * intros yMax. destruct (Hrun yMax) as [yMax' Hrun'].
        rewrite seq_S, for_each_app, Hrun'. simpl.
        unfold plotFragmentLength.step. rewrite Hentry. simpl. rewrite Hdiv.
        eexists. reflexivity.
      * rewrite grid_S, Hdiv, app_nil_r. done.
Qed.

(** The loop throws as soon as it runs past the end of [counts]. *)
Lemma resample_throws counts resolution n yMax :
  length counts < n ->
  plotFragmentLength.resample counts resolution (Some n) yMax = Throw TypeError.
Proof.
  intros Hn. unfold plotFragmentLength.resample. simpl.
  replace n with (length counts + S (n - length counts - 1)) by lia.
  rewrite seq_app, for_each_app.
  destruct (resample_prefix counts resolution (length counts)) as (s & l & Hrun & _); [lia|].
  destruct (Hrun yMax) as [y' ->]. simpl.
  unfold plotFragmentLength.step.
  rewrite (lookup_ge_None_2 counts (length counts)); [done | lia].
Qed.

Lemma resample_ok counts resolution maximum yMax :
  default 0 maximum <= length counts ->
  exists st,
    plotFragmentLength.resample counts resolution maximum yMax = Ok st
    /\ plotFragmentLength.line st = resampled counts resolution (default 0 maximum).
Proof.
  intros Hn. unfold resampled, plotFragmentLength.resample. simpl.
  destruct (resample_prefix counts resolution _ Hn) as (s & l & Hrun & _).
  destruct (Hrun yMax) as [y1 ->]. destruct (Hrun 0%Q) as [y2 ->].
  eexists. split; reflexivity.
Qed.

Lemma resampled_xs counts resolution n :
  n <= length counts ->
  Line.x <$> resampled counts resolution n = Z.of_nat <$> grid resolution n.
Proof.
  intros Hn. unfold resampled, plotFragmentLength.resample. simpl.
  destruct (resample_prefix counts resolution _ Hn) as (s & l & Hrun & Hxs).
  by destruct (Hrun 0%Q) as [y ->].
Qed.

(** Every point of a resampled line lies on the grid, below [n]. *)
Lemma resampled_bound counts resolution n :
  n <= length counts ->
  Forall (fun p => (0 <= Line.x p < Z.of_nat n)%Z) (resampled counts resolution n).
Proof.
  intros Hn. apply Forall_forall. intros p Hp.
  assert (Line.x p ∈ Line.x <$> resampled counts resolution n) as Hx
    by (apply list_elem_of_fmap; by exists p).
  rewrite resampled_xs in Hx; [|done].
  apply list_elem_of_fmap in Hx as (fl & -> & Hfl).
  apply elem_of_grid in Hfl. lia.
Qed.

(** [maximumInterestingFragmentLength] is below the length of every
    histogram. *)
Lemma maximum_le configuration experimentID experiment :
  Configuration.metrics configuration !! experimentID = Some experiment ->
  default 0 (plotFragmentLength.maximumInterestingFragmentLength configuration)
  <= length (Experiment.fragment_length_counts experiment).
Proof.
  intros Hexp. unfold plotFragmentLength.maximumInterestingFragmentLength.
  set (lengths := _ <$> experimentIDs configuration).
  pose proof (d3_min_spec Nat.ltb Nat.le) as Hspec.
  specialize (Hspec ltac:(lia) ltac:(lia)).
  specialize (Hspec ltac:(intros a b H; apply Nat.ltb_lt in H; lia)).
  specialize (Hspec ltac:(intros a b H; apply Nat.ltb_ge in H; lia)).
  specialize (Hspec lengths). destruct (d3.min Nat.ltb lengths) as [m|]; simpl; [|lia].
  destruct Hspec as [_ Hall]. rewrite Forall_forall in Hall.
  apply Hall. apply list_elem_of_fmap. exists experimentID.
  rewrite Hexp. split; [done|]. apply elem_of_experimentIDs. by eexists.
Qed.

(** [maximumInterestingFragmentLength] is the least histogram length. *)
Lemma maximum_least configuration m :
  least_histogram_length configuration m ->
  plotFragmentLength.maximumInterestingFragmentLength configuration = Some m.
Proof.
  intros [(i & e & Hexp & Hlen) Hleast].
  apply d3_min_nat.
  - apply list_elem_of_fmap. exists i. rewrite Hexp. split; [done|].
    apply elem_of_experimentIDs. by eexists.
  - apply Forall_forall. intros n Hn.
    apply list_elem_of_fmap in Hn as (i' & -> & Hi').
    apply elem_of_experimentIDs in Hi' as [e' He']. rewrite He'. by eapply Hleast.
Qed.

(** *** What the resampling loop computes *)

Lemma fractions_nil counts a : fractions counts a a = [].
Proof. unfold fractions. by rewrite Nat.sub_diag. Qed.

Lemma fractions_snoc counts a n entry :
  a <= n -> counts !! n = Some entry ->
  fractions counts a (S n) = fractions counts a n ++ [or_zero entry.2].
Proof.
  intros Han Hentry. unfold fractions.
  replace (S n - a) with (S (n - a)) by lia.
  rewrite (take_S_r _ _ entry).
  - by rewrite fmap_app.
  - rewrite lookup_drop. by replace (a + (n - a)) with n by lia.
Qed.

Lemma pending_snoc start pushed fl : pending start (pushed ++ [fl]) = S fl.
Proof. unfold pending. by rewrite last_snoc. Qed.

Lemma pending_cons start p pushed : pending start (p :: pushed) = pending (S p) pushed.
Proof.
  unfold pending. destruct pushed as [|q pushed]; [done|].
  rewrite last_cons_cons. destruct (last (q :: pushed)) eqn:Hlast; [done|].
  by apply last_None in Hlast.
Qed.

Lemma trailing_snoc counts resolution start pushed fl :
  trailing counts resolution start (pushed ++ [fl])
  = trailing counts resolution start pushed
    ++ [ {| Line.x := Z.of_nat fl;
            Line.y := (foldl Qplus 0 (fractions counts (pending start pushed) (S fl))
                       / inject_Z resolution)%Q |} ].
Proof.
  revert start. induction pushed as [|p pushed IH]; intros start; [done|].
  rewrite pending_cons. cbn [trailing app]. by rewrite IH.
Qed.

Lemma pending_grid_le resolution n : pending 0 (grid resolution n) <= n.
Proof.
  unfold pending. destruct (last (grid resolution n)) as [fl|] eqn:Hlast; [|lia].
  apply last_Some_elem_of, elem_of_grid in Hlast. lia.
Qed.

(** The loop cut after [n] iterations: [sum] holds the fractions after the
    last point, and each point holds the sum of the fractions after the
    point before it, through its own position. *)
Lemma resample_trailing_prefix counts resolution n :
  n <= length counts ->
  forall yMax, exists yMax',
    for_each (plotFragmentLength.step counts resolution)
             {| plotFragmentLength.sum := 0;
                plotFragmentLength.yMax := yMax;
                plotFragmentLength.line := [] |} (seq 0 n)
    = Ok {| plotFragmentLength.sum :=
              foldl Qplus 0%Q (fractions counts (pending 0 (grid resolution n)) n);
            plotFragmentLength.yMax := yMax';
            plotFragmentLength.line := trailing counts resolution 0 (grid resolution n) |}.
Proof.
  induction n as [|n IH]; intros Hn yMax.
  - exists yMax. by rewrite fractions_nil.
  - destruct (IH ltac:(lia) yMax) as [yMax' Hrun].
    destruct (lookup_lt_is_Some_2 counts n) as [entry Hentry]; [lia|].
    rewrite seq_S, for_each_app, Hrun. simpl.
    unfold plotFragmentLength.step. rewrite Hentry. simpl.
    pose proof (pending_grid_le resolution n) as Hle.
    rewrite grid_S. destruct (divides resolution n) eqn:Hdiv.
    + eexists. rewrite trailing_snoc, pending_snoc, fractions_nil.
      rewrite (fractions_snoc _ _ _ entry Hle Hentry), foldl_app. reflexivity.
    + eexists. rewrite app_nil_r.
      rewrite (fractions_snoc _ _ _ entry Hle Hentry), foldl_app. reflexivity.
Qed.

(** The line of the fragment length plot, by its points: one at each grid
    position, holding the sum of the fractions after the previous grid
    position (from position 0 for the first point), through its own
    position, divided by the resolution.  The positions after the last grid
    position are summed and not pushed. *)
Lemma resampled_trailing counts resolution n :
  n <= length counts ->
  resampled counts resolution n = trailing counts resolution 0 (grid resolution n).
Proof.
  intros Hn. unfold resampled, plotFragmentLength.resample. simpl.
  by destruct (resample_trailing_prefix counts resolution n Hn 0%Q) as [y ->].
Qed.

(** For a positive resolution the grid positions are the multiples of the
    resolution. *)
Lemma divides_multiple (resolution : Z) (fl : nat) :
  (0 < resolution)%Z ->
  divides resolution fl = true <-> exists k : nat, Z.of_nat fl = (Z.of_nat k * resolution)%Z.
Proof.
  intros Hpos. unfold divides.
  destruct (Z.eqb_spec resolution 0) as [->|_]; [lia|].
  rewrite Z.eqb_eq, Z.rem_mod_nonneg by lia. split.
  - intros Hmod. exists (Z.to_nat (Z.of_nat fl / resolution)).
    rewrite Z2Nat.id by (apply Z.div_pos; lia).
    rewrite (Z.div_mod (Z.of_nat fl) resolution) at 1 by lia. lia.
  - intros [k ->]. apply Z.mod_mul. lia.
Qed.

Lemma fragment_length_addSeries configuration resolution result i e :
  Configuration.metrics configuration !! i = Some e ->
  exists result',
    plotFragmentLength.addSeries configuration resolution
      (plotFragmentLength.maximumInterestingFragmentLength configuration) result i
    = Ok result'
    /\ PlotDataset.series result'
       = <[i := fragment_length_series resolution
                  (plotFragmentLength.maximumInterestingFragmentLength configuration) i e]>
           (PlotDataset.series result)
    /\ same_frame result result'.
Proof.
  intros He. unfold plotFragmentLength.addSeries. rewrite He. simpl.
  destruct (resample_ok (Experiment.fragment_length_counts e) resolution
              (plotFragmentLength.maximumInterestingFragmentLength configuration)
              (PlotDataset.yMax result)) as (st & -> & Hline).
  { by eapply maximum_le. }
  simpl. eexists. split; [reflexivity|]. split; [|by repeat split].
  cbn [PlotDataset.series]. unfold fragment_length_series. by rewrite Hline.
Qed.

(** Without [fragment_length_reference] the function throws before it has
    looked at any experiment. *)
Lemma fragment_length_provideData_no_reference configuration resolution :
  Configuration.fragment_length_reference configuration = None ->
  plotFragmentLength.provideData configuration resolution = Throw TypeError.
Proof. intros Hnone. unfold plotFragmentLength.provideData. by rewrite Hnone. Qed.

(** With a reference that covers the plotted lengths the function returns:
    the series of every experiment and the reference line are resampled
    over the same [maximumInterestingFragmentLength] positions. *)
Lemma fragment_length_provideData configuration resolution reference :
  Configuration.fragment_length_reference configuration = Some reference ->
  default 0 (plotFragmentLength.maximumInterestingFragmentLength configuration)
    <= length (FragmentLengthReference.distribution reference) ->
  exists result,
    plotFragmentLength.provideData configuration resolution = Ok result
    /\ PlotDataset.xMax result
       = Z.of_nat <$> plotFragmentLength.maximumInterestingFragmentLength configuration
    /\ PlotDataset.reference_series result
       = Some {| ReferenceSeries.source := FragmentLengthReference.source reference;
                 ReferenceSeries.line :=
                   resampled (FragmentLengthReference.distribution reference) resolution
                     (default 0 (plotFragmentLength.maximumInterestingFragmentLength
                                   configuration)) |}
    /\ forall i,
         PlotDataset.series result !! i
         = fragment_length_series resolution
             (plotFragmentLength.maximumInterestingFragmentLength configuration) i
             <$> Configuration.metrics configuration !! i.
Proof.
  intros Href Hlen. unfold plotFragmentLength.provideData. rewrite Href. simpl.
  set (maximum := plotFragmentLength.maximumInterestingFragmentLength configuration) in *.
  edestruct (series_loop_all configuration
               (plotFragmentLength.addSeries configuration resolution maximum)
               (fragment_length_series resolution maximum)
               same_frame same_frame_refl same_frame_trans
               (fragment_length_addSeries configuration resolution))
    as (r & -> & (_ & Hx & _) & Hlookup); [reflexivity|].
  simpl.
  destruct (resample_ok (FragmentLengthReference.distribution reference) resolution
              maximum (PlotDataset.yMax r) Hlen) as (st & -> & Hline).
  simpl. eexists. split; [reflexivity|]. cbn.
  split; [by rewrite Hx|]. split; [by rewrite Hline|]. exact Hlookup.
Qed.

(** With a reference that stops short of the plotted lengths the function
    throws. *)
Lemma fragment_length_provideData_short_reference configuration resolution reference :
  Configuration.fragment_length_reference configuration = Some reference ->
  length (FragmentLengthReference.distribution reference)
    < default 0 (plotFragmentLength.maximumInterestingFragmentLength configuration) ->
  plotFragmentLength.provideData configuration resolution = Throw TypeError.
Proof.
  intros Href Hlen. unfold plotFragmentLength.provideData. rewrite Href. simpl.
  set (maximum := plotFragmentLength.maximumInterestingFragmentLength configuration) in *.
  edestruct (series_loop_all configuration
               (plotFragmentLength.addSeries configuration resolution maximum)
               (fragment_length_series resolution maximum)
               same_frame same_frame_refl same_frame_trans
               (fragment_length_addSeries configuration resolution))
    as (r & -> & _); [reflexivity|].
  simpl. destruct maximum as [n|]; [|simpl in Hlen; lia].
  by rewrite resample_throws.
Qed.

(** C6: with a reference at hand that covers them, the fragment length plot
    is cut at the least length [m] of a [fragment_length_counts] of the
    document: [maximumInterestingFragmentLength] and [xMax] are [m], and the
    line of every experiment and the reference line have their points at
    the same positions, the grid positions below [m]. *)
Theorem fragment_length_cut_at_least_length
    (configuration : Configuration.t) (resolution : Z)
    (reference : FragmentLengthReference.t) (m : nat) :
  Configuration.fragment_length_reference configuration = Some reference ->
  least_histogram_length configuration m ->
  m <= length (FragmentLengthReference.distribution reference) ->
  exists result reference_series,
    plotFragmentLength.provideData configuration resolution = Ok result
    /\ plotFragmentLength.maximumInterestingFragmentLength configuration = Some m
    /\ PlotDataset.xMax result = Some (Z.of_nat m)
    /\ (forall experimentID experiment,
          Configuration.metrics configuration !! experimentID = Some experiment ->
          exists series,
            PlotDataset.series result !! experimentID = Some series
            /\ Line.x <$> Line.line series = Z.of_nat <$> grid resolution m
            /\ Forall (fun p => (0 <= Line.x p < Z.of_nat m)%Z) (Line.line series))
    /\ PlotDataset.reference_series result = Some reference_series
    /\ Line.x <$> ReferenceSeries.line reference_series = Z.of_nat <$> grid resolution m
    /\ Forall (fun p => (0 <= Line.x p < Z.of_nat m)%Z)
              (ReferenceSeries.line reference_series).
Proof.
  intros Href Hleast Hlen.
  pose proof (maximum_least _ _ Hleast) as Hmax.
  destruct (fragment_length_provideData configuration resolution reference Href)
    as (r & Hr & Hx & Hrs & Hlookup); [by rewrite Hmax|].
  rewrite Hmax in *. simpl in *.
  eexists r, _. split; [exact Hr|]. split; [done|]. split; [exact Hx|].
  split; [|split; [exact Hrs|]].
  - intros i e He. eexists. split; [by rewrite Hlookup, He|].
    cbn [fragment_length_series Line.line default].
    assert (m <= length (Experiment.fragment_length_counts e)) as Hm
      by (by eapply (proj2 Hleast)).
    split; [by apply resampled_xs | by apply resampled_bound].
  - cbn [ReferenceSeries.line].
    split; [by apply resampled_xs | by apply resampled_bound].
Qed.

Lemma fragment_length_cut_at_least_length_witness :
  Configuration.fragment_length_reference Inputs.truncation
    = Some (Inputs.reference 200)
  /\ least_histogram_length Inputs.truncation 120
  /\ 120 <= length (FragmentLengthReference.distribution (Inputs.reference 200))
  /\ exists result reference_series,
       plotFragmentLength.provideData Inputs.truncation 10 = Ok result
       /\ plotFragmentLength.maximumInterestingFragmentLength Inputs.truncation = Some 120
       /\ PlotDataset.xMax result = Some (Z.of_nat 120)
       /\ (forall experimentID experiment,
             Configuration.metrics Inputs.truncation !! experimentID = Some experiment ->
             exists series,
               PlotDataset.series result !! experimentID = Some series
               /\ Line.x <$> Line.line series = Z.of_nat <$> grid 10 120
               /\ Forall (fun p => (0 <= Line.x p < Z.of_nat 120)%Z) (Line.line series))
       /\ PlotDataset.reference_series result = Some reference_series
       /\ Line.x <$> ReferenceSeries.line reference_series = Z.of_nat <$> grid 10 120
       /\ Forall (fun p => (0 <= Line.x p < Z.of_nat 120)%Z)
                 (ReferenceSeries.line reference_series).
Proof.
  assert (least_histogram_length Inputs.truncation 120) as Hleast.
  { split.
    - exists "B", (Inputs.experiment "B" None 20 (replicate 120 2%Q) None).
      split; vm_compute; reflexivity.
    - apply (bool_decide_unpack _). vm_compute. exact I. }
  assert (120 <= length (FragmentLengthReference.distribution (Inputs.reference 200)))
    as Hlen by (vm_compute; lia).
  split; [reflexivity|]. split; [exact Hleast|]. split; [exact Hlen|].
  exact (fragment_length_cut_at_least_length Inputs.truncation 10
           (Inputs.reference 200) 120 eq_refl Hleast Hlen).
Defined.

(** C1, on the input of the specification: one experiment with the
    fractions 2, 4, 6, 8 and resolution 2.  The line has a point at the
    start of each of the two windows, but the values are 1 and 5: the first
    point is pushed after one position only (2 / 2), the second holds the
    positions 1 and 2 ((4 + 6) / 2), and the last position is summed and
    never pushed.  The block means 3 and 7 are not what is computed. *)
Theorem block_mean_example :
  exists result series,
    plotFragmentLength.provideData Inputs.block 2 = Ok result
    /\ PlotDataset.series result !! "A" = Some series
    /\ points (Line.line series) = [(0%Z, 1%Q); (2%Z, 5%Q)]
    /\ points (Line.line series) <> [(0%Z, 3%Q); (2%Z, 7%Q)].
Proof.
  destruct (fragment_length_provideData Inputs.block 2 (Inputs.reference 4) eq_refl)
    as (r & Hr & _ & _ & Hlookup); [vm_compute; lia|].
  eexists r, _. split; [exact Hr|]. split; [by rewrite Hlookup|].
  split; [by vm_compute|]. vm_compute. discriminate.
Qed.

(** ** The mapping quality plot *)

Lemma mapq_fold totalReads (counts : list (Z * Q)) xMax yMax line :
  (foldl (plotMapq.step totalReads) (xMax, yMax, line) counts).2
  = line ++ ((fun mqc : Z * Q =>
                {| Line.x := mqc.1; Line.y := (mqc.2 / totalReads)%Q |}) <$> counts).
Proof.
  revert xMax yMax line. induction counts as [|mqc counts IH]; intros xMax yMax line.
  - by rewrite app_nil_r.
  - simpl. rewrite IH, <- app_assoc. done.
Qed.

Lemma mapq_addSeries configuration result i e :
  Configuration.metrics configuration !! i = Some e ->
  exists result',
    plotMapq.addSeries configuration result i = Ok result'
    /\ PlotDataset.series result' = <[i := mapq_series i e]> (PlotDataset.series result)
    /\ PlotDataset.reference_series result' = PlotDataset.reference_series result.
Proof.
  intros He. unfold plotMapq.addSeries. rewrite He. simpl.
  pose proof (mapq_fold (Experiment.total_reads e) (Experiment.mapq_counts e)
                (default 0%Z (PlotDataset.xMax result)) (PlotDataset.yMax result) [])
    as Hfold.
  destruct (foldl _ _ _) as [[xMax yMax] line]. simpl in Hfold. subst line.
  eexists. split; [reflexivity|]. split; [|done]. done.
Qed.

(** The mapping quality plot never throws and stores, for every experiment,
    one point per entry of its [mapq_counts]. *)
Lemma mapq_provideData configuration :
  exists result,
    plotMapq.provideData configuration = Ok result
    /\ PlotDataset.reference_series result = None
    /\ forall i,
         PlotDataset.series result !! i
         = mapq_series i <$> Configuration.metrics configuration !! i.
Proof.
  unfold plotMapq.provideData.
  edestruct (series_loop_all configuration (plotMapq.addSeries configuration) mapq_series
               (fun r r' => PlotDataset.reference_series r' = PlotDataset.reference_series r))
    as (r & Hr & Href & Hlookup);
    [done | congruence | apply mapq_addSeries | | exists r; split; [exact Hr|]; split; [exact Href | exact Hlookup]].
  done.
Qed.

(** ** The scatter plot *)

Lemma makeLibrary_Some configuration yAxisSource experimentID experiment :
  Configuration.metrics configuration !! experimentID = Some experiment ->
  Scatter.makeLibrary configuration yAxisSource experimentID
  = Some (scatter_library yAxisSource experimentID experiment).
Proof. intros He. unfold Scatter.makeLibrary. by rewrite He. Qed.

Lemma libraries_of_snoc S data library :
  libraries_of S (data ++ [library])
  = libraries_of S data ++ (if decide (Scatter.sample library = S) then [library] else []).
Proof.
  unfold libraries_of. by rewrite filter_app.
Qed.

Lemma addLibrary_grouped configuration yAxisSource data samples experimentID experiment :
  Configuration.metrics configuration !! experimentID = Some experiment ->
  grouped data samples ->
  exists samples',
    Scatter.addLibrary configuration yAxisSource (data, samples) experimentID
    = Ok (data ++ [scatter_library yAxisSource experimentID experiment], samples')
    /\ grouped (data ++ [scatter_library yAxisSource experimentID experiment]) samples'.
Proof.
  intros He [Hnd Hget]. unfold Scatter.addLibrary.
  rewrite (makeLibrary_Some _ _ _ _ He). simpl.
  set (library := scatter_library yAxisSource experimentID experiment).
  assert (forall v S,
            JsMap.get (Experiment.sample experiment) samples
              = match libraries_of (Experiment.sample experiment) data with
                | [] => None | l => Some l end ->
            v = libraries_of (Experiment.sample experiment) data ++ [library] ->
            JsMap.get S (JsMap.set (Experiment.sample experiment) v samples)
            = match libraries_of S (data ++ [library]) with
              | [] => None | l => Some l end) as Hset.
  { intros v S _ ->. rewrite libraries_of_snoc. simpl.
    destruct (decide (Experiment.sample experiment = S)) as [<-|Hne].
    - rewrite get_set_eq. by destruct (libraries_of _ data).
    - rewrite get_set_ne; [|done]. by rewrite app_nil_r. }
  pose proof (Hget (Experiment.sample experiment)) as Hown.
  destruct (JsMap.get (Experiment.sample experiment) samples) as [libraries|] eqn:Hg.
  - eexists. split; [reflexivity|]. split; [by apply NoDup_keys_set|].
    intros S. apply Hset; [done|].
    destruct (libraries_of _ data); [done | congruence].
  - eexists. split; [reflexivity|]. split; [by apply NoDup_keys_set|].
    intros S. apply Hset; [done|].
    by destruct (libraries_of _ data).
Qed.

Lemma collect_loop configuration yAxisSource (ids : list string) data samples :
  (forall i, i ∈ ids -> is_Some (Configuration.metrics configuration !! i)) ->
  grouped data samples ->
  exists data' samples',
    for_each (Scatter.addLibrary configuration yAxisSource) (data, samples) ids
    = Ok (data', samples')
    /\ grouped data' samples'
    /\ length data' = length data + length ids.
Proof.
  revert data samples. induction ids as [|i ids IH]; intros data samples Hids Hg.
  - exists data, samples. split; [done|]. split; [done|]. simpl. lia.
  - destruct (Hids i) as [e He]; [apply list_elem_of_here|].
    destruct (addLibrary_grouped configuration yAxisSource data samples i e He Hg)
      as (samples1 & Hadd & Hg1).
    destruct (IH _ samples1 (fun j Hj => Hids j (list_elem_of_further _ _ _ Hj)) Hg1)
      as (data2 & samples2 & Hloop & Hg2 & Hlen).
    exists data2, samples2. split; [by rewrite for_each_cons, Hadd|]. split; [done|].
    rewrite Hlen, length_app. simpl. lia.
Qed.

(** The loop over the experiments never throws: [data] has one library per
    experiment, and [samples] groups them by sample. *)
Lemma collect_grouped configuration yAxisSource :
  exists data samples,
    Scatter.collect configuration yAxisSource = Ok (data, samples)
    /\ grouped data samples
    /\ length data = length (experimentIDs configuration).
Proof.
  destruct (collect_loop configuration yAxisSource (experimentIDs configuration) [] [])
    as (data & samples & Hloop & Hg & Hlen).
  - intros i. apply elem_of_experimentIDs.
  - split; [constructor | done].
  - by exists data, samples.
Qed.

(** Every entry of [samples] holds at least one library, and all the
    libraries of its sample. *)
Lemma grouped_entry data samples S libraries :
  grouped data samples ->
  (S, libraries) ∈ samples ->
  libraries = libraries_of S data /\ libraries <> [].
Proof.
  intros [Hnd Hget] Hin.
  assert (JsMap.get S samples = Some libraries) as Hg.
  { clear Hget. induction samples as [|[k v] samples IH]; [by apply not_elem_of_nil in Hin|].
    simpl. unfold JsMap.keys in Hnd. rewrite fmap_cons in Hnd.
    apply NoDup_cons in Hnd as [Hk Hnd].
    apply elem_of_cons in Hin as [Heq|Hin].
    - inversion Heq; subst. by rewrite decide_True.
    - rewrite decide_False; [by apply IH|].
      intros ->. apply Hk. apply list_elem_of_fmap. by exists (k, libraries). }
  rewrite Hget in Hg. destruct (libraries_of S data) eqn:Hl; [done|].
  by inversion Hg.
Qed.

(** *** Aggregates of a sample *)

Lemma foldl_Qplus (f : Scatter.Library -> Q) (a : Q) (l : list Scatter.Library) :
  (foldl (fun a b => a + f b) a l == a + Qsum (f <$> l))%Q.
Proof.
  unfold Qsum. revert a.
  induction l as [|b l IH]; intros a; cbn [foldl foldr fmap list_fmap].
  - ring.
  - rewrite IH. ring.
Qed.

Lemma foldl_Qplus_list (a : Q) (l : list Q) :
  (foldl Qplus a l == a + Qsum l)%Q.
Proof.
  unfold Qsum. revert a.
  induction l as [|b l IH]; intros a; cbn [foldl foldr fmap list_fmap].
  - ring.
  - rewrite IH. ring.
Qed.

Lemma Qsum_ext {A} (f g : A -> Q) (l : list A) :
  (forall a, f a == g a)%Q -> (Qsum (f <$> l) == Qsum (g <$> l))%Q.
Proof.
  intros Hfg. unfold Qsum.
  induction l as [|a l IH]; cbn [foldr fmap list_fmap]; [reflexivity|].
  by rewrite IH, Hfg.
Qed.

Lemma meanDistance_mean libraries :
  (Scatter.meanDistance libraries == arithmetic_mean (Scatter.x <$> libraries))%Q.
Proof.
  unfold Scatter.meanDistance, arithmetic_mean.
  rewrite foldl_Qplus, length_fmap. apply Qdiv_comp; [ring | reflexivity].
Qed.

Lemma meanSquareOfDifferences_variance libraries :
  (Scatter.meanSquareOfDifferences libraries
   == population_variance (Scatter.x <$> libraries))%Q.
Proof.
  unfold Scatter.meanSquareOfDifferences, population_variance.
  rewrite foldl_Qplus_list. unfold Scatter.squaresOfDifferences.
  rewrite !length_fmap, <- list_fmap_compose.
  apply Qdiv_comp; [|reflexivity]. rewrite Qplus_0_l.
  apply Qsum_ext. intros a. simpl. rewrite meanDistance_mean. ring.
Qed.

Lemma Qsum_squares_nonneg {A} (f : A -> Q) (l : list A) :
  (0 <= Qsum ((fun a => f a * f a) <$> l))%Q.
Proof.
  unfold Qsum.
  induction l as [|a l IH]; cbn [foldr fmap list_fmap]; [apply Qle_refl|].
  replace 0%Q with (0 + 0)%Q by done. apply Qplus_le_compat; [|done].
  apply (Qsqr_nonneg (f a)).
Qed.

Lemma population_variance_nonneg (l : list Q) : (0 <= population_variance l)%Q.
Proof.
  unfold population_variance.
  pose proof (Qsum_squares_nonneg (fun v => v - arithmetic_mean l)%Q l) as Hnum.
  destruct (length l) as [|n]; simpl.
  - unfold Qdiv, Qinv. simpl. rewrite Qmult_0_r. apply Qle_refl.
  - apply Qle_shift_div_l; [reflexivity|]. by rewrite Qmult_0_l.
Qed.

(** The standard deviation the code computes is the non-negative number
    whose square is the population variance. *)
Lemma distanceStandardDeviation_population libraries :
  Scatter.distanceStandardDeviation libraries
    = sqrt (Q2R (population_variance (Scatter.x <$> libraries)))
  /\ (0 <= Scatter.distanceStandardDeviation libraries)%R
  /\ (Scatter.distanceStandardDeviation libraries
      * Scatter.distanceStandardDeviation libraries
      = Q2R (population_variance (Scatter.x <$> libraries)))%R.
Proof.
  unfold Scatter.distanceStandardDeviation.
  rewrite (Qeq_eqR _ _ (meanSquareOfDifferences_variance libraries)).
  split; [done|]. split; [apply sqrt_pos|].
  apply sqrt_sqrt. replace 0%R with (Q2R 0) by (unfold Q2R; simpl; lra).
  apply Qle_Rle, population_variance_nonneg.
Qed.

(** The entries of [samples]: one per sample, holding the aggregates of the
    libraries of that sample. *)
Lemma samples_entries configuration yAxisSource samples S s :
  Scatter.samples configuration yAxisSource = Ok samples ->
  (S, s) ∈ samples ->
  exists data groups,
    Scatter.collect configuration yAxisSource = Ok (data, groups)
    /\ s = Scatter.aggregate (libraries_of S data)
    /\ libraries_of S data <> [].
Proof.
  intros Hsamples Hin. unfold Scatter.samples in Hsamples.
  destruct (collect_grouped configuration yAxisSource) as (data & groups & Hc & Hg & _).
  rewrite Hc in Hsamples. inversion Hsamples; subst samples.
  apply list_elem_of_fmap in Hin as ([S' libraries] & Heq & Hin).
  simpl in Heq. inversion Heq; subst S' s.
  destruct (grouped_entry _ _ _ _ Hg Hin) as [-> Hne].
  by exists data, groups.
Qed.

(** C5: every entry of [samples] in the scatter plot holds at least one
    library; its [meanDistance] is the arithmetic mean of the distances of
    its libraries, and its [distanceStandardDeviation] is their population
    standard deviation: the non-negative root of the sum of the squared
    deviations from the mean divided by the number N of libraries. *)
Theorem sample_mean_and_population_deviation
    (configuration : Configuration.t) (yAxisSource : string)
    (samples : list (string * Scatter.Sample)) (S : string) (s : Scatter.Sample) :
  Scatter.samples configuration yAxisSource = Ok samples ->
  (S, s) ∈ samples ->
  Scatter.x <$> Scatter.libraries s <> []
  /\ (Scatter.s_meanDistance s == arithmetic_mean (Scatter.x <$> Scatter.libraries s))%Q
  /\ Scatter.s_distanceStandardDeviation s
     = sqrt (Q2R (population_variance (Scatter.x <$> Scatter.libraries s)))
  /\ (0 <= Scatter.s_distanceStandardDeviation s)%R
  /\ (Scatter.s_distanceStandardDeviation s * Scatter.s_distanceStandardDeviation s
      = Q2R (population_variance (Scatter.x <$> Scatter.libraries s)))%R.
Proof.
  intros Hsamples Hin.
  destruct (samples_entries _ _ _ _ _ Hsamples Hin) as (data & groups & _ & -> & Hne).
  cbn [Scatter.aggregate Scatter.libraries Scatter.s_meanDistance
       Scatter.s_distanceStandardDeviation].
  split.
  - intros Hnil. apply fmap_nil_inv in Hnil. done.
  - split; [apply meanDistance_mean|].
    apply distanceStandardDeviation_population.
Qed.

(** The group of the specification: distances 10, 20 and 30 give the mean
    20 and the standard deviation sqrt(200/3), which is 8.165 to three
    places. *)
Lemma sample_mean_and_population_deviation_witness :
  let A := scatter_library "total_reads" "A"
             (Inputs.experiment "A" (Some "s1") 10 [1]%Q None) in
  let B := scatter_library "total_reads" "B"
             (Inputs.experiment "B" (Some "s1") 20 [1]%Q None) in
  let C := scatter_library "total_reads" "C"
             (Inputs.experiment "C" (Some "s1") 30 [1]%Q None) in
  let D := scatter_library "total_reads" "D"
             (Inputs.experiment "D" None (-40) [1]%Q None) in
  let s := Scatter.aggregate [A; B; C] in
  let samples := [("s1", s); ("D", Scatter.aggregate [D])] in
  Scatter.samples Inputs.replicates "total_reads" = Ok samples
  /\ ("s1", s) ∈ samples
  /\ Scatter.x <$> Scatter.libraries s = [10; 20; 30]%Q
  /\ (Scatter.s_meanDistance s == 20)%Q
  /\ Scatter.s_distanceStandardDeviation s = sqrt (200 / 3)
  /\ (8164 / 1000 < Scatter.s_distanceStandardDeviation s < 8166 / 1000)%R.
Proof.
  intros A B C D s samples.
  assert (Scatter.samples Inputs.replicates "total_reads" = Ok samples) as Hsamples.
  { unfold Scatter.samples.
    assert (Scatter.collect Inputs.replicates "total_reads"
            = Ok ([A; B; C; D], [("s1", [A; B; C]); ("D", [D])])) as ->
      by (vm_compute; reflexivity).
    reflexivity. }
  assert (("s1", s) ∈ samples) as Hin by apply list_elem_of_here.
  destruct (sample_mean_and_population_deviation
              Inputs.replicates "total_reads" samples "s1" s Hsamples Hin)
    as (_ & Hmean & Hsd & _ & _).
  assert (Scatter.s_distanceStandardDeviation s = sqrt (200 / 3)) as Hroot.
  { rewrite Hsd. f_equal.
    rewrite (Qeq_eqR _ (200 # 3)) by (vm_compute; reflexivity).
    unfold Q2R. simpl. lra. }
  split; [exact Hsamples|]. split; [exact Hin|]. split; [reflexivity|].
  split; [rewrite Hmean; vm_compute; reflexivity|].
  split; [exact Hroot|].
  rewrite Hroot. split.
  - rewrite <- (sqrt_square (8164 / 1000)) by lra.
    apply sqrt_lt_1_alt. lra.
  - rewrite <- (sqrt_square (8166 / 1000)) at 1 by lra.
    apply sqrt_lt_1_alt. lra.
Defined.

(** *** The x-axis domain *)

(** Without data the domain is [[0, NaN]]. *)
Lemma xDomain_empty : Scatter.xDomain [] = (Some 0%Q, None).
Proof. done. Qed.

Lemma d3_extremes (values : list Q) (lo hi : Q) :
  extremes values lo hi ->
  exists mn mx,
    d3.min Js.lt values = Some mn /\ d3.max Js.lt values = Some mx
    /\ (mn == lo)%Q /\ (mx == hi)%Q.
Proof.
  intros [[Hlo Hlo_le] [Hhi Hhi_le]].
  pose proof (d3_min_Q values) as Hmin. pose proof (d3_max_Q values) as Hmax.
  destruct (d3.min Js.lt values) as [mn|]; [|subst; by apply not_elem_of_nil in Hlo].
  destruct (d3.max Js.lt values) as [mx|]; [|subst; by apply not_elem_of_nil in Hlo].
  destruct Hmin as [Hmn Hmn_le], Hmax as [Hmx Hmx_le].
  rewrite Forall_forall in Hlo_le, Hhi_le, Hmn_le, Hmx_le.
  exists mn, mx. split; [done|]. split; [done|]. split.
  - apply Qle_antisym; [by apply Hmn_le | by apply Hlo_le].
  - apply Qle_antisym; [by apply Hhi_le | by apply Hmx_le].
Qed.

(** C4: the x-axis domain of the scatter plot.  With [lo] the least and
    [hi] the greatest x of the data, and
    [limit = max(|lo|, |hi|) * 1.05]: the upper end of the domain is
    [limit]; the lower end is [-limit] when some x is negative and [0]
    when none is. *)
Theorem scatter_x_domain (data : list Scatter.Library) (lo hi : Q) :
  extremes (Scatter.x <$> data) lo hi ->
  exists lower upper,
    Scatter.xDomain data = (Some lower, Some upper)
    /\ (upper == Qmax (Qabs lo) (Qabs hi) * (105 # 100))%Q
    /\ ((exists d, d ∈ data /\ (Scatter.x d < 0)%Q) ->
        (lower == - (Qmax (Qabs lo) (Qabs hi) * (105 # 100)))%Q)
    /\ ((forall d, d ∈ data -> (0 <= Scatter.x d)%Q) -> lower = 0%Q).
Proof.
  intros Hext.
  destruct (d3_extremes _ _ _ Hext) as (mn & mx & Hmin & Hmax & Hmn & Hmx).
  assert (Scatter.limit data = Some (Qmax (Qabs mn) (Qabs mx) * (105 # 100))%Q) as Hlimit.
  { unfold Scatter.limit. rewrite Hmin, Hmax. done. }
  assert (Qmax (Qabs mn) (Qabs mx) * (105 # 100)
          == Qmax (Qabs lo) (Qabs hi) * (105 # 100))%Q as Heq.
  { apply Qmult_comp; [|reflexivity].
    apply Q.max_compat; by apply Qabs_wd. }
  destruct Hext as [[Hlo Hlo_le] _]. rewrite Forall_forall in Hlo_le.
  unfold Scatter.xDomain. rewrite Hmin, Hlimit.
  destruct (Js.lt mn 0) eqn:Hneg; simpl.
  - eexists _, _. split; [reflexivity|]. split; [exact Heq|]. split.
    + intros _. rewrite Heq. ring.
    + intros Hall. exfalso.
      apply Js_lt_true in Hneg. rewrite Hmn in Hneg.
      apply list_elem_of_fmap in Hlo as (d & -> & Hd).
      specialize (Hall d Hd). by apply Qle_not_lt in Hall.
  - eexists _, _. split; [reflexivity|]. split; [exact Heq|]. split; [|done].
    intros (d & Hd & Hdneg). exfalso.
    apply Js_lt_false in Hneg. rewrite Hmn in Hneg.
    assert (lo <= Scatter.x d)%Q as Hle
      by (apply Hlo_le, list_elem_of_fmap; by exists d).
    apply (Qle_not_lt _ _ Hneg). by eapply Qle_lt_trans.
Qed.

Lemma scatter_x_domain_witness :
  extremes (Scatter.x <$> Inputs.signed) (-30) 20
  /\ exists lower upper,
       Scatter.xDomain Inputs.signed = (Some lower, Some upper)
       /\ (upper == Qmax (Qabs (-30)) (Qabs 20) * (105 # 100))%Q
       /\ ((exists d, d ∈ Inputs.signed /\ (Scatter.x d < 0)%Q) ->
           (lower == - (Qmax (Qabs (-30)) (Qabs 20) * (105 # 100)))%Q)
       /\ ((forall d, d ∈ Inputs.signed -> (0 <= Scatter.x d)%Q) -> lower = 0%Q).
Proof.
  assert (extremes (Scatter.x <$> Inputs.signed) (-30) 20) as Hext.
  { repeat split.
    - apply list_elem_of_here.
    - vm_compute. repeat constructor; discriminate.
    - vm_compute. do 2 apply list_elem_of_further. apply list_elem_of_here.
    - vm_compute. repeat constructor; discriminate. }
  split; [exact Hext|].
  exact (scatter_x_domain Inputs.signed (-30) 20 Hext).
Defined.

(** ** All the transforms together *)





(** * Further properties *)

(** ** Legend selection state *)

Section JsMapMore.
Context {K V : Type} `{EqDecision K}.
Implicit Types (k : K) (v : V) (m : list (K * V)).

Lemma set_notin k v m : k ∉ JsMap.keys m -> JsMap.set k v m = m ++ [(k, v)].
Proof.
  induction m as [|[k' v'] m IH]; simpl; [done|].
  intros Hnin. apply not_elem_of_cons in Hnin as [Hne Hnin].
  rewrite decide_False; [|done]. by rewrite IH.
Qed.

Lemma set_app_notin k v v' (pre post : list (K * V)) :
  k ∉ JsMap.keys pre ->
  JsMap.set k v (pre ++ (k, v') :: post) = pre ++ (k, v) :: post.
Proof.
  induction pre as [|[k0 v0] pre IH]; simpl.
  - intros _. by rewrite decide_True.
  - intros Hnin. apply not_elem_of_cons in Hnin as [Hne Hnin].
    rewrite decide_False; [|done]. by rewrite IH.
Qed.

Lemma set_comm k1 k2 v1 v2 m :
  k1 <> k2 ->
  k1 ∈ JsMap.keys m \/ k2 ∈ JsMap.keys m ->
  JsMap.set k1 v1 (JsMap.set k2 v2 m) = JsMap.set k2 v2 (JsMap.set k1 v1 m).
Proof.
  intros Hne. induction m as [|[k v] m IH]; intros Hin.
  - destruct Hin as [Hin|Hin]; by apply not_elem_of_nil in Hin.
  - simpl. destruct (decide (k2 = k)) as [->|Hk2], (decide (k1 = k)) as [->|Hk1];
      simpl; try done.
    + rewrite decide_False, decide_True; done.
    + rewrite decide_True, decide_False; done.
    + rewrite !decide_False by done. f_equal. apply IH.
      destruct Hin as [Hin|Hin]; apply elem_of_cons in Hin as [Heq|?];
        [simpl in Heq; congruence | by left | simpl in Heq; congruence | by right].
Qed.

(** Setting every key of a map without duplicate keys to [v] maps every
    entry to [v], in place. *)
Lemma set_each_map v (pre post : list (K * V)) :
  NoDup (JsMap.keys (pre ++ post)) ->
  foldl (fun st s => JsMap.set s v st) (pre ++ post) (JsMap.keys post)
  = pre ++ ((fun entry : K * V => (entry.1, v)) <$> post).
Proof.
  revert pre. induction post as [|[k x] post IH]; intros pre Hnd; [done|].
  simpl. rewrite set_app_notin.
  - replace (pre ++ (k, v) :: post) with ((pre ++ [(k, v)]) ++ post)
      by (by rewrite <- app_assoc).
    rewrite IH; [by rewrite <- app_assoc|].
    unfold JsMap.keys in *. rewrite !fmap_app in *. simpl in *.
    by rewrite <- app_assoc.
  - unfold JsMap.keys in *. rewrite fmap_app in Hnd. simpl in Hnd.
    apply NoDup_app in Hnd as (_ & Hdisj & _). intros Hin.
    apply (Hdisj _ Hin). apply list_elem_of_here.
Qed.

End JsMapMore.

(** X1: after [initialize] on the empty [legendItemState] the keys of the
    state are the samples of the document and nothing else, no key occurs
    twice, and every entry is [true]. *)
Theorem initialize_domain (configuration : Configuration.t) (S : string) :
  (S ∈ JsMap.keys (initialize configuration legendItemState)
   <-> derivable configuration S)
  /\ NoDup (JsMap.keys (initialize configuration legendItemState))
  /\ (forall b, JsMap.get S (initialize configuration legendItemState) = Some b ->
                b = true).
Proof.
  split; [apply initialize_keys|]. split.
  - rewrite initialize_set_each. apply set_each_NoDup. constructor.
  - intros b Hb. pose proof (get_Some_keys _ _ _ Hb) as Hin.
    apply initialize_keys, derivable_elem_of in Hin.
    rewrite initialize_set_each, (set_each_get true _ _ _ Hin) in Hb. congruence.
Qed.

(** X2: [initialize] on a state that already has entries (a second document
    configured in the same page) removes nothing: every key stays, the
    samples of the new document are set to [true], and the entry of any
    other sample keeps its value. *)
Theorem initialize_keeps_other_entries
    (configuration : Configuration.t) (st : list (string * bool)) (S : string) :
  (derivable configuration S -> JsMap.get S (initialize configuration st) = Some true)
  /\ (~ derivable configuration S ->
      JsMap.get S (initialize configuration st) = JsMap.get S st)
  /\ (S ∈ JsMap.keys st -> S ∈ JsMap.keys (initialize configuration st)).
Proof.
  rewrite initialize_set_each, derivable_elem_of. repeat split.
  - apply set_each_get.
  - apply set_each_get_other.
  - intros Hin. apply set_each_elem_of_keys. by left.
Qed.

(** X3: clicks on two different samples that both have an entry commute. *)
Theorem selectLegendItem_commute (S1 S2 : string) (st : list (string * bool)) :
  S1 <> "" -> S2 <> "" -> S1 <> S2 ->
  S1 ∈ JsMap.keys st -> S2 ∈ JsMap.keys st ->
  selectLegendItem (Some S1) (selectLegendItem (Some S2) st)
  = selectLegendItem (Some S2) (selectLegendItem (Some S1) st).
Proof.
  intros Hne1 Hne2 Hne Hin1 Hin2.
  destruct (keys_get _ _ Hin1) as [b1 Hb1], (keys_get _ _ Hin2) as [b2 Hb2].
  assert (forall S b st', S <> "" -> JsMap.get S st' = Some b ->
            selectLegendItem (Some S) st' = JsMap.set S (negb b) st') as Hstep.
  { intros S b st' HS Hg. rewrite selectLegendItem_Some by done. rewrite Hg.
    by destruct b. }
  rewrite (Hstep S2 b2 st), (Hstep S1 b1 st) by done.
  rewrite (Hstep S1 b1), (Hstep S2 b2); try done.
  - apply set_comm; [done | by left].
  - rewrite get_set_ne; done.
  - rewrite get_set_ne; [done | congruence].
Qed.

Lemma selectLegendItem_commute_witness :
  "s1" <> "" /\ "s2" <> "" /\ "s1" <> "s2"
  /\ "s1" ∈ JsMap.keys Inputs.selection /\ "s2" ∈ JsMap.keys Inputs.selection
  /\ selectLegendItem (Some "s1") (selectLegendItem (Some "s2") Inputs.selection)
     = selectLegendItem (Some "s2") (selectLegendItem (Some "s1") Inputs.selection).
Proof.
  assert ("s1" <> "") as H1 by discriminate.
  assert ("s2" <> "") as H2 by discriminate.
  assert ("s1" <> "s2") as H12 by discriminate.
  assert ("s1" ∈ JsMap.keys Inputs.selection) as Hin1
    by (vm_compute; apply list_elem_of_here).
  assert ("s2" ∈ JsMap.keys Inputs.selection) as Hin2
    by (vm_compute; apply list_elem_of_further, list_elem_of_here).
  repeat (split; [done|]).
  exact (selectLegendItem_commute "s1" "s2" Inputs.selection H1 H2 H12 Hin1 Hin2).
Defined.

(** X4: on a map (no key twice), [selectAllLegendItems] and
    [deselectAllLegendItems] overwrite every entry in place, whatever it
    held: the result depends on the keys only, so each of the two is
    idempotent and cancels any earlier selection. *)
Theorem select_all_overwrites (st : list (string * bool)) :
  NoDup (JsMap.keys st) ->
  selectAllLegendItems st = (fun entry : string * bool => (entry.1, true)) <$> st
  /\ deselectAllLegendItems st = (fun entry : string * bool => (entry.1, false)) <$> st
  /\ selectAllLegendItems (selectAllLegendItems st) = selectAllLegendItems st
  /\ deselectAllLegendItems (deselectAllLegendItems st) = deselectAllLegendItems st
  /\ selectAllLegendItems (deselectAllLegendItems st) = selectAllLegendItems st
  /\ deselectAllLegendItems (selectAllLegendItems st) = deselectAllLegendItems st.
Proof.
  intros Hnd.
  assert (forall (v : bool) (m : list (string * bool)), NoDup (JsMap.keys m) ->
            foldl (fun st s => JsMap.set s v st) m (JsMap.keys m)
            = (fun entry : string * bool => (entry.1, v)) <$> m) as Hall.
  { intros v m Hm. apply (set_each_map v [] m Hm). }
  assert (forall (v : bool) (m : list (string * bool)),
            JsMap.keys ((fun entry : string * bool => (entry.1, v)) <$> m)
            = JsMap.keys m) as Hkeys.
  { intros v m. unfold JsMap.keys. rewrite <- list_fmap_compose.
    by apply list_fmap_ext. }
  assert (forall (v w : bool) (m : list (string * bool)),
            (fun entry : string * bool => (entry.1, v))
              <$> ((fun entry : string * bool => (entry.1, w)) <$> m)
            = (fun entry : string * bool => (entry.1, v)) <$> m) as Htwice.
  { intros v w m. rewrite <- list_fmap_compose. by apply list_fmap_ext. }
  unfold selectAllLegendItems, deselectAllLegendItems.
  rewrite !(Hall _ st Hnd).
  repeat split; rewrite Hall, ?Htwice; try done; by rewrite Hkeys.
Qed.

Lemma select_all_overwrites_witness :
  NoDup (JsMap.keys Inputs.selection)
  /\ selectAllLegendItems Inputs.selection
     = [("s1", true); ("s2", true); ("s3", true)]
  /\ deselectAllLegendItems (selectAllLegendItems Inputs.selection)
     = deselectAllLegendItems Inputs.selection.
Proof.
  assert (NoDup (JsMap.keys Inputs.selection)) as Hnd
    by (apply (bool_decide_unpack _); vm_compute; exact I).
  destruct (select_all_overwrites Inputs.selection Hnd) as (Hs & _ & _ & _ & _ & Hds).
  split; [exact Hnd|]. split; [rewrite Hs; reflexivity | exact Hds].
Defined.

(** X5: a click on a sample that has no entry creates one: the entry is
    appended, it is [true] (shown), and the entries before it are kept. *)
Theorem selectLegendItem_unknown_appends (S : string) (st : list (string * bool)) :
  S <> "" ->
  S ∉ JsMap.keys st ->
  selectLegendItem (Some S) st = st ++ [(S, true)].
Proof.
  intros Hne Hnin. rewrite selectLegendItem_Some by done.
  destruct (JsMap.get S st) as [b|] eqn:Hg.
  - by apply get_Some_keys in Hg.
  - by apply set_notin.
Qed.

Lemma selectLegendItem_unknown_appends_witness :
  "s9" <> "" /\ ("s9" ∉ JsMap.keys Inputs.selection)
  /\ selectLegendItem (Some "s9") Inputs.selection = Inputs.selection ++ [("s9", true)].
Proof.
  assert ("s9" <> "") as Hne by discriminate.
  assert ("s9" ∉ JsMap.keys Inputs.selection) as Hnin
    by (apply (bool_decide_unpack _); vm_compute; exact I).
  split; [exact Hne|]. split; [exact Hnin|].
  exact (selectLegendItem_unknown_appends "s9" Inputs.selection Hne Hnin).
Defined.

(** ** The fragment length plot *)

Lemma fragment_length_needs_reference configuration resolution result :
  plotFragmentLength.provideData configuration resolution = Ok result ->
  exists reference,
    Configuration.fragment_length_reference configuration = Some reference
    /\ default 0 (plotFragmentLength.maximumInterestingFragmentLength configuration)
       <= length (FragmentLengthReference.distribution reference).
Proof.
  intros Hresult.
  destruct (Configuration.fragment_length_reference configuration) as [reference|] eqn:Href.
  - exists reference. split; [done|].
    destruct (decide (default 0 (plotFragmentLength.maximumInterestingFragmentLength
                                   configuration)
                      <= length (FragmentLengthReference.distribution reference)))
      as [Hle|Hgt]; [done|].
    rewrite (fragment_length_provideData_short_reference _ _ _ Href) in Hresult;
      [done | lia].
  - by rewrite fragment_length_provideData_no_reference in Hresult.
Qed.

(** X6: the data provider of the fragment length plot returns a dataset
    exactly when the document has a [fragment_length_reference] whose
    distribution has at least [maximumInterestingFragmentLength] entries;
    in every other case it throws. *)
Theorem fragment_length_returns_iff (configuration : Configuration.t) (resolution : Z) :
  (exists result, plotFragmentLength.provideData configuration resolution = Ok result)
  <-> (exists reference,
         Configuration.fragment_length_reference configuration = Some reference
         /\ default 0 (plotFragmentLength.maximumInterestingFragmentLength configuration)
            <= length (FragmentLengthReference.distribution reference)).
Proof.
  split.
  - intros [result Hresult]. by eapply fragment_length_needs_reference.
  - intros (reference & Href & Hlen).
    destruct (fragment_length_provideData _ resolution _ Href Hlen) as (r & Hr & _).
    by exists r.
Qed.

Lemma fragment_length_result configuration resolution result :
  plotFragmentLength.provideData configuration resolution = Ok result ->
  exists reference,
    Configuration.fragment_length_reference configuration = Some reference
    /\ default 0 (plotFragmentLength.maximumInterestingFragmentLength configuration)
       <= length (FragmentLengthReference.distribution reference)
    /\ PlotDataset.xMax result
       = Z.of_nat <$> plotFragmentLength.maximumInterestingFragmentLength configuration
    /\ PlotDataset.reference_series result
       = Some {| ReferenceSeries.source := FragmentLengthReference.source reference;
                 ReferenceSeries.line :=
                   resampled (FragmentLengthReference.distribution reference) resolution
                     (default 0 (plotFragmentLength.maximumInterestingFragmentLength
                                   configuration)) |}
    /\ forall i,
         PlotDataset.series result !! i
         = fragment_length_series resolution
             (plotFragmentLength.maximumInterestingFragmentLength configuration) i
             <$> Configuration.metrics configuration !! i.
Proof.
  intros Hresult.
  destruct (fragment_length_needs_reference _ _ _ Hresult) as (reference & Href & Hlen).
  destruct (fragment_length_provideData _ resolution _ Href Hlen)
    as (r & Hr & Hx & Hrs & Hlookup).
  rewrite Hresult in Hr. inversion Hr; subst r.
  by exists reference.
Qed.

Lemma fragment_length_trailing
    (configuration : Configuration.t) (resolution : Z) (result : PlotDataset.t) :
  plotFragmentLength.provideData configuration resolution = Ok result ->
  (forall experimentID experiment,
     Configuration.metrics configuration !! experimentID = Some experiment ->
     exists series,
       PlotDataset.series result !! experimentID = Some series
       /\ Line.line series
          = trailing (Experiment.fragment_length_counts experiment) resolution 0
              (grid resolution
                 (default 0 (plotFragmentLength.maximumInterestingFragmentLength
                               configuration))))
  /\ (exists reference reference_series,
        Configuration.fragment_length_reference configuration = Some reference
        /\ PlotDataset.reference_series result = Some reference_series
        /\ ReferenceSeries.line reference_series
           = trailing (FragmentLengthReference.distribution reference) resolution 0
               (grid resolution
                  (default 0 (plotFragmentLength.maximumInterestingFragmentLength
                                configuration)))).
Proof.
  intros Hresult.
  destruct (fragment_length_result _ _ _ Hresult)
    as (reference & Href & Hlen & _ & Hrs & Hlookup).
  split.
  - intros i e He. eexists. split; [by rewrite Hlookup, He|].
    cbn [fragment_length_series Line.line].
    apply resampled_trailing. by eapply maximum_le.
  - eexists reference, _. split; [done|]. split; [exact Hrs|].
    cbn [ReferenceSeries.line]. by apply resampled_trailing.
Qed.

(** X7: what the resampling loop computes.  In the dataset of the fragment
    length plot, the line of every experiment and the reference line have
    one point at each position [fl] below [maximumInterestingFragmentLength]
    with [fl % resolution == 0]; the point holds the sum of the fractions
    after the previous such position (from position 0 for the first
    point), up to and including [fl], divided by [resolution].  The
    positions after the last point are summed and not pushed. *)
Theorem fragment_length_lines
    (configuration : Configuration.t) (resolution : Z) (result : PlotDataset.t) :
  plotFragmentLength.provideData configuration resolution = Ok result ->
  (forall experimentID experiment,
     Configuration.metrics configuration !! experimentID = Some experiment ->
     exists series,
       PlotDataset.series result !! experimentID = Some series
       /\ Line.line series
          = trailing (Experiment.fragment_length_counts experiment) resolution 0
              (grid resolution
                 (default 0 (plotFragmentLength.maximumInterestingFragmentLength
                               configuration))))
  /\ (exists reference reference_series,
        Configuration.fragment_length_reference configuration = Some reference
        /\ PlotDataset.reference_series result = Some reference_series
        /\ ReferenceSeries.line reference_series
           = trailing (FragmentLengthReference.distribution reference) resolution 0
               (grid resolution
                  (default 0 (plotFragmentLength.maximumInterestingFragmentLength
                                configuration))))
  /\ (forall n fl, fl ∈ grid resolution n <-> fl < n /\ divides resolution fl = true).
Proof.
  intros Hresult.
  destruct (fragment_length_result _ _ _ Hresult)
    as (reference & Href & Hlen & _ & Hrs & Hlookup).
  split; [|split].
  - intros i e He. eexists. split; [by rewrite Hlookup, He|].
    cbn [fragment_length_series Line.line].
    apply resampled_trailing. by eapply maximum_le.
  - eexists reference, _. split; [done|]. split; [exact Hrs|].
    cbn [ReferenceSeries.line]. by apply resampled_trailing.
  - intros n fl. apply elem_of_grid.
Qed.

Lemma fragment_length_lines_witness :
  exists result,
    plotFragmentLength.provideData Inputs.truncation 10 = Ok result
    /\ exists series,
         PlotDataset.series result !! "B" = Some series
         /\ Line.line series
            = trailing (Experiment.fragment_length_counts
                          (Inputs.experiment "B" None 20 (replicate 120 2%Q) None))
                       10 0 (grid 10 120).
Proof.
  destruct (fragment_length_provideData Inputs.truncation 10 (Inputs.reference 200) eq_refl)
    as (r & Hr & _); [vm_compute; lia|].
  exists r. split; [exact Hr|].
  destruct (fragment_length_lines Inputs.truncation 10 r Hr) as (Hseries & _ & _).
  apply (Hseries "B"). vm_compute. reflexivity.
Defined.

Lemma for_each_invariant {S I} (P : S -> Prop) (body : S -> I -> Js.result S)
    (l : list I) (s s' : S) :
  (forall s i s', P s -> body s i = Ok s' -> P s') ->
  P s -> for_each body s l = Ok s' -> P s'.
Proof.
  intros Hbody. revert s. induction l as [|i l IH]; intros s Hs Hrun.
  - simpl in Hrun. by inversion Hrun; subst.
  - rewrite for_each_cons in Hrun.
    destruct (body s i) as [s1|e] eqn:Hstep; [|done].
    simpl in Hrun. eapply IH; [|exact Hrun]. by eapply Hbody.
Qed.

(** [if (v > yMax) yMax = v]: the new [yMax] is above the old one and above
    [v]. *)
Lemma update_yMax (v yMax : Q) :
  (yMax <= (if Js.gt v yMax then v else yMax))%Q
  /\ (v <= (if Js.gt v yMax then v else yMax))%Q.
Proof.
  unfold Js.gt. destruct (Qle_bool v yMax) eqn:Hle; simpl.
  - split; [apply Qle_refl | by apply Qle_bool_iff].
  - split; [|apply Qle_refl]. apply Qlt_le_weak, Qnot_le_lt.
    intros H. apply Qle_bool_iff in H. congruence.
Qed.

Lemma Forall_le_trans (line : list Line.Point) (a b : Q) :
  (a <= b)%Q ->
  Forall (fun p => (Line.y p <= a)%Q) line ->
  Forall (fun p => (Line.y p <= b)%Q) line.
Proof.
  intros Hab Hall. eapply Forall_impl; [exact Hall|].
  intros p Hp. simpl in Hp. by eapply Qle_trans.
Qed.

Lemma step_covered counts resolution st fl st' :
  plotFragmentLength.step counts resolution st fl = Ok st' ->
  (plotFragmentLength.yMax st <= plotFragmentLength.yMax st')%Q
  /\ (Forall (fun p => (Line.y p <= plotFragmentLength.yMax st)%Q)
             (plotFragmentLength.line st) ->
      Forall (fun p => (Line.y p <= plotFragmentLength.yMax st')%Q)
             (plotFragmentLength.line st')).
Proof.
  unfold plotFragmentLength.step.
  destruct (counts !! fl) as [entry|]; simpl; [|done].
  destruct (divides resolution fl); intros Heq; inversion Heq; subst st'; simpl.
  - match goal with |- context [Js.gt ?v ?y] => destruct (update_yMax v y) as [Hy Hv] end.
    split; [exact Hy|]. intros Hall. apply Forall_app. split.
    + eapply Forall_le_trans; [exact Hy | exact Hall].
    + constructor; [exact Hv | constructor].
  - split; [apply Qle_refl | done].
Qed.

Lemma resample_covered counts resolution maximum yMax st :
  plotFragmentLength.resample counts resolution maximum yMax = Ok st ->
  (yMax <= plotFragmentLength.yMax st)%Q
  /\ Forall (fun p => (Line.y p <= plotFragmentLength.yMax st)%Q)
            (plotFragmentLength.line st).
Proof.
  unfold plotFragmentLength.resample. intros Hrun.
  apply (for_each_invariant
           (fun st' => (yMax <= plotFragmentLength.yMax st')%Q
                       /\ Forall (fun p => (Line.y p <= plotFragmentLength.yMax st')%Q)
                                 (plotFragmentLength.line st'))
           _ _ _ _) in Hrun; [done| |].
  - intros s i s' [Hle Hall] Hstep.
    destruct (step_covered _ _ _ _ _ Hstep) as [Hy Hline].
    split; [by eapply Qle_trans | by apply Hline].
  - simpl. split; [apply Qle_refl | constructor].
Qed.

Lemma covered_insert (result : PlotDataset.t) (series : gmap string Line.Series)
    (yMax : Q) (experimentID : string) (s : Line.Series) :
  covered result ->
  (PlotDataset.yMax result <= yMax)%Q ->
  Forall (fun p => (Line.y p <= yMax)%Q) (Line.line s) ->
  series = <[experimentID := s]> (PlotDataset.series result) ->
  (0 <= yMax)%Q
  /\ forall i s', series !! i = Some s' ->
                  Forall (fun p => (Line.y p <= yMax)%Q) (Line.line s').
Proof.
  intros [Hnonneg Hall] Hle Hs ->. split; [by eapply Qle_trans|].
  intros i s' Hi. destruct (decide (experimentID = i)) as [->|Hne].
  - rewrite lookup_insert_eq in Hi. by inversion Hi; subst.
  - rewrite lookup_insert_ne in Hi by done.
    eapply Forall_le_trans; [exact Hle|]. by eapply Hall.
Qed.

Lemma fragment_length_addSeries_covered configuration resolution maximum result i result' :
  covered result ->
  plotFragmentLength.addSeries configuration resolution maximum result i = Ok result' ->
  covered result'.
Proof.
  intros Hcov. unfold plotFragmentLength.addSeries.
  destruct (Configuration.metrics configuration !! i) as [e|]; simpl; [|done].
  destruct (plotFragmentLength.resample _ _ _ _) as [st|] eqn:Hrun; simpl; [|done].
  intros Heq. inversion Heq; subst result'. clear Heq.
  destruct (resample_covered _ _ _ _ _ Hrun) as [Hle Hline].
  unfold covered. cbn [PlotDataset.yMax PlotDataset.series].
  eapply (covered_insert result _ _ i _ Hcov Hle); [|reflexivity]. exact Hline.
Qed.

(** X8: in the dataset of the fragment length plot [yMax] is not negative,
    and no point of any line, the reference line included, lies above
    it. *)
Theorem fragment_length_yMax_covers
    (configuration : Configuration.t) (resolution : Z) (result : PlotDataset.t) :
  plotFragmentLength.provideData configuration resolution = Ok result ->
  covered result
  /\ forall reference_series,
       PlotDataset.reference_series result = Some reference_series ->
       Forall (fun p => (Line.y p <= PlotDataset.yMax result)%Q)
              (ReferenceSeries.line reference_series).
Proof.
  unfold plotFragmentLength.provideData.
  destruct (Configuration.fragment_length_reference configuration) as [reference|];
    simpl; [|done].
  destruct (for_each _ _ _) as [r|] eqn:Hloop; simpl; [|done].
  destruct (plotFragmentLength.resample _ _ _ _) as [st|] eqn:Hrun; simpl; [|done].
  intros Heq. inversion Heq; subst result. clear Heq.
  apply (for_each_invariant covered) in Hloop;
    [|intros s i s' Hs; by apply fragment_length_addSeries_covered|].
  - destruct (resample_covered _ _ _ _ _ Hrun) as [Hle Hline].
    destruct Hloop as [Hnonneg Hall].
    split; [split|]; cbn.
    + by eapply Qle_trans.
    + intros i s Hi. eapply Forall_le_trans; [exact Hle|]. by eapply Hall.
    + intros rs Hrs. by inversion Hrs; subst.
  - split; [apply Qle_refl|]. intros i s Hi. cbn in Hi.
    by rewrite lookup_empty in Hi.
Qed.

Lemma fragment_length_yMax_covers_witness :
  exists result,
    plotFragmentLength.provideData Inputs.block 2 = Ok result
    /\ covered result.
Proof.
  destruct (fragment_length_provideData Inputs.block 2 (Inputs.reference 4) eq_refl)
    as (r & Hr & _); [vm_compute; lia|].
  exists r. split; [exact Hr|].
  exact (proj1 (fragment_length_yMax_covers Inputs.block 2 r Hr)).
Defined.

Lemma grid_one n : grid 1 n = seq 0 n.
Proof.
  induction n as [|n IH]; [done|].
  rewrite grid_S, seq_S, IH. f_equal. unfold divides. simpl.
  by rewrite Z.rem_1_r.
Qed.

Lemma grid_zero n : grid 0 n = [].
Proof.
  induction n as [|n IH]; [done|]. by rewrite grid_S, IH.
Qed.

Lemma fractions_one counts fl entry :
  counts !! fl = Some entry -> fractions counts fl (S fl) = [or_zero entry.2].
Proof.
  intros Hentry. by rewrite (fractions_snoc _ _ _ entry), fractions_nil.
Qed.

(** Consecutive positions: every point holds its own position only. *)
Lemma trailing_consecutive counts resolution a k i :
  i < k ->
  trailing counts resolution a (seq a k) !! i
  = Some {| Line.x := Z.of_nat (a + i);
            Line.y := (foldl Qplus 0 (fractions counts (a + i) (S (a + i)))
                       / inject_Z resolution)%Q |}.
Proof.
  revert a i. induction k as [|k IH]; intros a i Hi; [lia|].
  simpl. destruct i as [|i]; simpl.
  - by rewrite Nat.add_0_r.
  - rewrite IH by lia. by replace (S a + i) with (a + S i) by lia.
Qed.

Lemma length_trailing counts resolution start positions :
  length (trailing counts resolution start positions) = length positions.
Proof.
  revert start. induction positions as [|fl positions IH]; intros start; [done|].
  simpl. by rewrite IH.
Qed.

(** X9: at resolution 1 nothing is smoothed: the line of an experiment
    has one point per position below [maximumInterestingFragmentLength],
    and the point at position [fl] is the fraction at [fl] ([0] for a
    fraction that is [0] or missing). *)
Theorem resolution_one_keeps_every_position
    (configuration : Configuration.t) (result : PlotDataset.t)
    (experimentID : string) (experiment : Experiment.t) (fl : nat) (entry : Z * Q) :
  plotFragmentLength.provideData configuration 1 = Ok result ->
  Configuration.metrics configuration !! experimentID = Some experiment ->
  fl < default 0 (plotFragmentLength.maximumInterestingFragmentLength configuration) ->
  Experiment.fragment_length_counts experiment !! fl = Some entry ->
  exists series p,
    PlotDataset.series result !! experimentID = Some series
    /\ length (Line.line series)
       = default 0 (plotFragmentLength.maximumInterestingFragmentLength configuration)
    /\ Line.line series !! fl = Some p
    /\ Line.x p = Z.of_nat fl
    /\ (Line.y p == or_zero entry.2)%Q.
Proof.
  intros Hresult Hexp Hfl Hentry.
  destruct (fragment_length_trailing _ _ _ Hresult) as (Hseries & _).
  destruct (Hseries _ _ Hexp) as (series & Hs & Hline).
  rewrite grid_one in Hline.
  eexists series, _. split; [exact Hs|]. rewrite Hline. split; [|split; [|split]].
  - by rewrite length_trailing, length_seq.
  - by apply trailing_consecutive.
  - done.
  - cbn [Line.y]. simpl "+". rewrite (fractions_one _ _ _ Hentry).
    cbn [foldl]. change (inject_Z 1) with 1%Q. field.
Qed.

Lemma resolution_one_keeps_every_position_witness :
  exists result series p,
    plotFragmentLength.provideData Inputs.block 1 = Ok result
    /\ PlotDataset.series result !! "A" = Some series
    /\ length (Line.line series) = 4
    /\ Line.line series !! 2 = Some p
    /\ Line.x p = 2%Z
    /\ (Line.y p == 6)%Q.
Proof.
  destruct (fragment_length_provideData Inputs.block 1 (Inputs.reference 4) eq_refl)
    as (r & Hr & _); [vm_compute; lia|].
  destruct (resolution_one_keeps_every_position Inputs.block r "A"
              (Inputs.experiment "A" (Some "s1") 10 [2; 4; 6; 8]%Q None) 2 (2%Z, 6%Q) Hr)
    as (series & p & Hs & Hlen & Hp & Hx & Hy);
    [vm_compute; reflexivity | vm_compute; lia | vm_compute; reflexivity |].
  exists r, series, p. repeat split; try done.
Defined.

Lemma resample_zero counts maximum yMax st :
  plotFragmentLength.resample counts 0 maximum yMax = Ok st ->
  plotFragmentLength.yMax st = yMax /\ plotFragmentLength.line st = [].
Proof.
  unfold plotFragmentLength.resample. intros Hrun.
  apply (for_each_invariant
           (fun st' => plotFragmentLength.yMax st' = yMax
                       /\ plotFragmentLength.line st' = []) _ _ _ _) in Hrun;
    [done| |done].
  intros s i s' [Hy Hl]. unfold plotFragmentLength.step.
  destruct (counts !! i) as [entry|]; simpl; [|done].
  intros Heq. by inversion Heq; subst.
Qed.

Lemma provideData_zero_yMax configuration result :
  plotFragmentLength.provideData configuration 0 = Ok result ->
  PlotDataset.yMax result = 0%Q.
Proof.
  unfold plotFragmentLength.provideData.
  destruct (Configuration.fragment_length_reference configuration) as [reference|];
    simpl; [|done].
  destruct (for_each _ _ _) as [r|] eqn:Hloop; simpl; [|done].
  destruct (plotFragmentLength.resample _ _ _ _) as [st|] eqn:Hrun; simpl; [|done].
  intros [= <-]. cbn.
  destruct (resample_zero _ _ _ _ Hrun) as [-> _]. clear Hrun st.
  apply (for_each_invariant (fun r' => PlotDataset.yMax r' = 0%Q)) in Hloop;
    [done| |done].
  intros s i s' Hs. unfold plotFragmentLength.addSeries.
  destruct (Configuration.metrics configuration !! i) as [e|]; simpl; [|done].
  destruct (plotFragmentLength.resample (Experiment.fragment_length_counts e) _ _ _)
    as [st'|] eqn:Hrun'; simpl; [|done].
  intros [= <-]. cbn.
  by destruct (resample_zero _ _ _ _ Hrun') as [-> _].
Qed.

(** X10: with resolution 0 (or one that does not parse, which the
    remainder test treats alike) the function still returns, but no line
    has any point, the reference line included, and [yMax] stays [0]. *)
Theorem resolution_zero_draws_nothing
    (configuration : Configuration.t) (result : PlotDataset.t) :
  plotFragmentLength.provideData configuration 0 = Ok result ->
  PlotDataset.yMax result = 0%Q
  /\ (forall experimentID series,
        PlotDataset.series result !! experimentID = Some series ->
        Line.line series = [])
  /\ (forall reference_series,
        PlotDataset.reference_series result = Some reference_series ->
        ReferenceSeries.line reference_series = []).
Proof.
  intros Hresult.
  destruct (fragment_length_trailing _ _ _ Hresult) as (Hseries & Href).
  split; [exact (provideData_zero_yMax _ _ Hresult)|]. split.
  - intros i series Hi.
    destruct (Configuration.metrics configuration !! i) as [e|] eqn:He.
    + destruct (Hseries _ _ He) as (series' & Hs' & Hline).
      rewrite Hi in Hs'. inversion Hs'; subst series'.
      by rewrite Hline, grid_zero.
    + destruct (fragment_length_result _ _ _ Hresult) as (_ & _ & _ & _ & _ & Hlookup).
      by rewrite Hlookup, He in Hi.
  - intros rs Hrs. destruct Href as (reference & rs' & _ & Hrs' & Hline).
    rewrite Hrs in Hrs'. inversion Hrs'; subst rs'. by rewrite Hline, grid_zero.
Qed.

Lemma resolution_zero_draws_nothing_witness :
  exists result,
    plotFragmentLength.provideData Inputs.block 0 = Ok result
    /\ PlotDataset.yMax result = 0%Q
    /\ (forall experimentID series,
          PlotDataset.series result !! experimentID = Some series ->
          Line.line series = []).
Proof.
  destruct (fragment_length_provideData Inputs.block 0 (Inputs.reference 4) eq_refl)
    as (r & Hr & _); [vm_compute; lia|].
  destruct (resolution_zero_draws_nothing Inputs.block r Hr) as (Hy & Hlines & _).
  by exists r.
Defined.

(** ** The cumulative peak curves *)

Lemma carried_lookup percentiles p v :
  percentiles !! p = Some v -> carried percentiles p = v.
Proof.
  intros Hp. rewrite carried_in_range by (by eapply lookup_lt_Some).
  by apply nth_lookup_Some.
Qed.

Lemma peak_curve_follows_array array yLabel configuration experimentID experiment :
  Configuration.metrics configuration !! experimentID = Some experiment ->
  exists result series,
    PeakCurve.provideData array yLabel configuration = Ok result
    /\ PlotDataset.series result !! experimentID = Some series
    /\ Line.x <$> Line.line series = Z.of_nat <$> seq 1 100
    /\ (forall k v,
          k < 100 ->
          PeakCurve.percentiles array experiment !! k = Some v ->
          Line.line series !! k = Some {| Line.x := Z.of_nat k + 1; Line.y := v |})
    /\ (PeakCurve.percentiles array experiment = [] ->
        Forall (fun p => Line.y p = 0%Q) (Line.line series)).
Proof.
  intros Hexp.
  destruct (peak_provideData array yLabel configuration) as (r & Hr & _ & _ & Hlookup).
  exists r, (peak_series array experimentID experiment).
  split; [done|]. split; [by rewrite Hlookup, Hexp|].
  unfold peak_series, curve_points. cbn [Line.line]. split; [|split].
  - rewrite <- list_fmap_compose. rewrite <- (fmap_S_seq 0), <- list_fmap_compose.
    apply list_fmap_ext. intros _ p _. simpl. lia.
  - intros k v Hk Hv. rewrite list_lookup_fmap, lookup_seq_lt by lia. simpl.
    by rewrite (carried_lookup _ _ _ Hv).
  - intros ->. apply Forall_fmap, Forall_forall. intros p _. simpl.
    apply carried_empty.
Qed.

(** X11: each of the two cumulative peak plots gives every experiment that
    has [peak_percentiles] a curve of exactly 100 points, at x = 1, ..., 100;
    the point at index [k] holds entry [k] of the array as long as the
    array has one (entries from the 100th on are never read), and an empty
    array gives a curve that is 0 everywhere. *)
Theorem peak_curves_follow_array
    (configuration : Configuration.t) (experimentID : string)
    (experiment : Experiment.t) (peak_percentiles : PeakPercentiles.t) :
  Configuration.metrics configuration !! experimentID = Some experiment ->
  Experiment.peak_percentiles experiment = Some peak_percentiles ->
  (exists result series,
     plotPeakReadCounts.provideData configuration = Ok result
     /\ PlotDataset.series result !! experimentID = Some series
     /\ Line.x <$> Line.line series = Z.of_nat <$> seq 1 100
     /\ (forall k v,
           k < 100 ->
           PeakPercentiles.cumulative_fraction_of_hqaa peak_percentiles !! k = Some v ->
           Line.line series !! k = Some {| Line.x := Z.of_nat k + 1; Line.y := v |})
     /\ (PeakPercentiles.cumulative_fraction_of_hqaa peak_percentiles = [] ->
         Forall (fun p => Line.y p = 0%Q) (Line.line series)))
  /\ (exists result series,
        plotPeakTerritory.provideData configuration = Ok result
        /\ PlotDataset.series result !! experimentID = Some series
        /\ Line.x <$> Line.line series = Z.of_nat <$> seq 1 100
        /\ (forall k v,
              k < 100 ->
              PeakPercentiles.cumulative_fraction_of_territory peak_percentiles !! k
                = Some v ->
              Line.line series !! k = Some {| Line.x := Z.of_nat k + 1; Line.y := v |})
        /\ (PeakPercentiles.cumulative_fraction_of_territory peak_percentiles = [] ->
            Forall (fun p => Line.y p = 0%Q) (Line.line series))).
Proof.
  intros Hexp Hpp.
  assert (forall array, PeakCurve.percentiles array experiment = array peak_percentiles)
    as Harray by (intros array; unfold PeakCurve.percentiles; by rewrite Hpp).
  split.
  - destruct (peak_curve_follows_array PeakPercentiles.cumulative_fraction_of_hqaa
                "Cumulative fraction of high-quality autosomal reads"
                configuration experimentID experiment Hexp) as (r & s & H).
    rewrite Harray in H. by exists r, s.
  - destruct (peak_curve_follows_array PeakPercentiles.cumulative_fraction_of_territory
                "Cumulative fraction of peak territory"
                configuration experimentID experiment Hexp) as (r & s & H).
    rewrite Harray in H. by exists r, s.
Qed.

Lemma peak_curves_follow_array_witness :
  exists result series,
    plotPeakReadCounts.provideData Inputs.peaks = Ok result
    /\ PlotDataset.series result !! "A" = Some series
    /\ Line.line series !! 9 = Some {| Line.x := 10; Line.y := (10 # 40)%Q |}.
Proof.
  destruct (peak_curves_follow_array Inputs.peaks "A"
              (Inputs.experiment "A" (Some "s1") 10 [1]%Q (Some Inputs.forty))
              Inputs.forty)
    as [(r & s & Hr & Hs & _ & Hk & _) _]; [vm_compute; reflexivity | reflexivity |].
  exists r, s. split; [exact Hr|]. split; [exact Hs|].
  apply (Hk 9 (10 # 40)%Q); [lia | vm_compute; reflexivity].
Defined.

Lemma peak_step_covered percentiles st percentile :
  (PeakCurve.yMax st <= PeakCurve.yMax (PeakCurve.step percentiles st percentile))%Q
  /\ (Forall (fun p => (Line.y p <= PeakCurve.yMax st)%Q) (PeakCurve.line st) ->
      Forall (fun p => (Line.y p
                        <= PeakCurve.yMax (PeakCurve.step percentiles st percentile))%Q)
             (PeakCurve.line (PeakCurve.step percentiles st percentile))).
Proof.
  unfold PeakCurve.step. cbn [PeakCurve.yMax PeakCurve.line].
  match goal with |- context [Js.gt ?v ?y] => destruct (update_yMax v y) as [Hy Hv] end.
  split; [exact Hy|]. intros Hall. apply Forall_app. split.
  - eapply Forall_le_trans; [exact Hy | exact Hall].
  - constructor; [exact Hv | constructor].
Qed.

Lemma peak_curve_covered percentiles yMax :
  (yMax <= PeakCurve.yMax (PeakCurve.curve percentiles yMax))%Q
  /\ Forall (fun p => (Line.y p <= PeakCurve.yMax (PeakCurve.curve percentiles yMax))%Q)
            (PeakCurve.line (PeakCurve.curve percentiles yMax)).
Proof.
  unfold PeakCurve.curve.
  assert (forall (l : list nat) st,
            Forall (fun p => (Line.y p <= PeakCurve.yMax st)%Q) (PeakCurve.line st) ->
            (PeakCurve.yMax st <= PeakCurve.yMax (foldl (PeakCurve.step percentiles) st l))%Q
            /\ Forall (fun p => (Line.y p
                                 <= PeakCurve.yMax (foldl (PeakCurve.step percentiles) st l))%Q)
                      (PeakCurve.line (foldl (PeakCurve.step percentiles) st l))) as Hfold.
  { induction l as [|i l IH]; intros st Hst; [split; [apply Qle_refl | done]|].
    cbn [foldl]. destruct (peak_step_covered percentiles st i) as [Hy Hline].
    destruct (IH _ (Hline Hst)) as [Hy' Hline'].
    split; [by eapply Qle_trans | done]. }
  generalize (seq 0 100). intros l.
  destruct (Hfold l {| PeakCurve.cumulativeFraction := 0;
                       PeakCurve.yMax := yMax;
                       PeakCurve.line := [] |}) as [Hy Hline]; [constructor|].
  split; [exact Hy | exact Hline].
Qed.

Lemma peak_addSeries_covered array configuration result i result' :
  covered result ->
  PeakCurve.addSeries array configuration result i = Ok result' ->
  covered result'.
Proof.
  intros Hcov. unfold PeakCurve.addSeries.
  destruct (Configuration.metrics configuration !! i) as [e|]; [|done].
  cbv beta iota zeta delta [deref mbind result_bind].
  destruct (peak_curve_covered (PeakCurve.percentiles array e) (PlotDataset.yMax result))
    as [Hle Hline].
  revert Hle Hline.
  generalize (PeakCurve.curve (PeakCurve.percentiles array e) (PlotDataset.yMax result)).
  intros st Hle Hline Heq. injection Heq as <-.
  unfold covered. cbn [PlotDataset.yMax PlotDataset.series].
  eapply (covered_insert result _ _ i _ Hcov Hle); [|reflexivity]. exact Hline.
Qed.

(** X12: the two cumulative peak plots always return a dataset, with
    [xMax] 100, no reference line, a [yMax] that is not negative, and no
    point of any curve above [yMax]. *)
Theorem peak_yMax_covers (configuration : Configuration.t) :
  (exists result,
     plotPeakReadCounts.provideData configuration = Ok result
     /\ PlotDataset.xMax result = Some 100%Z
     /\ PlotDataset.reference_series result = None
     /\ covered result)
  /\ (exists result,
        plotPeakTerritory.provideData configuration = Ok result
        /\ PlotDataset.xMax result = Some 100%Z
        /\ PlotDataset.reference_series result = None
        /\ covered result).
Proof.
  assert (forall array yLabel,
            exists result,
              PeakCurve.provideData array yLabel configuration = Ok result
              /\ PlotDataset.xMax result = Some 100%Z
              /\ PlotDataset.reference_series result = None
              /\ covered result) as Hboth.
  { intros array yLabel.
    destruct (peak_provideData array yLabel configuration) as (r & Hr & Hx & Href & _).
    exists r. split; [exact Hr|]. split; [exact Hx|]. split; [exact Href|].
    unfold PeakCurve.provideData in Hr.
    apply (for_each_invariant covered) in Hr; [done| |].
    - intros s i s' Hs. by apply peak_addSeries_covered.
    - split; [apply Qle_refl|]. intros i s Hi. cbn in Hi.
      by rewrite lookup_empty in Hi. }
  split; apply Hboth.
Qed.

(** ** The mapping quality plot *)




(** ** The scatter plot *)

Lemma addLibrary_data configuration yAxisSource data samples i data' samples' :
  Scatter.addLibrary configuration yAxisSource (data, samples) i = Ok (data', samples') ->
  exists library,
    Scatter.makeLibrary configuration yAxisSource i = Some library
    /\ data' = data ++ [library].
Proof.
  unfold Scatter.addLibrary.
  destruct (Scatter.makeLibrary configuration yAxisSource i) as [library|]; simpl; [|done].
  destruct (JsMap.get (Scatter.sample library) samples) as [libraries|];
    intros Heq; injection Heq as <- <-; by exists library.
Qed.

Lemma collect_data configuration yAxisSource (ids : list string) data samples data' samples' :
  for_each (Scatter.addLibrary configuration yAxisSource) (data, samples) ids
    = Ok (data', samples') ->
  Some <$> data'
  = (Some <$> data) ++ (Scatter.makeLibrary configuration yAxisSource <$> ids).
Proof.
  revert data samples. induction ids as [|i ids IH]; intros data samples Hrun.
  - simpl in Hrun. injection Hrun as <- <-. by rewrite app_nil_r.
  - rewrite for_each_cons in Hrun.
    destruct (Scatter.addLibrary configuration yAxisSource (data, samples) i)
      as [[data1 samples1]|] eqn:Hstep; [|done].
    simpl in Hrun. apply IH in Hrun.
    destruct (addLibrary_data _ _ _ _ _ _ _ Hstep) as (library & Hlib & ->).
    rewrite Hrun, fmap_app, <- app_assoc. simpl. by rewrite Hlib.
Qed.

Lemma experimentIDs_NoDup configuration : NoDup (experimentIDs configuration).
Proof.
  unfold experimentIDs, Js.sort, Js.keys. rewrite merge_sort_Permutation.
  apply NoDup_fst_map_to_list.
Qed.

Lemma experimentIDs_Sorted configuration : Sorted string_le (experimentIDs configuration).
Proof.
  unfold experimentIDs, Js.sort. apply Sorted_merge_sort.
  intros a b. apply String.leb_total.
Qed.

(** The libraries of [data]: the experiments of the document. *)
Lemma collect_elem_of configuration yAxisSource data samples library :
  Scatter.collect configuration yAxisSource = Ok (data, samples) ->
  library ∈ data
  <-> exists experimentID experiment,
        Configuration.metrics configuration !! experimentID = Some experiment
        /\ library = scatter_library yAxisSource experimentID experiment.
Proof.
  intros Hc. apply collect_data in Hc. simpl in Hc.
  assert (library ∈ data <-> Some library ∈ Some <$> data) as ->.
  { rewrite list_elem_of_fmap. split.
    - intros Hin. by exists library.
    - intros (l & [= <-] & Hin). done. }
  rewrite Hc, list_elem_of_fmap. split.
  - intros (i & Hi & Hin). apply elem_of_experimentIDs in Hin as [e He].
    rewrite (makeLibrary_Some _ _ _ _ He) in Hi. injection Hi as ->. by exists i, e.
  - intros (i & e & He & ->). exists i.
    split; [by rewrite (makeLibrary_Some _ _ _ _ He)|].
    apply elem_of_experimentIDs. by eexists.
Qed.

(** X14: the loop of the scatter plot over the experiments never throws;
    [data] holds one library per experiment of the document, in the order
    of the sorted experiment IDs, each ID once. *)
Theorem scatter_data (configuration : Configuration.t) (yAxisSource : string) :
  exists data samples,
    Scatter.collect configuration yAxisSource = Ok (data, samples)
    /\ Some <$> data
       = Scatter.makeLibrary configuration yAxisSource <$> experimentIDs configuration
    /\ Scatter.experimentID <$> data = experimentIDs configuration
    /\ Sorted string_le (experimentIDs configuration)
    /\ NoDup (experimentIDs configuration)
    /\ (forall experimentID,
          experimentID ∈ experimentIDs configuration
          <-> is_Some (Configuration.metrics configuration !! experimentID)).
Proof.
  destruct (collect_grouped configuration yAxisSource) as (data & samples & Hc & _ & _).
  exists data, samples. split; [exact Hc|].
  pose proof (collect_data _ _ _ _ _ _ _ Hc) as Hdata. simpl in Hdata.
  split; [exact Hdata|]. split.
  - assert (forall (ids : list string) (libs : list Scatter.Library),
              (forall i, i ∈ ids -> is_Some (Configuration.metrics configuration !! i)) ->
              Some <$> libs = Scatter.makeLibrary configuration yAxisSource <$> ids ->
              Scatter.experimentID <$> libs = ids) as Hids.
    { induction ids as [|i ids IH]; intros [|lib libs] Hall Heq; try done.
      simpl in Heq. injection Heq as Hlib Hrest.
      destruct (Hall i) as [e He]; [apply list_elem_of_here|].
      rewrite (makeLibrary_Some _ _ _ _ He) in Hlib. injection Hlib as ->.
      simpl. f_equal. apply IH; [|done].
      intros j Hj. apply Hall. by apply list_elem_of_further. }
    apply Hids; [|exact Hdata]. intros i. apply elem_of_experimentIDs.
  - split; [apply experimentIDs_Sorted|]. split; [apply experimentIDs_NoDup|].
    intros i. apply elem_of_experimentIDs.
Qed.

Lemma libraries_of_nonempty S data :
  libraries_of S data <> [] <-> exists library, library ∈ data /\ Scatter.sample library = S.
Proof.
  unfold libraries_of. split.
  - intros Hne. destruct (filter _ data) as [|library l] eqn:Hf; [done|].
    exists library.
    assert (library ∈ filter (fun library => Scatter.sample library = S) data) as Hin
      by (rewrite Hf; apply list_elem_of_here).
    apply list_elem_of_filter in Hin as [? ?]. done.
  - intros (library & Hin & Hs) Hnil.
    assert (library ∈ filter (fun library => Scatter.sample library = S) data) as Hf
      by (by apply list_elem_of_filter).
    rewrite Hnil in Hf. by apply not_elem_of_nil in Hf.
Qed.

Lemma grouped_keys data samples S :
  grouped data samples -> S ∈ JsMap.keys samples <-> libraries_of S data <> [].
Proof.
  intros [_ Hget]. split.
  - intros Hin. apply keys_get in Hin as [l Hl]. rewrite Hget in Hl.
    by destruct (libraries_of S data).
  - intros Hne. specialize (Hget S). destruct (libraries_of S data) eqn:Hl; [done|].
    by eapply get_Some_keys.
Qed.

(** X15: [samples] partitions [data] by sample: no sample has two entries,
    an entry holds all the libraries of its sample (at least one) in the
    order of [data], and the samples that have an entry are the samples of
    the document, the same that [initialize] gives a selection entry: the
    legend lists what [legendItemState] knows. *)
Theorem scatter_samples_partition (configuration : Configuration.t) (yAxisSource : string) :
  exists data samples,
    Scatter.collect configuration yAxisSource = Ok (data, samples)
    /\ NoDup (JsMap.keys samples)
    /\ (forall S, S ∈ JsMap.keys samples <-> derivable configuration S)
    /\ (forall S libraries,
          (S, libraries) ∈ samples ->
          libraries = libraries_of S data /\ libraries <> [])
    /\ JsMap.keys samples ≡ₚ JsMap.keys (initialize configuration legendItemState).
Proof.
  destruct (collect_grouped configuration yAxisSource) as (data & samples & Hc & Hg & _).
  exists data, samples. split; [exact Hc|].
  assert (forall S, S ∈ JsMap.keys samples <-> derivable configuration S) as Hkeys.
  { intros S. rewrite (grouped_keys _ _ _ Hg), libraries_of_nonempty. split.
    - intros (library & Hin & <-).
      apply (collect_elem_of _ _ _ _ _ Hc) in Hin as (i & e & He & ->).
      by exists i, e.
    - intros (i & e & He & <-). exists (scatter_library yAxisSource i e).
      split; [|done]. apply (collect_elem_of _ _ _ _ _ Hc). by exists i, e. }
  split; [apply Hg|]. split; [exact Hkeys|]. split.
  - intros S libraries. by apply grouped_entry.
  - apply NoDup_Permutation; [apply Hg | |].
    + rewrite initialize_set_each. apply set_each_NoDup. constructor.
    + intros S. by rewrite Hkeys, initialize_keys.
Qed.





(** X17: a sample with a single library has that library's distance as
    minimum, maximum and mean, and standard deviation 0. *)
Theorem single_library_sample
    (configuration : Configuration.t) (yAxisSource : string)
    (samples : list (string * Scatter.Sample)) (S : string) (s : Scatter.Sample)
    (library : Scatter.Library) :
  Scatter.samples configuration yAxisSource = Ok samples ->
  (S, s) ∈ samples ->
  Scatter.libraries s = [library] ->
  Scatter.minDistance s = Some (Scatter.x library)
  /\ Scatter.maxDistance s = Some (Scatter.x library)
  /\ (Scatter.s_meanDistance s == Scatter.x library)%Q
  /\ Scatter.s_distanceStandardDeviation s = 0%R.
Proof.
  intros Hsamples Hin Hone.
  destruct (samples_entries _ _ _ _ _ Hsamples Hin) as (data & groups & _ & -> & _).
  cbn [Scatter.aggregate Scatter.libraries] in Hone. rewrite Hone.
  cbn [Scatter.aggregate Scatter.minDistance Scatter.maxDistance
       Scatter.s_meanDistance Scatter.s_distanceStandardDeviation].
  split; [done|]. split; [done|].
  assert (Scatter.meanDistance [library] == Scatter.x library)%Q as Hmean.
  { unfold Scatter.meanDistance. cbn [foldl length]. change (inject_Z (Z.of_nat 1)) with 1%Q.
    field. }
  split; [exact Hmean|].
  unfold Scatter.distanceStandardDeviation.
  assert (Scatter.meanSquareOfDifferences [library] == 0)%Q as Hsq.
  { unfold Scatter.meanSquareOfDifferences, Scatter.squaresOfDifferences.
    cbn [fmap list_fmap foldl length]. change (inject_Z (Z.of_nat 1)) with 1%Q.
    rewrite Hmean. simpl. field. }
  rewrite (Qeq_eqR _ _ Hsq). replace (Q2R 0) with 0%R by (unfold Q2R; simpl; lra).
  apply sqrt_0.
Qed.

Lemma single_library_sample_witness :
  let D := scatter_library "total_reads" "D"
             (Inputs.experiment "D" None (-40) [1]%Q None) in
  exists samples s,
    Scatter.samples Inputs.replicates "total_reads" = Ok samples
    /\ ("D", s) ∈ samples
    /\ Scatter.libraries s = [D]
    /\ Scatter.minDistance s = Some (-40)%Q
    /\ Scatter.s_distanceStandardDeviation s = 0%R.
Proof.
  intros D.
  set (A := scatter_library "total_reads" "A"
              (Inputs.experiment "A" (Some "s1") 10 [1]%Q None)).
  set (B := scatter_library "total_reads" "B"
              (Inputs.experiment "B" (Some "s1") 20 [1]%Q None)).
  set (C := scatter_library "total_reads" "C"
              (Inputs.experiment "C" (Some "s1") 30 [1]%Q None)).
  assert (Scatter.samples Inputs.replicates "total_reads"
          = Ok [("s1", Scatter.aggregate [A; B; C]); ("D", Scatter.aggregate [D])])
    as Hsamples.
  { unfold Scatter.samples.
    assert (Scatter.collect Inputs.replicates "total_reads"
            = Ok ([A; B; C; D], [("s1", [A; B; C]); ("D", [D])])) as ->
      by (vm_compute; reflexivity).
    reflexivity. }
  assert (("D", Scatter.aggregate [D])
            ∈ [("s1", Scatter.aggregate [A; B; C]); ("D", Scatter.aggregate [D])]) as Hin
    by apply list_elem_of_further, list_elem_of_here.
  destruct (single_library_sample Inputs.replicates "total_reads" _ "D" _ D Hsamples Hin
              eq_refl) as (Hmn & _ & _ & Hsd).
  eexists _, _. split; [exact Hsamples|]. split; [exact Hin|].
  split; [reflexivity|]. split; [exact Hmn | exact Hsd].
Defined.

(** X18: the x-axis domain of the scatter plot covers the data: with at
    least one library both ends of the domain are numbers and the distance
    of every library lies between them. *)
Theorem scatter_x_domain_covers (data : list Scatter.Library) (d : Scatter.Library) :
  d ∈ data ->
  exists lower upper,
    Scatter.xDomain data = (Some lower, Some upper)
    /\ (lower <= Scatter.x d <= upper)%Q.
Proof.
  intros Hd.
  assert (Scatter.x d ∈ Scatter.x <$> data) as Hx
    by (apply list_elem_of_fmap; by exists d).
  pose proof (d3_min_Q (Scatter.x <$> data)) as Hmin.
  pose proof (d3_max_Q (Scatter.x <$> data)) as Hmax.
  unfold Scatter.xDomain, Scatter.limit.
  destruct (d3.min Js.lt (Scatter.x <$> data)) as [mn|];
    [|rewrite Hmin in Hx; by apply not_elem_of_nil in Hx].
  destruct (d3.max Js.lt (Scatter.x <$> data)) as [mx|];
    [|rewrite Hmax in Hx; by apply not_elem_of_nil in Hx].
  destruct Hmin as [_ Hmn], Hmax as [_ Hmx]. rewrite Forall_forall in Hmn, Hmx.
  specialize (Hmn _ Hx). specialize (Hmx _ Hx). simpl.
  pose proof (Q.le_max_l (Qabs mn) (Qabs mx)) as Hl.
  pose proof (Q.le_max_r (Qabs mn) (Qabs mx)) as Hr.
  pose proof (Qabs_nonneg mn) as H0.
  pose proof (Qle_Qabs mx) as Habs_mx.
  pose proof (proj1 (Qabs_Qle_condition mn (Qabs mn)) (Qle_refl _)) as [Habs_mn _].
  set (m := Qmax (Qabs mn) (Qabs mx)) in *.
  destruct (Js.lt mn 0) eqn:Hneg.
  - eexists _, _. split; [reflexivity|]. split; Lqa.lra.
  - apply Js_lt_false in Hneg. eexists _, _. split; [reflexivity|]. split; Lqa.lra.
Qed.

Lemma scatter_x_domain_covers_witness :
  exists d lower upper,
    d ∈ Inputs.signed
    /\ Scatter.x d = (-30)%Q
    /\ Scatter.xDomain Inputs.signed = (Some lower, Some upper)
    /\ (lower <= -30 <= upper)%Q.
Proof.
  set (d := {| Scatter.experimentID := "E"; Scatter.library := "L";
               Scatter.sample := "s1"; Scatter.description := None;
               Scatter.x := (-30)%Q; Scatter.y := None |}).
  assert (d ∈ Inputs.signed) as Hd by apply list_elem_of_here.
  destruct (scatter_x_domain_covers Inputs.signed d Hd) as (lower & upper & Hdom & Hle).
  by exists d, lower, upper.
Defined.

(** ** [closest] and the click on a legend item *)

Lemma closest_loop_visits (visited : list Dom.Node) (top : Dom.Node) (className : string)
  (result : option Dom.Node) :
  Dom.closest_loop (visited ++ [top]) className result =
  foldl (fun result node => if Dom.contains node className then Some node else result)
    result visited.
Proof.
revert result. induction visited as [|node visited IH]; intros result; [done|].
cbn [foldl]. rewrite <- IH. destruct visited; reflexivity.
Qed.

Lemma closest_visits (visited : list Dom.Node) (top : Dom.Node) (className : string) :
  Dom.closest (visited ++ [top]) className =
  Ok (foldl (fun result node => if Dom.contains node className then Some node else result)
        None visited).
Proof.
unfold Dom.closest. rewrite <- (closest_loop_visits visited top).
destruct visited; reflexivity.
Qed.

Lemma foldl_no_match (above : list Dom.Node) (className : string) (result : option Dom.Node) :
  Forall (fun node => Dom.contains node className = false) above ->
  foldl (fun result node => if Dom.contains node className then Some node else result)
    result above = result.
Proof.
intros Hall. revert result. induction Hall as [|node above Hnode _ IH]; intros result; [done|].
simpl. rewrite Hnode. apply IH.
Qed.

(** X19. [closest] returns the matching ancestor that is farthest from the
    start node: an ancestor with the class, with no ancestor with the class
    above it (the node without parent is not looked at), is the result
    whatever lies between it and the start node. *)
Theorem closest_outermost (below above : list Dom.Node) (a top : Dom.Node)
  (className : string) :
  Dom.contains a className = true ->
  Forall (fun node => Dom.contains node className = false) above ->
  Dom.closest (below ++ a :: above ++ [top]) className = Ok (Some a).
Proof.
intros Ha Habove.
replace (below ++ a :: above ++ [top]) with ((below ++ a :: above) ++ [top])
  by (rewrite <- app_assoc; reflexivity).
rewrite closest_visits, foldl_app. simpl. rewrite Ha.
by rewrite foldl_no_match.
Qed.

Lemma closest_outermost_witness :
  let inner := {| Dom.classList := ["legendItem"]; Dom.dataset_sample := Some "inner" |} in
  let outer := {| Dom.classList := ["box"; "legendItem"]; Dom.dataset_sample := Some "outer" |} in
  let plain := {| Dom.classList := []; Dom.dataset_sample := None |} in
  Dom.closest ([inner] ++ outer :: [plain] ++ [plain]) "legendItem" = Ok (Some outer).
Proof.
intros inner outer plain. apply closest_outermost.
- reflexivity.
- repeat constructor.
Defined.

(** X20. [closest] returns [null] exactly when no ancestor below the node
    without parent has the class; and a start node without parent makes it
    throw. *)
Theorem closest_null_iff (visited : list Dom.Node) (top : Dom.Node) (className : string) :
  (Dom.closest (visited ++ [top]) className = Ok None <->
   Forall (fun node => Dom.contains node className = false) visited) /\
  Dom.closest [] className = Throw TypeError.
Proof.
split; [|reflexivity].
rewrite closest_visits. split.
- intros Heq. injection Heq as Heq. revert Heq.
  induction visited as [|node visited IH] using rev_ind; intros Heq; [constructor|].
  rewrite foldl_app in Heq. simpl in Heq.
  destruct (Dom.contains node className) eqn:Hnode; [discriminate|].
  apply Forall_app. split; [by apply IH | by repeat constructor].
- intros Hall. by rewrite foldl_no_match.
Qed.



(** ** [debounce] *)

Lemma debounce_burst (A : Type) (wait t1 : Z) (a1 : A) (calls : list (Z * A))
  (applied : list A) :
  Forall (fun call => (call.1 - t1 <= wait)%Z) calls ->
  foldl (Debounce.step wait)
    ({| Debounce.timeout := Some a1; Debounce.last := Some t1 |}, applied)
    (map (fun call => Debounce.Call call.1 call.2) calls) =
  ({| Debounce.timeout := Some a1; Debounce.last := Some t1 |}, applied).
Proof.
induction 1 as [|[t a] calls Ht _ IH]; [done|].
simpl in *. unfold Debounce.call. simpl.
replace (wait <? t - t1)%Z with false by (symmetry; apply Z.ltb_ge; lia).
simpl. apply IH.
Qed.

(** X22. A call that finds no timer pending sets one; the calls that
    follow within [wait] of it are dropped, they neither move the timer nor
    replace the arguments; and when the timer fires, the function is applied
    once, to the arguments of the first call. *)
Theorem debounce_first_call_wins (A : Type) (wait t1 : Z) (a1 : A) (calls : list (Z * A))
  (st : Debounce.State A) :
  Debounce.timeout st = None ->
  Forall (fun call => (call.1 - t1 <= wait)%Z) calls ->
  Debounce.run wait
    (Debounce.Call t1 a1 :: map (fun call => Debounce.Call call.1 call.2) calls
       ++ [Debounce.Fire]) st =
  ({| Debounce.timeout := None; Debounce.last := Some t1 |}, [a1]).
Proof.
intros Hnone Hcalls. unfold Debounce.run. simpl.
unfold Debounce.call at 1. rewrite Hnone. simpl.
rewrite foldl_app, debounce_burst by done. reflexivity.
Qed.

Lemma debounce_first_call_wins_witness :
  Debounce.run 500
    (Debounce.Call 1000 "a" :: map (fun call => Debounce.Call call.1 call.2)
       [(1100%Z, "b"); (1500%Z, "c")] ++ [Debounce.Fire]) Debounce.initial =
  ({| Debounce.timeout := None; Debounce.last := Some 1000%Z |}, ["a"]).
Proof.
apply debounce_first_call_wins.
- reflexivity.
- repeat constructor; simpl; lia.
Defined.

Lemma debounce_step_sublist (A : Type) (wait : Z) (e : Debounce.event A)
  (st : Debounce.State A * list A) (seen : list A) :
  st.2 ++ option_list (Debounce.timeout st.1) `sublist_of` seen ->
  (Debounce.step wait st e).2 ++ option_list (Debounce.timeout (Debounce.step wait st e).1)
    `sublist_of` seen ++ called [e].
Proof.
destruct st as [[timeout last] applied]. intros Hsub. destruct e as [now args|]; simpl in *.
- unfold Debounce.call. simpl.
  destruct (negb (bool_decide (is_Some timeout)) || (wait <? now - default 0 last)%Z); simpl.
  + apply sublist_app; [|done].
    etrans; [|exact Hsub]. apply sublist_inserts_r. done.
  + by apply sublist_inserts_r.
- rewrite app_nil_r. unfold Debounce.fire. simpl.
  destruct timeout as [args|]; simpl in *; by rewrite ?app_nil_r in *.
Qed.

Lemma called_app (A : Type) (events events' : list (Debounce.event A)) :
  called (events ++ events') = called events ++ called events'.
Proof. unfold called. apply omap_app. Qed.

(** X23. Whatever the calls and the timers do, the function is applied
    only to arguments it was called with, in the order of the calls, and to
    those of one call at most once: a pending timer included, the
    applications are a sublist of the calls. *)
Theorem debounce_applies_calls (A : Type) (wait : Z) (events : list (Debounce.event A)) :
  let st := Debounce.run wait events Debounce.initial in
  st.2 ++ option_list (Debounce.timeout st.1) `sublist_of` called events /\
  length st.2 <= length (called events).
Proof.
assert (H : (Debounce.run wait events Debounce.initial).2 ++
            option_list (Debounce.timeout (Debounce.run wait events Debounce.initial).1)
            `sublist_of` called events).
{ induction events as [|e events IH] using rev_ind; [done|].
  unfold Debounce.run in *. rewrite foldl_app, called_app. simpl.
  by apply debounce_step_sublist. }
simpl. split; [exact H|].
apply sublist_length in H. rewrite length_app in H. lia.
Qed.

(** ** [wrapY] *)

Section WrapFacts.
Variable tooWide : list string -> bool.

Lemma wrap_step_concat (st : wrapY.State) (word : string) :
  concat ((wrapY.step tooWide st word).1 ++ [(wrapY.step tooWide st word).2]) =
  concat (st.1 ++ [st.2]) ++ [word].
Proof.
destruct st as [tspans line]. unfold wrapY.step.
destruct (tooWide (line ++ [word])); simpl; rewrite !concat_app; simpl;
  rewrite ?concat_app; simpl; by rewrite ?app_nil_r, <- ?app_assoc.
Qed.

Lemma wrap_foldl_concat (words : list string) (st : wrapY.State) :
  concat ((foldl (wrapY.step tooWide) st words).1 ++
          [(foldl (wrapY.step tooWide) st words).2]) =
  concat (st.1 ++ [st.2]) ++ words.
Proof.
revert st. induction words as [|word words IH]; intros st; simpl.
- by rewrite app_nil_r.
- rewrite IH, wrap_step_concat, <- app_assoc. reflexivity.
Qed.

Lemma wrap_unfold (words : list string) :
  wrapY.wrap tooWide words =
  (foldl (wrapY.step tooWide) ([], []) (wrapY.seen words)).1 ++
  [(foldl (wrapY.step tooWide) ([], []) (wrapY.seen words)).2].
Proof.
unfold wrapY.wrap. by destruct (foldl (wrapY.step tooWide) ([], []) (wrapY.seen words)).
Qed.

Lemma seen_all (words : list string) :
  Forall (fun word => word <> "") words -> wrapY.seen words = words.
Proof.
induction 1 as [|word words Hword _ IH]; [done|].
simpl. destruct (decide (word = "")); [done|]. by rewrite IH.
Qed.

Lemma seen_stops (words rest : list string) :
  Forall (fun word => word <> "") words ->
  wrapY.seen (words ++ "" :: rest) = words.
Proof.
induction 1 as [|word words Hword _ IH]; [done|].
simpl. destruct (decide (word = "")); [done|]. by rewrite IH.
Qed.

(** X24. The [tspan]s hold, in order and without loss or repetition, the
    words of the label up to its first empty word; the words after an empty
    word are dropped, so a label that starts with white space is wrapped to
    one empty [tspan]. *)
Theorem wrap_keeps_words (words rest : list string) :
  Forall (fun word => word <> "") words ->
  concat (wrapY.wrap tooWide words) = words /\
  concat (wrapY.wrap tooWide (words ++ "" :: rest)) = words /\
  wrapY.wrap tooWide ("" :: rest) = [[]].
Proof.
intros Hwords. rewrite !wrap_unfold, !wrap_foldl_concat.
rewrite seen_all, seen_stops by done. done.
Qed.

Lemma wrap_foldl_fit (words : list string) (st : wrapY.State) :
  Forall (fits tooWide) st.1 -> fits tooWide st.2 ->
  Forall (fits tooWide) (foldl (wrapY.step tooWide) st words).1 /\
  fits tooWide (foldl (wrapY.step tooWide) st words).2.
Proof.
revert st. induction words as [|word words IH]; intros [tspans line] Htspans Hline; [done|].
simpl. apply IH; simpl in *.
- destruct (tooWide (line ++ [word])); simpl; [|done].
  apply Forall_app. split; [done | by repeat constructor].
- destruct (tooWide (line ++ [word])) eqn:Hwide; simpl.
  + intros Hlen. simpl in Hlen. lia.
  + by intros _.
Qed.

(** X25. Every [tspan] of two words or more is within the width: only a
    [tspan] of a single word can be too wide. *)
Theorem wrap_lines_fit (words : list string) (line : list string) :
  line ∈ wrapY.wrap tooWide words ->
  2 <= length line ->
  tooWide line = false.
Proof.
intros Hin. rewrite wrap_unfold in Hin.
destruct (wrap_foldl_fit (wrapY.seen words) ([], [])) as [Htspans Hline].
- constructor.
- intros Hlen. simpl in Hlen. lia.
- apply elem_of_app in Hin as [Hin|Hin].
  + rewrite Forall_forall in Htspans. by apply Htspans.
  + apply list_elem_of_singleton in Hin as ->. exact Hline.
Qed.

Lemma wrap_step_breaks (st : wrapY.State) (word : string) :
  breaks_needed tooWide (st.1 ++ [st.2]) ->
  breaks_needed tooWide ((wrapY.step tooWide st word).1 ++ [(wrapY.step tooWide st word).2]).
Proof.
destruct st as [tspans line]. unfold wrapY.step. simpl. intros Hold k l1 l2 H1 H2.
destruct (tooWide (line ++ [word])) eqn:Hwide; simpl in *.
- destruct (decide (Datatypes.S k < length (tspans ++ [line]))) as [Hlt|Hge].
  + rewrite lookup_app_l in H1, H2 by lia. by eapply Hold.
  + assert (Hk : k = length tspans).
    { apply lookup_lt_Some in H2. rewrite !length_app in *. simpl in *. lia. }
    subst k.
    rewrite lookup_app_l in H1 by (rewrite length_app; simpl; lia).
    rewrite lookup_app_r, Nat.sub_diag in H1 by lia. injection H1 as <-.
    rewrite lookup_app_r in H2 by (rewrite length_app; simpl; lia).
    rewrite length_app in H2. simpl in H2.
    replace (Datatypes.S (length tspans) - (length tspans + 1)) with 0 in H2 by lia.
    injection H2 as <-. by exists word, [].
- destruct (decide (Datatypes.S k < length tspans)) as [Hlt|Hge].
  + rewrite lookup_app_l in H1, H2 by lia.
    apply (Hold k); by rewrite lookup_app_l by lia.
  + assert (Hk : Datatypes.S k = length tspans).
    { apply lookup_lt_Some in H2. rewrite !length_app in *. simpl in *. lia. }
    rewrite lookup_app_l in H1 by lia.
    rewrite lookup_app_r, Hk, Nat.sub_diag in H2 by lia. injection H2 as <-.
    destruct (Hold k l1 line) as (w & rest & -> & Hw).
    * by rewrite lookup_app_l by lia.
    * by rewrite lookup_app_r, Hk, Nat.sub_diag by lia.
    * by exists w, (rest ++ [word]).
Qed.

Lemma wrap_foldl_breaks (words : list string) (st : wrapY.State) :
  breaks_needed tooWide (st.1 ++ [st.2]) ->
  breaks_needed tooWide ((foldl (wrapY.step tooWide) st words).1 ++
                 [(foldl (wrapY.step tooWide) st words).2]).
Proof.
revert st. induction words as [|word words IH]; intros st Hst; [done|].
simpl. by apply IH, wrap_step_breaks.
Qed.

(** X26. No line break is made without need: a [tspan] that follows
    another starts with a word that, added to the one before, made it too
    wide; so only the first [tspan] can be empty. *)
Theorem wrap_breaks_needed (words : list string) (k : nat) (line next : list string) :
  wrapY.wrap tooWide words !! k = Some line ->
  wrapY.wrap tooWide words !! Datatypes.S k = Some next ->
  break_needed tooWide line next /\ next <> [].
Proof.
intros Hline Hnext. rewrite wrap_unfold in Hline, Hnext.
assert (H : break_needed tooWide line next).
{ eapply (wrap_foldl_breaks (wrapY.seen words) ([], [])); [|exact Hline|exact Hnext].
  intros [|j] l1 l2 H1 H2; simpl in *; discriminate. }
split; [exact H|]. by destruct H as (w & rest & -> & _).
Qed.

End WrapFacts.

Lemma wrap_lines_fit_witness :
  let tooWide := fun line : list string => 2 <? length line in
  ["peak"; "read"] ∈ wrapY.wrap tooWide ["peak"; "read"; "counts"] /\
  tooWide ["peak"; "read"] = false.
Proof.
intros tooWide.
assert (Hin : ["peak"; "read"] ∈ wrapY.wrap tooWide ["peak"; "read"; "counts"])
  by (vm_compute; left).
split; [exact Hin|].
apply (wrap_lines_fit tooWide ["peak"; "read"; "counts"]); [exact Hin | simpl; lia].
Defined.

Lemma wrap_keeps_words_witness :
  let tooWide := fun line : list string => 2 <? length line in
  concat (wrapY.wrap tooWide ["peak"; "read"; "counts"]) = ["peak"; "read"; "counts"] /\
  concat (wrapY.wrap tooWide (["peak"; "read"; "counts"] ++ "" :: ["lost"])) =
    ["peak"; "read"; "counts"] /\
  wrapY.wrap tooWide ("" :: ["lost"]) = [[]].
Proof.
intros tooWide. apply wrap_keeps_words.
repeat constructor; discriminate.
Defined.

Lemma wrap_breaks_needed_witness :
  let tooWide := fun line : list string => 2 <? length line in
  break_needed tooWide ["peak"; "read"] ["counts"] /\ ["counts"] <> [].
Proof.
intros tooWide.
apply (wrap_breaks_needed tooWide ["peak"; "read"; "counts"] 0); reflexivity.
Defined.

(** ** [hrefToID] *)

Lemma occurs_app (c : ascii) (s s' : string) :
  occurs c (s +:+ s') = occurs c s || occurs c s'.
Proof.
induction s as [|c' s IH]; simpl; [done|]. rewrite IH. by rewrite orb_assoc.
Qed.

Lemma split_without (c : ascii) (s : string) :
  occurs c s = false -> split c s = [s].
Proof.
induction s as [|c' s IH]; simpl; [done|].
intros [Hc Hs]%orb_false_elim. apply bool_decide_eq_false in Hc.
destruct (decide (c' = c)); [done|]. by rewrite IH.
Qed.

Lemma split_first (c : ascii) (s s' : string) :
  occurs c s = false -> split c (s +:+ String c s') = s :: split c s'.
Proof.
induction s as [|c' s IH]; simpl.
- intros _. by destruct (decide (c = c)).
- intros [Hc Hs]%orb_false_elim. apply bool_decide_eq_false in Hc.
  destruct (decide (c' = c)); [done|]. by rewrite IH.
Qed.

(** X27. [hrefToID] returns the text between the first and the second
    [#] of the address (up to the end when there is no second one), and
    [null] when the address has no [#] or is not a string. *)
Theorem hrefToID_fragment (page id rest : string) :
  occurs "#" page = false ->
  occurs "#" id = false ->
  hrefToID (Some (page +:+ "#" +:+ id)) = Some id /\
  hrefToID (Some (page +:+ "#" +:+ id +:+ "#" +:+ rest)) = Some id /\
  hrefToID (Some page) = None /\
  hrefToID None = None.
Proof.
intros Hpage Hid. unfold hrefToID. rewrite Hpage.
rewrite !occurs_app. simpl. rewrite !orb_true_r.
change ("#" +:+ id) with (String "#" id).
change ("#" +:+ id +:+ "#" +:+ rest) with (String "#" (id +:+ String "#" rest)).
rewrite !split_first by done. rewrite split_without by done.
done.
Qed.

Lemma hrefToID_fragment_witness :
  hrefToID (Some ("http://host/index.html" +:+ "#" +:+ "plotTabBody")) = Some "plotTabBody" /\
  hrefToID (Some ("http://host/index.html" +:+ "#" +:+ "plotTabBody" +:+ "#" +:+ "x")) =
    Some "plotTabBody" /\
  hrefToID (Some "http://host/index.html") = None /\
  hrefToID None = None.
Proof.
apply hrefToID_fragment; reflexivity.
Defined.

(** ** What the plots draw *)

Lemma keys_group {V} (k : string) (v : V) (f : V -> V) (m : list (string * V)) :
  JsMap.keys (match JsMap.get k m with
              | Some l => JsMap.set k (f l) m
              | None => JsMap.set k v m
              end)
  = if decide (k ∈ JsMap.keys m) then JsMap.keys m else JsMap.keys m ++ [k].
Proof.
destruct (decide (k ∈ JsMap.keys m)) as [Hin|Hnin].
- destruct (keys_get _ _ Hin) as [l ->]. by apply keys_set_in.
- destruct (JsMap.get k m) as [l|] eqn:Hget.
  + by apply get_Some_keys in Hget.
  + by apply keys_set_notin.
Qed.

Lemma first_seen_elem_of (l seen : list string) (S : string) :
  S ∈ first_seen seen l <-> S ∈ seen \/ S ∈ l.
Proof.
revert seen. induction l as [|s l IH]; intros seen; unfold first_seen; simpl.
- rewrite elem_of_nil. tauto.
- fold (first_seen (if decide (s ∈ seen) then seen else seen ++ [s]) l).
  rewrite IH, elem_of_cons. destruct (decide (s ∈ seen)) as [Hin|Hnin].
  + split; [tauto|]. intros [?|[->|?]]; tauto.
  + rewrite elem_of_app, list_elem_of_singleton. tauto.
Qed.

Lemma first_seen_NoDup (l seen : list string) : NoDup seen -> NoDup (first_seen seen l).
Proof.
revert seen. induction l as [|s l IH]; intros seen Hnd; [done|].
unfold first_seen. simpl. apply IH. destruct (decide (s ∈ seen)) as [Hin|Hnin]; [done|].
apply NoDup_app. split; [done|]. split; [|apply NoDup_singleton].
intros x Hx Hx'. apply list_elem_of_singleton in Hx'. by subst.
Qed.

Lemma samples_along_elem_of (configuration : Configuration.t) (S : string) :
  S ∈ samples_along configuration (experimentIDs configuration) <-> derivable configuration S.
Proof.
unfold samples_along. rewrite list_elem_of_omap. split.
- intros (i & _ & Hi). destruct (Configuration.metrics configuration !! i) as [e|] eqn:He; [|done].
  injection Hi as <-. by exists i, e.
- intros (i & e & He & <-). exists i. split; [|by rewrite He].
  apply elem_of_experimentIDs. by eexists.
Qed.

Lemma scatter_keys configuration yAxisSource (ids : list string) data samples data' samples' :
  for_each (Scatter.addLibrary configuration yAxisSource) (data, samples) ids
    = Ok (data', samples') ->
  JsMap.keys samples' = first_seen (JsMap.keys samples) (samples_along configuration ids).
Proof.
revert data samples. induction ids as [|i ids IH]; intros data samples Hrun.
- simpl in Hrun. by injection Hrun as <- <-.
- rewrite for_each_cons in Hrun.
  destruct (Scatter.addLibrary configuration yAxisSource (data, samples) i)
    as [[data1 samples1]|] eqn:Hstep; [|done].
  simpl in Hrun. apply IH in Hrun. rewrite Hrun. clear Hrun IH.
  unfold Scatter.addLibrary, Scatter.makeLibrary in Hstep.
  unfold samples_along. simpl.
  destruct (Configuration.metrics configuration !! i) as [e|]; [|done].
  simpl in *. unfold first_seen at 2. simpl. f_equal.
  rewrite <- (keys_group (Experiment.sample e)
    [scatter_library yAxisSource i e] (fun l => l ++ [scatter_library yAxisSource i e])).
  unfold scatter_library.
  destruct (JsMap.get (Experiment.sample e) samples); by injection Hstep as <- <-.
Qed.

Section LinePlotFacts.
Variable configuration : Configuration.t.
Variable data : PlotDataset.t.
Variable mk : string -> Experiment.t -> Line.Series.
Hypothesis Hlookup : forall i,
  PlotDataset.series data !! i = mk i <$> Configuration.metrics configuration !! i.
Hypothesis Hsample : forall i e, Line.sample (mk i e) = Experiment.sample e.

Lemma addDatum_keys (ids : list string) (samples : list (string * list Line.Series)) :
  (forall i, i ∈ ids -> is_Some (Configuration.metrics configuration !! i)) ->
  exists samples',
    for_each (LinePlot.addDatum data) samples ids = Ok samples'
    /\ JsMap.keys samples' = first_seen (JsMap.keys samples) (samples_along configuration ids).
Proof.
revert samples. induction ids as [|i ids IH]; intros samples Hids.
- by exists samples.
- destruct (Hids i) as [e He]; [apply list_elem_of_here|].
  set (samples1 := match JsMap.get (Experiment.sample e) samples with
                   | Some libraries => JsMap.set (Experiment.sample e) (libraries ++ [mk i e]) samples
                   | None => JsMap.set (Experiment.sample e) [mk i e] samples
                   end).
  assert (Hstep : LinePlot.addDatum data samples i = Ok samples1).
  { unfold LinePlot.addDatum. rewrite Hlookup, He. simpl. rewrite Hsample.
    subst samples1. by destruct (JsMap.get (Experiment.sample e) samples). }
  destruct (IH samples1) as (samples' & Hrun & Hkeys).
  { intros j Hj. apply Hids. by apply list_elem_of_further. }
  exists samples'. split.
  + by rewrite for_each_cons, Hstep.
  + rewrite Hkeys. unfold samples_along. simpl. rewrite He. simpl.
    unfold first_seen at 2. simpl. f_equal. subst samples1.
    apply (keys_group (Experiment.sample e) [mk i e] (fun l => l ++ [mk i e])).
Qed.

Lemma addPath_loop (st : list (string * bool)) (ids : list string) (paths : list LinePlot.Path) :
  (forall i, i ∈ ids -> is_Some (Configuration.metrics configuration !! i)) ->
  for_each (LinePlot.addPath data st) paths ids
  = Ok (paths ++ omap (fun i => LinePlot.path st <$> PlotDataset.series data !! i) ids).
Proof.
revert paths. induction ids as [|i ids IH]; intros paths Hids.
- simpl. by rewrite app_nil_r.
- destruct (Hids i) as [e He]; [apply list_elem_of_here|].
  assert (Hstep : LinePlot.addPath data st paths i
                  = Ok (paths ++ [LinePlot.path st (mk i e)])).
  { unfold LinePlot.addPath. by rewrite Hlookup, He. }
  rewrite for_each_cons, Hstep. simpl.
  rewrite IH by (intros j Hj; by apply Hids, list_elem_of_further).
  by rewrite Hlookup, He, <- app_assoc.
Qed.

Lemma draw_returns (st : list (string * bool)) (toggle : option bool) :
  exists samples : list (string * list Line.Series),
    JsMap.keys samples = first_seen [] (samples_along configuration (experimentIDs configuration))
    /\ LinePlot.draw (Ok data) configuration st toggle
       = Ok {| LinePlot.xMax := PlotDataset.xMax data;
               LinePlot.yMax := PlotDataset.yMax data;
               LinePlot.xLabel := PlotDataset.xLabel data;
               LinePlot.yLabel := PlotDataset.yLabel data;
               LinePlot.paths :=
                 omap (fun i => LinePlot.path st <$> PlotDataset.series data !! i)
                   (experimentIDs configuration);
               LinePlot.reference :=
                 (fun reference_series =>
                    (negb (default true toggle), ReferenceSeries.line reference_series))
                   <$> PlotDataset.reference_series data;
               LinePlot.legend := Legend.items samples st |}.
Proof.
destruct (addDatum_keys (experimentIDs configuration) JsMap.empty) as (samples & Hrun & Hkeys).
{ intros i. apply elem_of_experimentIDs. }
exists samples. split; [exact Hkeys|].
unfold LinePlot.draw. simpl. rewrite Hrun. simpl.
rewrite addPath_loop by (intros i; apply elem_of_experimentIDs). reflexivity.
Qed.

End LinePlotFacts.

Lemma provider_series configuration resolution (plot : Js.result PlotDataset.t) data :
  plot ∈ providers configuration resolution ->
  plot = Ok data ->
  exists mk : string -> Experiment.t -> Line.Series,
    (forall i, PlotDataset.series data !! i
               = mk i <$> Configuration.metrics configuration !! i)
    /\ (forall i e, Line.sample (mk i e) = Experiment.sample e)
    /\ (forall i e, Line.experimentID (mk i e) = i).
Proof.
unfold providers. intros Hin Hplot.
repeat (apply elem_of_cons in Hin as [->|Hin]).
- destruct (fragment_length_result _ _ _ Hplot) as (_ & _ & _ & _ & _ & Hlookup).
  by eexists.
- destruct (mapq_provideData configuration) as (r & Hr & _ & Hlookup).
  rewrite Hplot in Hr. injection Hr as <-. by eexists.
- destruct (peak_provideData PeakPercentiles.cumulative_fraction_of_hqaa
              "Cumulative fraction of high-quality autosomal reads" configuration)
    as (r & Hr & _ & _ & Hlookup).
  unfold plotPeakReadCounts.provideData in Hplot.
  rewrite Hplot in Hr. injection Hr as <-. by eexists.
- destruct (peak_provideData PeakPercentiles.cumulative_fraction_of_territory
              "Cumulative fraction of peak territory" configuration)
    as (r & Hr & _ & _ & Hlookup).
  unfold plotPeakTerritory.provideData in Hplot.
  rewrite Hplot in Hr. injection Hr as <-. by eexists.
- by apply elem_of_nil in Hin.
Qed.

Lemma legend_items_keys {V W} (samples : list (string * V)) (samples' : list (string * W))
  (st : list (string * bool)) :
  JsMap.keys samples = JsMap.keys samples' ->
  Legend.items samples st = Legend.items samples' st.
Proof.
intros Hkeys. unfold Legend.items. rewrite Hkeys.
assert (Hlen : length samples = length samples').
{ unfold JsMap.keys in Hkeys.
  by rewrite <- (length_fmap fst samples), <- (length_fmap fst samples'), Hkeys. }
by rewrite Hlen.
Qed.

Lemma legend_samples {V} (samples : list (string * V)) (st : list (string * bool)) :
  Legend.sample <$> Legend.items samples st = Js.sort (JsMap.keys samples).
Proof.
unfold Legend.items. rewrite <- list_fmap_compose. apply list_fmap_id.
Qed.

Lemma legend_length {V} (samples : list (string * V)) (st : list (string * bool)) :
  length (Legend.items samples st) = length samples.
Proof.
unfold Legend.items, Js.sort, JsMap.keys.
by rewrite length_fmap, merge_sort_Permutation, length_fmap.
Qed.

Lemma legend_item {V} (samples : list (string * V)) (st : list (string * bool))
  (item : Legend.Item) :
  item ∈ Legend.items samples st ->
  Legend.sample item ∈ JsMap.keys samples
  /\ Legend.targetHidden item = notSelected st (Legend.sample item)
  /\ Legend.fullWidth item = (length samples <? 7).
Proof.
unfold Legend.items. intros (S & -> & Hin)%list_elem_of_fmap. simpl.
split; [|done]. unfold Js.sort in Hin. by rewrite merge_sort_Permutation in Hin.
Qed.

Lemma notSelected_initialize configuration S :
  derivable configuration S ->
  notSelected (initialize configuration legendItemState) S = false.
Proof.
intros Hd. unfold notSelected.
rewrite initialize_set_each, set_each_get; [done|].
by apply derivable_elem_of.
Qed.

Lemma makeLibrary_ids configuration yAxisSource (ids : list string)
  (libs : list Scatter.Library) :
  (forall i, i ∈ ids -> is_Some (Configuration.metrics configuration !! i)) ->
  Some <$> libs = Scatter.makeLibrary configuration yAxisSource <$> ids ->
  Scatter.experimentID <$> libs = ids.
Proof.
revert libs. induction ids as [|i ids IH]; intros [|lib libs] Hall Heq; try done.
simpl in Heq. injection Heq as Hlib Hrest.
destruct (Hall i) as [e He]; [apply list_elem_of_here|].
rewrite (makeLibrary_Some _ _ _ _ He) in Hlib. injection Hlib as ->.
simpl. f_equal. apply IH; [|done].
intros j Hj. apply Hall. by apply list_elem_of_further.
Qed.

Lemma paths_of_series configuration data (mk : string -> Experiment.t -> Line.Series)
  (st : list (string * bool)) (ids : list string) :
  (forall i, PlotDataset.series data !! i
             = mk i <$> Configuration.metrics configuration !! i) ->
  (forall i e, Line.experimentID (mk i e) = i) ->
  (forall i, i ∈ ids -> is_Some (Configuration.metrics configuration !! i)) ->
  LinePlot.data_experiment
    <$> omap (fun i => LinePlot.path st <$> PlotDataset.series data !! i) ids = ids.
Proof.
intros Hlookup Hid. induction ids as [|i ids IH]; intros Hall; [done|].
destruct (Hall i) as [e He]; [apply list_elem_of_here|].
simpl. rewrite Hlookup, He. simpl. rewrite Hid. f_equal.
apply IH. intros j Hj. by apply Hall, list_elem_of_further.
Qed.

(** X28. Each of the four line plots whose data provider returns draws one
    path per experiment of the document, in the order of the sorted
    experiment IDs; the path carries the line of its experiment and the
    sample of its experiment, and is hidden exactly when [legendItemState]
    does not hold [true] for that sample.  With the state [initialize]
    leaves, no path and no legend item is hidden. *)
Theorem line_plot_draws_every_experiment (configuration : Configuration.t) (resolution : Z)
  (st : list (string * bool)) (toggle : option bool)
  (plot : Js.result PlotDataset.t) (data : PlotDataset.t) :
  plot ∈ providers configuration resolution ->
  plot = Ok data ->
  exists drawing,
    LinePlot.draw plot configuration st toggle = Ok drawing
    /\ LinePlot.data_experiment <$> LinePlot.paths drawing = experimentIDs configuration
    /\ Forall (fun path =>
                 exists experiment series,
                   Configuration.metrics configuration !! LinePlot.data_experiment path
                     = Some experiment
                   /\ PlotDataset.series data !! LinePlot.data_experiment path = Some series
                   /\ LinePlot.d path = Line.line series
                   /\ LinePlot.data_sample path = Experiment.sample experiment
                   /\ LinePlot.hidden path = notSelected st (Experiment.sample experiment))
              (LinePlot.paths drawing)
    /\ (st = initialize configuration legendItemState ->
        Forall (fun path => LinePlot.hidden path = false) (LinePlot.paths drawing)
        /\ Forall (fun item => Legend.targetHidden item = false) (LinePlot.legend drawing)).
Proof.
intros Hin ->. destruct (provider_series _ _ _ _ Hin eq_refl) as (mk & Hlookup & Hsample & Hid).
destruct (draw_returns configuration data mk Hlookup Hsample st toggle)
  as (samples & Hkeys & Hdraw).
eexists. split; [exact Hdraw|]. cbn [LinePlot.paths LinePlot.legend].
assert (Hpath : forall path,
          path ∈ omap (fun i => LinePlot.path st <$> PlotDataset.series data !! i)
                   (experimentIDs configuration) ->
          exists i e, Configuration.metrics configuration !! i = Some e
                      /\ path = LinePlot.path st (mk i e)).
{ intros path (i & _ & Hi)%list_elem_of_omap. rewrite Hlookup in Hi.
  destruct (Configuration.metrics configuration !! i) as [e|] eqn:He; [|done].
  injection Hi as <-. by exists i, e. }
split; [|split].
- apply (paths_of_series configuration data mk); [done | done |].
  intros i. apply elem_of_experimentIDs.
- apply Forall_forall. intros path (i & e & He & ->)%Hpath.
  exists e, (mk i e). cbn [LinePlot.path LinePlot.data_experiment LinePlot.d
    LinePlot.data_sample LinePlot.hidden].
  rewrite Hid, Hsample, Hlookup, He. done.
- intros ->. split.
  + apply Forall_forall. intros path (i & e & He & ->)%Hpath.
    cbn [LinePlot.path LinePlot.hidden]. rewrite Hsample.
    apply notSelected_initialize. by exists i, e.
  + apply Forall_forall. intros item (Hitem & -> & _)%legend_item.
    apply notSelected_initialize, samples_along_elem_of.
    rewrite Hkeys in Hitem. apply first_seen_elem_of in Hitem as [Hitem|Hitem]; [|done].
    by apply elem_of_nil in Hitem.
Qed.

Lemma line_plot_draws_every_experiment_witness :
  exists drawing,
    LinePlot.draw (plotMapq.provideData Inputs.replicates) Inputs.replicates
      (initialize Inputs.replicates legendItemState) None = Ok drawing
    /\ LinePlot.data_experiment <$> LinePlot.paths drawing = experimentIDs Inputs.replicates.
Proof.
destruct (mapq_provideData Inputs.replicates) as (data & Hdata & _).
destruct (line_plot_draws_every_experiment Inputs.replicates 10
            (initialize Inputs.replicates legendItemState) None
            (plotMapq.provideData Inputs.replicates) data)
  as (drawing & Hdraw & Hids & _).
- unfold providers. apply list_elem_of_further, list_elem_of_here.
- exact Hdata.
- by exists drawing.
Defined.

(** X29. The scatter plot always draws: one dot per experiment, in the
    order of the sorted experiment IDs.  Its legend lists the samples of
    the document, each once, in sorted order; an item is marked
    [targetHidden] exactly when [legendItemState] does not hold [true] for
    its sample, and the items take the full width when there are fewer than
    seven.  Every line plot whose data provider returns draws the same
    legend. *)
Theorem plots_share_legend (configuration : Configuration.t) (yAxisSource : string)
  (st : list (string * bool)) :
  exists scatter,
    ScatterPlot.draw configuration yAxisSource st = Ok scatter
    /\ ScatterPlot.data_experiment <$> ScatterPlot.dots scatter = experimentIDs configuration
    /\ Sorted string_le (Legend.sample <$> ScatterPlot.legend scatter)
    /\ NoDup (Legend.sample <$> ScatterPlot.legend scatter)
    /\ (forall S, S ∈ Legend.sample <$> ScatterPlot.legend scatter
                  <-> derivable configuration S)
    /\ Forall (fun item =>
                 Legend.targetHidden item = notSelected st (Legend.sample item)
                 /\ Legend.fullWidth item = (length (ScatterPlot.legend scatter) <? 7))
              (ScatterPlot.legend scatter)
    /\ (forall resolution toggle (plot : Js.result PlotDataset.t) data,
          plot ∈ providers configuration resolution ->
          plot = Ok data ->
          exists drawing,
            LinePlot.draw plot configuration st toggle = Ok drawing
            /\ LinePlot.legend drawing = ScatterPlot.legend scatter).
Proof.
destruct (collect_grouped configuration yAxisSource) as (data & samples & Hc & [Hnd _] & _).
pose proof (scatter_keys _ _ _ _ _ _ _ Hc) as Hkeys. simpl in Hkeys.
eexists. split; [unfold ScatterPlot.draw; rewrite Hc; reflexivity|].
cbn [ScatterPlot.dots ScatterPlot.legend fst snd].
split; [|split; [|split; [|split; [|split]]]].
- rewrite <- list_fmap_compose.
  apply (makeLibrary_ids configuration yAxisSource).
  + intros i. apply elem_of_experimentIDs.
  + exact (collect_data _ _ _ _ _ _ _ Hc).
- rewrite legend_samples. apply Sorted_merge_sort. intros a b. apply String.leb_total.
- rewrite legend_samples. unfold Js.sort. by rewrite merge_sort_Permutation.
- intros S. rewrite legend_samples. unfold Js.sort.
  rewrite merge_sort_Permutation, Hkeys, first_seen_elem_of, samples_along_elem_of.
  rewrite elem_of_nil. tauto.
- apply Forall_forall. intros item (_ & Hhidden & Hwidth)%legend_item.
  by rewrite legend_length.
- intros resolution toggle plot data' Hin ->.
  destruct (provider_series _ _ _ _ Hin eq_refl) as (mk & Hlookup & Hsample & _).
  destruct (draw_returns configuration data' mk Hlookup Hsample st toggle)
    as (samples' & Hkeys' & Hdraw).
  eexists. split; [exact Hdraw|]. cbn [LinePlot.legend].
  apply legend_items_keys. by rewrite Hkeys, Hkeys'.
Qed.

(** ** [populatePlots] *)

Lemma scatter_draws configuration yAxisSource st :
  exists scatter, ScatterPlot.draw configuration yAxisSource st = Ok scatter.
Proof.
destruct (collect_grouped configuration yAxisSource) as (data & samples & Hc & _).
eexists. unfold ScatterPlot.draw. rewrite Hc. reflexivity.
Qed.

Lemma line_plot_draws configuration resolution st toggle (plot : Js.result PlotDataset.t) data :
  plot ∈ providers configuration resolution ->
  plot = Ok data ->
  exists drawing, LinePlot.draw plot configuration st toggle = Ok drawing.
Proof.
intros Hin ->. destruct (provider_series _ _ _ _ Hin eq_refl) as (mk & Hlookup & Hsample & _).
destruct (draw_returns configuration data mk Hlookup Hsample st toggle) as (samples & _ & Hdraw).
by eexists.
Qed.

Lemma linePlot_draws containerID configuration controls st page
  (plot : Js.result PlotDataset.t) data :
  plot ∈ providers configuration (resolution controls) ->
  plot = Ok data ->
  exists drawing,
    linePlot containerID plot configuration controls st page
    = (<[containerID := Lines drawing]> page, Ok tt).
Proof.
intros Hin Hplot.
destruct (line_plot_draws _ _ st (referenceToggle controls containerID) _ _ Hin Hplot)
  as (drawing & Hdraw).
exists drawing. unfold linePlot. by rewrite Hdraw.
Qed.

(** X30. [populatePlots] draws the five plots in order and stops at the
    first that throws.  When the document has a [fragment_length_reference]
    whose distribution is long enough, all five containers are filled.  In
    every other case the scatter plot is drawn, the container of the
    fragment length plot is left empty, [populatePlots] throws a
    [TypeError], and the three plots after it are not touched. *)
Theorem populatePlots_stops_at_first_throw (configuration : Configuration.t)
  (controls : Controls) (st : list (string * bool)) (page : Page) :
  ((exists reference,
      Configuration.fragment_length_reference configuration = Some reference
      /\ default 0 (plotFragmentLength.maximumInterestingFragmentLength configuration)
         <= length (FragmentLengthReference.distribution reference)) ->
   exists scatter fragmentLength mapq peakReadCounts peakTerritory,
     populatePlots configuration controls st page
     = (<["peakTerritoryPlot" := Lines peakTerritory]>
          (<["peakReadCountsPlot" := Lines peakReadCounts]>
             (<["mapqPlot" := Lines mapq]>
                (<["fragmentLengthPlot" := Lines fragmentLength]>
                   (<["fragmentLengthDistancePlot" := Dots scatter]> page)))),
        Ok tt))
  /\ (~ (exists reference,
           Configuration.fragment_length_reference configuration = Some reference
           /\ default 0 (plotFragmentLength.maximumInterestingFragmentLength configuration)
              <= length (FragmentLengthReference.distribution reference)) ->
      exists scatter,
        populatePlots configuration controls st page
        = (delete "fragmentLengthPlot"
             (<["fragmentLengthDistancePlot" := Dots scatter]> page),
           Throw TypeError)
        /\ forall containerID,
             containerID ∈ ["mapqPlot"; "peakReadCountsPlot"; "peakTerritoryPlot"] ->
             (populatePlots configuration controls st page).1 !! containerID
             = page !! containerID).
Proof.
destruct (scatter_draws configuration (yAxisSource controls) st) as (scatter & Hscatter).
assert (Hfirst : plots.plotFragmentLengthDistance configuration controls st page
                 = (<["fragmentLengthDistancePlot" := Dots scatter]> page, Ok tt)).
{ unfold plots.plotFragmentLengthDistance. by rewrite Hscatter. }
split.
- intros (reference & Href & Hlen).
  destruct (fragment_length_provideData _ (resolution controls) _ Href Hlen)
    as (r1 & Hr1 & _).
  destruct (mapq_provideData configuration) as (r2 & Hr2 & _).
  destruct (peak_provideData PeakPercentiles.cumulative_fraction_of_hqaa
              "Cumulative fraction of high-quality autosomal reads" configuration)
    as (r3 & Hr3 & _).
  destruct (peak_provideData PeakPercentiles.cumulative_fraction_of_territory
              "Cumulative fraction of peak territory" configuration)
    as (r4 & Hr4 & _).
  set (page1 := <["fragmentLengthDistancePlot" := Dots scatter]> page) in *.
  destruct (linePlot_draws "fragmentLengthPlot" configuration controls st page1
              (plotFragmentLength.provideData configuration (resolution controls)) r1)
    as (fragmentLength & H1); [apply list_elem_of_here | exact Hr1 |].
  set (page2 := <["fragmentLengthPlot" := Lines fragmentLength]> page1) in *.
  destruct (linePlot_draws "mapqPlot" configuration controls st page2
              (plotMapq.provideData configuration) r2)
    as (mapq & H2);
    [apply list_elem_of_further, list_elem_of_here | exact Hr2 |].
  set (page3 := <["mapqPlot" := Lines mapq]> page2) in *.
  destruct (linePlot_draws "peakReadCountsPlot" configuration controls st page3
              (plotPeakReadCounts.provideData configuration) r3)
    as (peakReadCounts & H3);
    [do 2 apply list_elem_of_further; apply list_elem_of_here | exact Hr3 |].
  set (page4 := <["peakReadCountsPlot" := Lines peakReadCounts]> page3) in *.
  destruct (linePlot_draws "peakTerritoryPlot" configuration controls st page4
              (plotPeakTerritory.provideData configuration) r4)
    as (peakTerritory & H4);
    [do 3 apply list_elem_of_further; apply list_elem_of_here | exact Hr4 |].
  exists scatter, fragmentLength, mapq, peakReadCounts, peakTerritory.
  unfold populatePlots. cbn [statements]. rewrite Hfirst.
  unfold plots.plotFragmentLength, plots.plotMapq, plots.plotPeakReadCounts,
    plots.plotPeakTerritory.
  fold page1. rewrite H1. fold page2. rewrite H2. fold page3. rewrite H3.
  fold page4. rewrite H4. reflexivity.
- intros Hnone.
  assert (Hthrow : plotFragmentLength.provideData configuration (resolution controls)
                   = Throw TypeError).
  { destruct (plotFragmentLength.provideData configuration (resolution controls))
      as [result|[]] eqn:Hresult; [|done].
    exfalso. apply Hnone. by eapply fragment_length_needs_reference. }
  assert (Hrun : populatePlots configuration controls st page
                 = (delete "fragmentLengthPlot"
                      (<["fragmentLengthDistancePlot" := Dots scatter]> page),
                    Throw TypeError)).
  { unfold populatePlots. cbn [statements]. rewrite Hfirst.
    unfold plots.plotFragmentLength, linePlot, LinePlot.draw. by rewrite Hthrow. }
  exists scatter. split; [exact Hrun|].
  intros containerID Hin. rewrite Hrun. cbn [fst].
  rewrite lookup_delete_ne, lookup_insert_ne; [done | |];
    repeat (apply elem_of_cons in Hin as [->|Hin]); try done;
    by apply elem_of_nil in Hin.
Qed.

Lemma populatePlots_stops_at_first_throw_witness :
  let controls := {| yAxisSource := "short_mononucleosomal_ratio";
                     resolution := 10;
                     referenceToggle := fun _ => None |} in
  (exists scatter fragmentLength mapq peakReadCounts peakTerritory,
     populatePlots Inputs.truncation controls
       (initialize Inputs.truncation legendItemState) ∅
     = (<["peakTerritoryPlot" := Lines peakTerritory]>
          (<["peakReadCountsPlot" := Lines peakReadCounts]>
             (<["mapqPlot" := Lines mapq]>
                (<["fragmentLengthPlot" := Lines fragmentLength]>
                   (<["fragmentLengthDistancePlot" := Dots scatter]> ∅)))),
        Ok tt))
  /\ (exists scatter,
        populatePlots Inputs.no_reference controls
          (initialize Inputs.no_reference legendItemState) ∅
        = (delete "fragmentLengthPlot"
             (<["fragmentLengthDistancePlot" := Dots scatter]> ∅),
           Throw TypeError)).
Proof.
intros controls. split.
- apply (proj1 (populatePlots_stops_at_first_throw Inputs.truncation controls
                  (initialize Inputs.truncation legendItemState) ∅)).
  exists (Inputs.reference 200). split; [reflexivity | vm_compute; lia].
- destruct (proj2 (populatePlots_stops_at_first_throw Inputs.no_reference controls
                     (initialize Inputs.no_reference legendItemState) ∅))
    as (scatter & Hrun & _).
  + intros (reference & Href & _). discriminate Href.
  + by exists scatter.
Defined.
